(** * Where2Meet: the event lifecycle, admission and voting routes

    A shallow embedding of the route handlers under [src/app/api/events]
    and of the helpers they call ([src/lib/utils.ts], [src/lib/llm.ts],
    [src/lib/validations.ts]).  The database reached through the Prisma
    client is an explicit [Store] threaded through a small state-and-
    exception monad; [new Date()], [Date.now()] and [Math.random()] are
    inputs of the functions that call them. *)

From Stdlib Require Import String Ascii List ZArith Bool Arith Lia DecimalString.
From Equations Require Import Equations.
Import ListNotations.

Local Open Scope string_scope.
Local Open Scope list_scope.
Local Open Scope Z_scope.

(** ** Data model ([src/types/index.ts]) *)

(** A [Date], as milliseconds since the epoch. *)
Definition Time := Z.

(** Decimal literals (scores, coordinates) are carried as text; no handler
    computes with them. *)
Definition Decimal := string.

Inductive EventStatus := WAITING | READY | VOTING | FINALIZED | EXPIRED.

Definition EventStatus_eqb (a b : EventStatus) : bool :=
  match a, b with
  | WAITING, WAITING | READY, READY | VOTING, VOTING
  | FINALIZED, FINALIZED | EXPIRED, EXPIRED => true
  | _, _ => false
  end.

Record DistanceInfo := mkDistanceInfo {
  participant : string;
  estimate : string;
  transport : string;
  participant_address : option string;
  coordinates : option (Decimal * Decimal);
  time : option string
}.

Module Event.
Record t := mk {
    id : string;
    shortCode : string;
    title : string;
    purpose : option string;
    eventTime : option Time;
    specialRequirements : option string;
    status : EventStatus;
    expectedParticipants : Z;
    votingStartedAt : option Time;
    votingEndedAt : option Time;
    finalLocationId : option Z;
    createdAt : Time;
    updatedAt : Time;
    expiresAt : Time
  }.
End Event.

Module Participant.
Record t := mk {
    id : Z;
    eventId : string;
    nickname : string;
    address : string;
    isCreator : bool;
    joinedAt : Time
  }.
End Participant.

Module Recommendation.
Record t := mk {
    id : Z;
    eventId : string;
    locationName : string;
    locationType : string;
    description : string;
    fairnessAnalysis : string;
    suitabilityScore : Decimal;
    rank : Z;
    facilities : list string;
    distances : list DistanceInfo;
    generatedAt : Time
  }.
End Recommendation.

Module Vote.
Record t := mk {
    id : Z;
    recommendationId : Z;
    eventId : string;
    voterNickname : string;
    votedAt : Time
  }.
End Vote.

(** ** The store behind the Prisma client

    One table per model, rows in insertion order, and the next value of
    each auto-increment key. *)
Record Store := mkStore {
  events : list Event.t;
  participants : list Participant.t;
  recommendations : list Recommendation.t;
  votes : list Vote.t;
  nextParticipantId : Z;
  nextRecommendationId : Z;
  nextVoteId : Z
}.

(** ** Exceptions and the handler monad *)

Inductive Exn :=
| JsError (message : string)        (* [throw new Error(message)] *)
| PrismaError (code : string).      (* a rejected Prisma call *)

(** A computation reads and writes the store and either returns or throws;
    writes made before a throw stay, as they do outside a transaction. *)
Definition DB (A : Type) : Type := Store -> (Exn + A) * Store.

Definition ret {A} (a : A) : DB A := fun s => (inr a, s).

Definition throw {A} (e : Exn) : DB A := fun s => (inl e, s).

Definition bind {A B} (m : DB A) (k : A -> DB B) : DB B :=
  fun s => match m s with
           | (inr a, s') => k a s'
           | (inl e, s') => (inl e, s')
           end.

Notation "x <- m ;; k" := (bind m (fun x => k))
  (at level 61, m at next level, right associativity).
Notation "m ;;; k" := (bind m (fun _ => k))
  (at level 61, right associativity).

(** [try { body } catch (error) { handler }] *)
Definition try_catch {A} (body : DB A) (handler : Exn -> DB A) : DB A :=
  fun s => match body s with
           | (inr a, s') => (inr a, s')
           | (inl e, s') => handler e s'
           end.

(** [prisma.$transaction(async (tx) => body)]: the writes of [body] are
    committed together when it returns and dropped when it throws. *)
Definition transaction {A} (body : DB A) : DB A :=
  fun s => match body s with
           | (inr a, s') => (inr a, s')
           | (inl e, _) => (inl e, s)
           end.

(** [for (const x of xs) { await f(x) }] *)
Fixpoint for_each {A} (f : A -> DB unit) (xs : list A) : DB unit :=
  match xs with
  | [] => ret tt
  | x :: xs' => f x ;;; for_each f xs'
  end.

(** ** Array and string helpers of the JavaScript runtime *)

(** [Array.prototype.includes] on an array of strings. *)
Definition includes (xs : list string) (x : string) : bool :=
  existsb (String.eqb x) xs.

(** [String.prototype.includes]. *)
Fixpoint str_includes (s sub : string) : bool :=
  String.prefix sub s ||
  match s with
  | EmptyString => false
  | String _ s' => str_includes s' sub
  end.

(** [String.prototype.slice(-2)]: the last two characters, or the whole
    string when it is shorter. *)
Definition slice_last2 (s : string) : string :=
  String.substring (String.length s - 2) 2 s.

(** [Number.prototype.toString()] on an integer. *)
Definition toString (n : Z) : string :=
  NilZero.string_of_int (Z.to_int n).

(** JavaScript truthiness of an optional string and [a || b] on it. *)
Definition str_or (a : option string) (b : string) : string :=
  match a with
  | Some x => if String.eqb x "" then b else x
  | None => b
  end.

(** [orderBy: { key: 'asc' }]: a stable sort on an integer key. *)
Fixpoint insertBy {A} (key : A -> Z) (x : A) (l : list A) : list A :=
  match l with
  | [] => [x]
  | y :: l' => if key x <=? key y then x :: l else y :: insertBy key x l'
  end.

Definition orderBy {A} (key : A -> Z) (l : list A) : list A :=
  fold_right (insertBy key) [] l.

(** ** Prisma calls used by the routes *)

(** [where: { id, expiresAt: { gt: now } }]; the filter on [expiresAt] is
    absent when [liveAt] is [None]. *)
Definition event_where (eventId : string) (liveAt : option Time) (e : Event.t) : bool :=
  String.eqb (Event.id e) eventId &&
  match liveAt with
  | Some now => now <? Event.expiresAt e
  | None => true
  end.

Definition event_findUnique (eventId : string) (liveAt : option Time)
  : DB (option Event.t) :=
  fun s => (inr (find (event_where eventId liveAt) (events s)), s).

(** The rows a relation field of an event selects. *)
Definition participantsOf (eventId : string) (s : Store) : list Participant.t :=
  filter (fun p => String.eqb (Participant.eventId p) eventId) (participants s).

Definition recommendationsOf (eventId : string) (s : Store) : list Recommendation.t :=
  filter (fun r => String.eqb (Recommendation.eventId r) eventId) (recommendations s).

Definition votesOfRecommendation (recommendationId : Z) (s : Store) : list Vote.t :=
  filter (fun v => Vote.recommendationId v =? recommendationId) (votes s).

(** [include: { finalLocation: true }]: the row a recommendation key
    refers to. *)
Definition recommendationById (recommendationId : Z) (s : Store)
  : option Recommendation.t :=
  find (fun r => Recommendation.id r =? recommendationId) (recommendations s).

Definition include_participants (eventId : string) (ordered : bool)
  : DB (list Participant.t) :=
  fun s => let ps := participantsOf eventId s in
           (inr (if ordered then orderBy Participant.joinedAt ps else ps), s).

Definition include_recommendations (eventId : string) : DB (list Recommendation.t) :=
  fun s => (inr (orderBy Recommendation.rank (recommendationsOf eventId s)), s).

(** The [data] of [event.update]: the fields it names. *)
Record EventData := mkEventData {
  d_status : option EventStatus;
  d_votingStartedAt : option Time;
  d_votingEndedAt : option Time;
  d_finalLocationId : option Z;
  d_updatedAt : option Time
}.

Definition noData : EventData := mkEventData None None None None None.

Definition or_else {A} (o : option A) (a : A) : A :=
  match o with Some x => x | None => a end.

Definition some_or {A} (o : option A) (old : option A) : option A :=
  match o with Some x => Some x | None => old end.

Definition applyData (d : EventData) (e : Event.t) : Event.t :=
  Event.mk (Event.id e) (Event.shortCode e) (Event.title e) (Event.purpose e)
    (Event.eventTime e) (Event.specialRequirements e)
    (or_else (d_status d) (Event.status e))
    (Event.expectedParticipants e)
    (some_or (d_votingStartedAt d) (Event.votingStartedAt e))
    (some_or (d_votingEndedAt d) (Event.votingEndedAt e))
    (some_or (d_finalLocationId d) (Event.finalLocationId e))
    (Event.createdAt e)
    (or_else (d_updatedAt d) (Event.updatedAt e))
    (Event.expiresAt e).

Definition set_events (es : list Event.t) (s : Store) : Store :=
  mkStore es (participants s) (recommendations s) (votes s)
    (nextParticipantId s) (nextRecommendationId s) (nextVoteId s).

(** [prisma.event.update({ where: { id }, data })] rejects when no row has
    the id. *)
Definition updateWhere (eventId : string) (d : EventData) (es : list Event.t)
  : list Event.t :=
  map (fun e => if String.eqb (Event.id e) eventId then applyData d e else e) es.

Definition event_update (eventId : string) (d : EventData) : DB Event.t :=
  fun s =>
    match find (event_where eventId None) (events s) with
    | None => (inl (PrismaError "P2025"), s)
    | Some e => (inr (applyData d e), set_events (updateWhere eventId d (events s)) s)
    end.

(** [prisma.participant.create]: the key and [joinedAt] are column
    defaults. *)
Definition participant_create (now : Time) (eventId nickname address : string)
  (isCreator : bool) : DB Participant.t :=
  fun s =>
    let p := Participant.mk (nextParticipantId s) eventId nickname address
               isCreator now in
    (inr p,
     mkStore (events s) (participants s ++ [p]) (recommendations s) (votes s)
       (nextParticipantId s + 1) (nextRecommendationId s) (nextVoteId s)).

(** The [data] of [recommendation.create]. *)
Record RecommendationData := mkRecommendationData {
  rd_eventId : string;
  rd_locationName : string;
  rd_locationType : string;
  rd_description : string;
  rd_fairnessAnalysis : string;
  rd_suitabilityScore : Decimal;
  rd_rank : Z;
  rd_facilities : list string;
  rd_distances : list DistanceInfo
}.

(** The row [recommendation.create] inserts: the key and [generatedAt] are
    column defaults. *)
Definition recommendationRow (now : Time) (key : Z) (d : RecommendationData)
  : Recommendation.t :=
  Recommendation.mk key (rd_eventId d) (rd_locationName d) (rd_locationType d)
    (rd_description d) (rd_fairnessAnalysis d) (rd_suitabilityScore d)
    (rd_rank d) (rd_facilities d) (rd_distances d) now.

Definition recommendation_create (now : Time) (d : RecommendationData) : DB unit :=
  fun s =>
    let r := recommendationRow now (nextRecommendationId s) d in
    (inr tt,
     mkStore (events s) (participants s) (recommendations s ++ [r]) (votes s)
       (nextParticipantId s) (nextRecommendationId s + 1) (nextVoteId s)).

(** Modelled from the spec: the Prisma schema with the relations and their
    delete rules is not among the sources.  Section 3 of the specification
    has the votes that reference a deleted recommendation deleted with it. *)
Definition recommendation_deleteMany (eventId : string) : DB unit :=
  fun s =>
    let gone := map Recommendation.id (recommendationsOf eventId s) in
    (inr tt,
     mkStore (events s) (participants s)
       (filter (fun r => negb (String.eqb (Recommendation.eventId r) eventId))
          (recommendations s))
       (filter (fun v => negb (existsb (Z.eqb (Vote.recommendationId v)) gone))
          (votes s))
       (nextParticipantId s) (nextRecommendationId s) (nextVoteId s)).

Definition recommendation_findFirst (recommendationId : Z) (eventId : string)
  : DB (option Recommendation.t) :=
  fun s =>
    (inr (find (fun r => (Recommendation.id r =? recommendationId) &&
                         String.eqb (Recommendation.eventId r) eventId)
            (recommendations s)), s).

(** [vote.findFirst]: [recommendationId] is part of the filter in the
    DELETE route only. *)
Definition vote_where (recommendationId : option Z) (eventId nickname : string)
  (v : Vote.t) : bool :=
  match recommendationId with
  | Some r => Vote.recommendationId v =? r
  | None => true
  end &&
  String.eqb (Vote.eventId v) eventId &&
  String.eqb (Vote.voterNickname v) nickname.

Definition vote_findFirst (recommendationId : option Z) (eventId nickname : string)
  : DB (option Vote.t) :=
  fun s => (inr (find (vote_where recommendationId eventId nickname) (votes s)), s).

Definition set_votes (vs : list Vote.t) (next : Z) (s : Store) : Store :=
  mkStore (events s) (participants s) (recommendations s) vs
    (nextParticipantId s) (nextRecommendationId s) next.

(** [vote.delete({ where: { id } })] rejects when no row has the id. *)
Definition vote_delete (voteId : Z) : DB unit :=
  fun s =>
    if existsb (fun v => Vote.id v =? voteId) (votes s)
    then (inr tt,
          set_votes (filter (fun v => negb (Vote.id v =? voteId)) (votes s))
            (nextVoteId s) s)
    else (inl (PrismaError "P2025"), s).

Definition vote_create (now : Time) (recommendationId : Z)
  (eventId nickname : string) : DB Vote.t :=
  fun s =>
    let v := Vote.mk (nextVoteId s) recommendationId eventId nickname now in
    (inr v, set_votes (votes s ++ [v]) (nextVoteId s + 1) s).

Definition vote_findMany (recommendationId : Z) : DB (list Vote.t) :=
  fun s => (inr (votesOfRecommendation recommendationId s), s).

(** ** [src/lib/utils.ts]: nickname assignment *)

Definition maxAttempts : nat := 90.

(** Iterations the do-while loop has left once [attempts] have been made:
    the measure the loop decreases. *)
Definition remaining (attempts : nat) : nat := (S maxAttempts - attempts)%nat.
Arguments remaining : simpl never.

Definition inspect {A} (a : A) : {b | a = b} := exist _ a eq_refl.

Section GenerateUniqueNickname.
(** [random k] is the value of [Math.floor(Math.random() * 90)] at the
    [k]-th turn of the loop (counted from 0), [dateNow] the value of
    [Date.now()]. *)
Variable random : nat -> Z.
Variable dateNow : Z.
Variable baseNickname : string.
Variable existingNicknames : list string.

(** [`${baseNickname}_${suffix}`] with [suffix] drawn at turn [attempts]. *)
Definition candidate (attempts : nat) : string :=
  (baseNickname ++ "_" ++ toString (random attempts + 10))%string.

(** [`${baseNickname}_${Date.now().toString().slice(-2)}`] *)
Definition timestampName : string :=
  (baseNickname ++ "_" ++ slice_last2 (toString dateNow))%string.

(** The do-while loop, entered with [attempts] turns already made; a turn
    draws its candidate, increments the counter, and tests the counter
    before the loop condition. *)
Equations? retryLoop (attempts : nat) : string by wf (remaining attempts) lt :=
  retryLoop attempts with inspect (maxAttempts <? S attempts)%nat := {
    | exist _ true _ => timestampName
    | exist _ false H =>
        if includes existingNicknames (candidate attempts)
        then retryLoop (S attempts)
        else candidate attempts }.
Proof.
  apply Nat.ltb_ge in H. unfold remaining, maxAttempts in *. lia.
Qed.

Definition generateUniqueNickname : string :=
  if negb (includes existingNicknames baseNickname)
  then baseNickname
  else retryLoop 0.
End GenerateUniqueNickname.

(** ** [src/lib/validations.ts] *)

Definition length_between (lo hi : nat) (s : string) : bool :=
  (lo <=? String.length s)%nat && (String.length s <=? hi)%nat.

Record JoinBody := mkJoinBody { jb_nickname : string; jb_address : string }.

Definition joinEventSchema (b : JoinBody) : bool :=
  length_between 1 20 (jb_nickname b) && length_between 2 200 (jb_address b).

(** [voteSchema], and the nickname field of the retry and finalize
    schemas: a string of 1 to 20 characters. *)
Definition nicknameSchema (nickname : string) : bool :=
  length_between 1 20 nickname.

(** [recommendationIdSchema] applied to the route parameter; [parsed] is
    the value of [parseInt(val, 10)], [None] for [NaN]. *)
Definition recommendationIdSchema (parsed : option Z) : option Z :=
  match parsed with
  | Some num => if num <=? 0 then None else Some num
  | None => None
  end.

(** [z.number().int().positive()] of the finalize schema. *)
Definition positiveSchema (n : Z) : bool := 0 <? n.

(** [canTransitionTo] *)
Definition canTransitionTo (current next : EventStatus) : bool :=
  match current, next with
  | WAITING, (READY | EXPIRED) => true
  | READY, (VOTING | EXPIRED) => true
  | VOTING, (FINALIZED | EXPIRED) => true
  | FINALIZED, EXPIRED => true
  | _, _ => false
  end.

(** ** [src/lib/llm.ts]: the recommendation generator *)

Module LLM.
Record Request := mkRequest {
    title : string;
    purpose : string;
    eventTime : option Time;
    specialRequirements : option string;
    participants : list (string * string)     (* nickname, address *)
  }.

Record Item := mkItem {
    rank : Z;
    name : string;
    type : string;
    description : string;
    fairness_analysis : string;
    coordinates : Decimal * Decimal;
    distances : list DistanceInfo;
    facilities : list string;
    suitability_score : Decimal
  }.

Record Response := mkResponse {
    analysis : option string;
    recommendations : option (list Item);
    error : option bool;
    error_code : option string;
    error_message : option string;
    suggestions : option string
  }.
End LLM.

Definition getFallbackRecommendations : LLM.Response :=
  LLM.mkResponse
    (Some "The AI service is unavailable right now. Here are general centrally located ideas to help you keep planning.")
    (Some
       [ LLM.mkItem 1 "Downtown shopping district" "Commercial area"
           "Transit-friendly area with lots of dining options."
           "Being at the city center keeps travel times similar for most participants."
           ("39.9042", "116.4074")
           [mkDistanceInfo "All participants" "About 15-30 minutes" "Public transit"
              None None None]
           ["Near subway"; "Many restaurants"; "Parking available"] "7.0";
         LLM.mkItem 2 "Large indoor mall" "Shopping mall"
           "Climate-controlled space with plenty of seating and food."
           "Big malls are typically close to major roads and bus lines, keeping access fair."
           ("31.2304", "121.4737")
           [mkDistanceInfo "All participants" "About 20-40 minutes"
              "Multiple transport options" None None None]
           ["Indoor environment"; "Easy parking"; "Many choices"] "6.5";
         LLM.mkItem 3 "Transit hub area" "Transit hub"
           "Highest accessibility with express connections."
           "Transit hubs offer the fairest travel time since they connect every direction."
           ("30.5728", "104.0668")
           [mkDistanceInfo "All participants" "About 10-25 minutes" "Public transit"
              None None None]
           ["Easy transfers"; "Links multiple districts"; "Shops nearby"] "6.0" ])
    None None None None.

(** What an awaited call yields: a value, or the exception it rejects
    with. *)
Definition Awaited (A : Type) : Type := (Exn + A)%type.

Section LLMService.
(** The key read from the environment and the model call of the AI SDK
    ([generateObject] with the response schema). *)
Variable apiKey : string.
Variable generateObject : LLM.Request -> Awaited LLM.Response.

(** The body of the [try] block. *)
Definition callModel (request : LLM.Request) : Awaited LLM.Response :=
  match generateObject request with
  | inl e => inl e
  | inr response =>
      if or_else (LLM.error response) false
      then inl (JsError (str_or (LLM.error_code response) "LLM_ERROR"))
      else
        match LLM.recommendations response with
        | None | Some [] => inl (JsError "NO_RESULTS")
        | Some recs =>
            inr (LLM.mkResponse
                   (Some (str_or (LLM.analysis response)
                            "Recommendations derived from participant distribution."))
                   (Some recs) None None None None)
        end
  end.

(** The errors the [catch] block rethrows; every other one is answered
    with the fallback set. *)
Definition rethrown (e : Exn) : bool :=
  match e with
  | JsError message =>
      String.eqb message "NO_API_KEY" ||
      str_includes message "INVALID_ADDRESSES" ||
      String.eqb message "NO_RESULTS"
  | PrismaError _ => false
  end.

Definition generateRecommendations (request : LLM.Request)
  : Awaited LLM.Response :=
  if String.eqb apiKey ""
  then inl (JsError "NO_API_KEY")
  else
    match callModel request with
    | inr response => inr response
    | inl e => if rethrown e then inl e else inr getFallbackRecommendations
    end.
End LLMService.

(** ** Responses of the routes *)

Inductive ErrorCode :=
| VALIDATION_ERROR | EVENT_NOT_FOUND | EVENT_FULL | NETWORK_ERROR
| EVENT_NOT_READY | PARTICIPANTS_NOT_COMPLETE | NOT_AUTHORIZED | LLM_ERROR
| VOTING_NOT_STARTED | NOT_PARTICIPANT | ALREADY_VOTED | VOTING_ENDED.

(** [{ success: true, data }] with status 200, or
    [{ success: false, error }] with the given status. *)
Inductive Response (A : Type) :=
| Success (data : A)
| Failure (error : ErrorCode) (httpStatus : Z).
Arguments Success {A} data.
Arguments Failure {A} error httpStatus.

(** A route body inside [try { ... } catch { return onThrow }]. *)
Definition handler {A} (body : DB A) (onThrow : A) (s : Store) : A * Store :=
  match body s with
  | (inr a, s') => (a, s')
  | (inl _, s') => (onThrow, s')
  end.

(** [x || undefined] on an optional string. *)
Definition str_or_undefined (a : option string) : option string :=
  match a with
  | Some x => if String.eqb x "" then None else Some x
  | None => None
  end.

Definition llmRequestOf (e : Event.t) (ps : list Participant.t) : LLM.Request :=
  LLM.mkRequest (Event.title e) (str_or (Event.purpose e) "other")
    (Event.eventTime e) (str_or_undefined (Event.specialRequirements e))
    (map (fun p => (Participant.nickname p, Participant.address p)) ps).

Definition recommendationData (eventId : string) (rec : LLM.Item)
  : RecommendationData :=
  mkRecommendationData eventId (LLM.name rec) (LLM.type rec)
    (LLM.description rec) (LLM.fairness_analysis rec)
    (LLM.suitability_score rec) (LLM.rank rec) (LLM.facilities rec)
    (LLM.distances rec).

Definition votingStarted (now : Time) : EventData :=
  mkEventData (Some VOTING) (Some now) None None None.

(** ** [src/app/api/events/[id]/participants/route.ts] *)

Module ParticipantsRoute.

Record ParticipantView := mkView {
  id : Z;
  nickname : string;
  address : string;
  is_creator : bool;
  joined_at : Time
}.

Definition view (p : Participant.t) : ParticipantView :=
  mkView (Participant.id p) (Participant.nickname p) (Participant.address p)
    (Participant.isCreator p) (Participant.joinedAt p).

Record JoinData := mkJoinData {
  participant : ParticipantView;
  participant_count : Z;
  should_generate_recommendations : bool;
  nickname_modified : bool;
  original_nickname : option string;
  assigned_nickname : string
}.

(** The work handed to [Promise.resolve().then(...)]: it closes over the
    event id and the request built for the generator. *)
Record GenerationTask := mkTask {
  task_eventId : string;
  task_llmRequest : LLM.Request
}.

Section Join.
Variable now : Time.                (* [new Date()] *)
Variable random : nat -> Z.         (* see [generateUniqueNickname] *)
Variable dateNow : Z.

(** The block guarded by [newParticipantCount === expectedParticipants]:
    the READY transition, then the generator request when the event read
    back has at least two participants. *)
Definition reachReady (eventId : string) : DB (option GenerationTask) :=
  event_update eventId (mkEventData (Some READY) None None None None) ;;;
  fullEvent <- event_findUnique eventId None ;;
  match fullEvent with
  | Some fullEvent =>
      ps <- include_participants eventId true ;;
      if 2 <=? Z.of_nat (length ps)
      then ret (Some (mkTask eventId (llmRequestOf fullEvent ps)))
      else ret None
  | None => ret None
  end.

Definition POST_body (eventId : string) (body : JoinBody)
  : DB (Response JoinData * option GenerationTask) :=
  if negb (joinEventSchema body) then ret (Failure VALIDATION_ERROR 400, None)
  else
    let nickname := jb_nickname body in
    let address := jb_address body in
    event <- event_findUnique eventId (Some now) ;;
    match event with
    | None => ret (Failure EVENT_NOT_FOUND 404, None)
    | Some event =>
        ps <- include_participants eventId false ;;
        if negb (EventStatus_eqb (Event.status event) WAITING)
        then ret (Failure EVENT_FULL 403, None)
        else if Event.expectedParticipants event <=? Z.of_nat (length ps)
        then ret (Failure EVENT_FULL 403, None)
        else
          let existingNicknames := map Participant.nickname ps in
          let originalNickname := nickname in
          let assignedNickname :=
            generateUniqueNickname random dateNow nickname existingNicknames in
          let wasModified := negb (String.eqb originalNickname assignedNickname) in
          participant <- participant_create now eventId assignedNickname address false ;;
          let newParticipantCount := Z.of_nat (length ps) + 1 in
          task <- (if newParticipantCount =? Event.expectedParticipants event
                   then reachReady eventId
                   else ret None) ;;
          ret (Success
                 (mkJoinData (view participant) newParticipantCount
                    (newParticipantCount =? Event.expectedParticipants event)
                    wasModified
                    (if wasModified then Some originalNickname else None)
                    assignedNickname),
               task)
    end.

(** The response of the join request, the task it left on the queue, and
    the store as the request leaves it. *)
Definition POST (eventId : string) (body : JoinBody) (s : Store)
  : (Response JoinData * option GenerationTask) * Store :=
  handler (POST_body eventId body) (Failure NETWORK_ERROR 500, None) s.
End Join.

Section Generation.
(** [llmService.generateRecommendations] and the clock of the task. *)
Variable llm : LLM.Request -> Awaited LLM.Response.
Variable now : Time.

(** The [try] block of the queued task. *)
Definition generate (task : GenerationTask) : DB unit :=
  match llm (task_llmRequest task) with
  | inl e => throw e
  | inr recommendations =>
      match LLM.recommendations recommendations with
      | Some ((_ :: _) as recs) =>
          let recommendationData :=
            map (recommendationData (task_eventId task)) recs in
          transaction
            (for_each (recommendation_create now) recommendationData ;;;
             event_update (task_eventId task) (votingStarted now) ;;;
             ret tt)
      | _ => ret tt
      end
  end.

(** The [catch] block of the queued task. *)
Definition signalError (task : GenerationTask) : DB unit :=
  event_update (task_eventId task) (mkEventData None None None None (Some now)) ;;;
  ret tt.

(** The queued task run to its end; a rejection of the promise itself goes
    nowhere. *)
Definition runGenerationTask (task : GenerationTask) (s : Store) : Store :=
  snd (try_catch (generate task) (fun _ => signalError task) s).
End Generation.

(** A join request followed by the task it queued, if any. *)
Definition joinThenGenerate (llm : LLM.Request -> Awaited LLM.Response)
  (now : Time) (random : nat -> Z) (dateNow : Z) (later : Time)
  (eventId : string) (body : JoinBody) (s : Store)
  : Response JoinData * Store :=
  let '((response, task), s1) := POST now random dateNow eventId body s in
  (response,
   match task with
   | Some t => runGenerationTask llm later t s1
   | None => s1
   end).

(** [GET]: the relation filter keeps the rows whose event is live. *)
Definition GET (now : Time) (eventId : string) (s : Store)
  : Response (list ParticipantView) * Store :=
  handler
    (fun s =>
       (inr (Success
               (map view
                  (orderBy Participant.joinedAt
                     (filter
                        (fun p => existsb
                                    (event_where (Participant.eventId p) (Some now))
                                    (events s))
                        (participantsOf eventId s))))), s))
    (Failure NETWORK_ERROR 500) s.

End ParticipantsRoute.

(** ** [src/app/api/events/[id]/retry/route.ts] *)

Module RetryRoute.

Record RetryData := mkRetryData { message : string; status : EventStatus }.

Section Retry.
Variable llm : LLM.Request -> Awaited LLM.Response.
Variable now : Time.

(** The transaction of the retry route. *)
Definition persist (eventId : string) (recs : list LLM.Item) : DB unit :=
  transaction
    (recommendation_deleteMany eventId ;;;
     for_each (recommendation_create now) (map (recommendationData eventId) recs) ;;;
     event_update eventId (votingStarted now) ;;;
     ret tt).

(** The route from the generator call on, once the checks have passed. *)
Definition regenerate (eventId : string) (event : Event.t)
  (ps : list Participant.t) : DB (Response RetryData) :=
  match llm (llmRequestOf event ps) with
  | inl e => throw e
  | inr recommendations =>
      match LLM.recommendations recommendations with
      | Some ((_ :: _) as recs) =>
          persist eventId recs ;;;
          ret (Success (mkRetryData "Recommendations generated successfully" VOTING))
      | _ => throw (JsError "No recommendations generated")
      end
  end.

(** [body] is the parsed request body: the [creatorNickname] string, or
    [None] when the body is not an object with that string field. *)
Definition POST_body (eventId : string) (body : option string)
  : DB (Response RetryData) :=
  match body with
  | None => ret (Failure VALIDATION_ERROR 400)
  | Some creatorNickname =>
      if negb (nicknameSchema creatorNickname)
      then ret (Failure VALIDATION_ERROR 400)
      else
        event <- event_findUnique eventId (Some now) ;;
        match event with
        | None => ret (Failure EVENT_NOT_FOUND 404)
        | Some event =>
            ps <- include_participants eventId true ;;
            if negb (EventStatus_eqb (Event.status event) READY)
            then ret (Failure EVENT_NOT_READY 400)
            else if negb (Z.of_nat (length ps) =? Event.expectedParticipants event)
            then ret (Failure PARTICIPANTS_NOT_COMPLETE 400)
            else
              match find Participant.isCreator ps with
              | None => ret (Failure NOT_AUTHORIZED 403)
              | Some creator =>
                  if negb (String.eqb (Participant.nickname creator) creatorNickname)
                  then ret (Failure NOT_AUTHORIZED 403)
                  else regenerate eventId event ps
              end
        end
  end.

Definition POST (eventId : string) (body : option string) (s : Store)
  : Response RetryData * Store :=
  handler (POST_body eventId body) (Failure LLM_ERROR 503) s.
End Retry.

End RetryRoute.

(** ** The vote route ([POST] and [DELETE] on one recommendation) *)

Module VoteRoute.

Record VoteTally := mkTally {
  voteCount : Z;
  voters : list string;
  hasCurrentUserVoted : bool
}.

(** The summary both handlers end with. *)
Definition summary (recommendationId : Z) (nickname : string)
  : DB (Response VoteTally) :=
  votes <- vote_findMany recommendationId ;;
  let voters := map Vote.voterNickname votes in
  let hasCurrentUserVoted := includes voters nickname in
  ret (Success (mkTally (Z.of_nat (length votes)) voters hasCurrentUserVoted)).

(** The checks shared by both handlers once the body and the route
    parameter are validated; [k] is what follows them. *)
Definition guarded {A} (now : Time) (eventId nickname : string)
  (k : DB (Response A)) : DB (Response A) :=
  event <- event_findUnique eventId (Some now) ;;
  match event with
  | None => ret (Failure EVENT_NOT_FOUND 404)
  | Some event =>
      ps <- include_participants eventId false ;;
      if negb (EventStatus_eqb (Event.status event) VOTING)
      then ret (Failure VOTING_NOT_STARTED 403)
      else
        let isParticipant :=
          existsb (fun p => String.eqb (Participant.nickname p) nickname) ps in
        if negb isParticipant
        then ret (Failure NOT_PARTICIPANT 403)
        else k
  end.

Section Transaction.
(** [tx.vote.create] of the client the transaction hands to its callback:
    [vote_create] when the database takes the row, and a call that throws
    when the database rejects the insert. *)
Variable create : Time -> Z -> string -> string -> DB Vote.t.

(** The callback of the transaction in [POST]: [(alreadyVoted, vote)]. *)
Definition castVoteWith (now : Time) (eventId : string) (recommendationId : Z)
  (nickname : string) : DB (bool * Vote.t) :=
  existingVote <- vote_findFirst None eventId nickname ;;
  match existingVote with
  | Some existingVote =>
      if Vote.recommendationId existingVote =? recommendationId
      then ret (true, existingVote)
      else
        vote_delete (Vote.id existingVote) ;;;
        vote <- create now recommendationId eventId nickname ;;
        ret (false, vote)
  | None =>
      vote <- create now recommendationId eventId nickname ;;
      ret (false, vote)
  end.

(** [nickname] is the body's field, [recIdParam] the parsed route
    parameter (see [recommendationIdSchema]). *)
Definition POST_bodyWith (now : Time) (eventId : string) (recIdParam : option Z)
  (nickname : string) : DB (Response VoteTally) :=
  if negb (nicknameSchema nickname) then ret (Failure VALIDATION_ERROR 400)
  else
    match recommendationIdSchema recIdParam with
    | None => ret (Failure VALIDATION_ERROR 400)
    | Some recommendationId =>
        guarded now eventId nickname
          (recommendation <- recommendation_findFirst recommendationId eventId ;;
           match recommendation with
           | None => ret (Failure EVENT_NOT_FOUND 404)
           | Some _ =>
               result <- transaction
                           (castVoteWith now eventId recommendationId nickname) ;;
               if fst result
               then ret (Failure ALREADY_VOTED 409)
               else summary recommendationId nickname
           end)
    end.

Definition POSTWith (now : Time) (eventId : string) (recIdParam : option Z)
  (nickname : string) (s : Store) : Response VoteTally * Store :=
  handler (POST_bodyWith now eventId recIdParam nickname)
    (Failure NETWORK_ERROR 500) s.
End Transaction.

(** The route on a database that takes the row. *)
Definition castVote : Time -> string -> Z -> string -> DB (bool * Vote.t) :=
  castVoteWith vote_create.

Definition POST_body : Time -> string -> option Z -> string -> DB (Response VoteTally) :=
  POST_bodyWith vote_create.

Definition POST (now : Time) (eventId : string) (recIdParam : option Z)
  (nickname : string) (s : Store) : Response VoteTally * Store :=
  handler (POST_body now eventId recIdParam nickname) (Failure NETWORK_ERROR 500) s.

Definition DELETE_body (now : Time) (eventId : string) (recIdParam : option Z)
  (nickname : string) : DB (Response VoteTally) :=
  if negb (nicknameSchema nickname) then ret (Failure VALIDATION_ERROR 400)
  else
    match recommendationIdSchema recIdParam with
    | None => ret (Failure VALIDATION_ERROR 400)
    | Some recommendationId =>
        guarded now eventId nickname
          (existingVote <- vote_findFirst (Some recommendationId) eventId nickname ;;
           match existingVote with
           | None => ret (Failure EVENT_NOT_FOUND 404)
           | Some existingVote =>
               vote_delete (Vote.id existingVote) ;;;
               summary recommendationId nickname
           end)
    end.

Definition DELETE (now : Time) (eventId : string) (recIdParam : option Z)
  (nickname : string) (s : Store) : Response VoteTally * Store :=
  handler (DELETE_body now eventId recIdParam nickname) (Failure NETWORK_ERROR 500) s.

End VoteRoute.

(** ** [src/app/api/events/[id]/votes/route.ts] *)

Module VotesRoute.

Record VoteSummary := mkSummary {
  recommendationId : Z;
  locationName : string;
  voteCount : Z;
  voters : list string;
  hasCurrentUserVoted : bool
}.

Record TallyData := mkTallyData {
  recommendations : list VoteSummary;
  totalVotes : Z;
  participantCount : Z
}.

Definition summarize (currentUserNickname : option string) (s : Store)
  (rec : Recommendation.t) : VoteSummary :=
  let voters :=
    map Vote.voterNickname (votesOfRecommendation (Recommendation.id rec) s) in
  let hasCurrentUserVoted :=
    match str_or_undefined currentUserNickname with
    | Some nickname => includes voters nickname
    | None => false
    end in
  mkSummary (Recommendation.id rec)
    (str_or (Some (Recommendation.locationName rec)) "Unknown Location")
    (Z.of_nat (length (votesOfRecommendation (Recommendation.id rec) s)))
    voters hasCurrentUserVoted.

Definition GET_body (now : Time) (eventId : string)
  (currentUserNickname : option string) : DB (Response TallyData) :=
  event <- event_findUnique eventId (Some now) ;;
  match event with
  | None => ret (Failure EVENT_NOT_FOUND 404)
  | Some event =>
      ps <- include_participants eventId false ;;
      recs <- include_recommendations eventId ;;
      fun s =>
        let recommendations := map (summarize currentUserNickname s) recs in
        let totalVotes :=
          fold_left (fun sum rec => sum + voteCount rec) recommendations 0 in
        ret (Success (mkTallyData recommendations totalVotes (Z.of_nat (length ps)))) s
  end.

Definition GET (now : Time) (eventId : string)
  (currentUserNickname : option string) (s : Store) : Response TallyData * Store :=
  handler (GET_body now eventId currentUserNickname) (Failure NETWORK_ERROR 500) s.

End VotesRoute.

(** ** [src/app/api/events/[id]/finalize/route.ts] and the event route *)

Module FinalizeRoute.

Record FinalizeData := mkFinalizeData {
  finalLocation : Recommendation.t;
  votingEndedAt : option Time;
  status : EventStatus
}.

Definition POST_body (now : Time) (eventId : string) (finalLocationId : Z)
  (creatorNickname : string) : DB (Response FinalizeData) :=
  if negb (positiveSchema finalLocationId && nicknameSchema creatorNickname)
  then ret (Failure VALIDATION_ERROR 400)
  else
    event <- event_findUnique eventId (Some now) ;;
    match event with
    | None => ret (Failure EVENT_NOT_FOUND 404)
    | Some event =>
        ps <- include_participants eventId false ;;
        recs <- (fun s => (inr (filter (fun r => Recommendation.id r =? finalLocationId)
                                  (recommendationsOf eventId s)), s)) ;;
        if negb (EventStatus_eqb (Event.status event) VOTING)
        then ret (Failure VOTING_ENDED 403)
        else
          match filter Participant.isCreator ps with
          | [] => ret (Failure NOT_PARTICIPANT 403)
          | creator :: _ =>
              if negb (String.eqb (Participant.nickname creator) creatorNickname)
              then ret (Failure NOT_PARTICIPANT 403)
              else
                match recs with
                | [] => ret (Failure EVENT_NOT_FOUND 404)
                | _ :: _ =>
                    updatedEvent <-
                      event_update eventId
                        (mkEventData (Some FINALIZED) None (Some now)
                           (Some finalLocationId) None) ;;
                    fun s =>
                      match recommendationById finalLocationId s with
                      | Some finalLocation =>
                          ret (Success
                                 (mkFinalizeData finalLocation
                                    (Event.votingEndedAt updatedEvent)
                                    (Event.status updatedEvent))) s
                      | None => throw (JsError "TypeError") s
                      end
                end
          end
    end.

Definition POST (now : Time) (eventId : string) (finalLocationId : Z)
  (creatorNickname : string) (s : Store) : Response FinalizeData * Store :=
  handler (POST_body now eventId finalLocationId creatorNickname)
    (Failure NETWORK_ERROR 500) s.

End FinalizeRoute.

Module EventRoute.

Record EventDetail := mkDetail {
  event : Event.t;
  participants : list Participant.t;
  recommendations : list Recommendation.t;
  finalLocation : option Recommendation.t
}.

Definition GET_body (now : Time) (eventId : string) : DB (Response EventDetail) :=
  event <- event_findUnique eventId (Some now) ;;
  match event with
  | None => ret (Failure EVENT_NOT_FOUND 404)
  | Some event =>
      ps <- include_participants eventId true ;;
      recs <- include_recommendations eventId ;;
      fun s =>
        let finalLocation :=
          match Event.finalLocationId event with
          | Some fid => recommendationById fid s
          | None => None
          end in
        ret (Success (mkDetail event ps recs finalLocation)) s
  end.

Definition GET (now : Time) (eventId : string) (s : Store)
  : Response EventDetail * Store :=
  handler (GET_body now eventId) (Failure NETWORK_ERROR 500) s.

End EventRoute.

(** ** The recommendations route *)

Module RecommendationsRoute.

(** [GET]: as for the participants, the relation filter keeps the rows
    whose event is live. *)
Definition GET (now : Time) (eventId : string) (s : Store)
  : Response (list Recommendation.t) * Store :=
  handler
    (fun s =>
       (inr (Success
               (orderBy Recommendation.rank
                  (filter
                     (fun r => existsb
                                 (event_where (Recommendation.eventId r) (Some now))
                                 (events s))
                     (recommendationsOf eventId s)))), s))
    (Failure NETWORK_ERROR 500) s.

End RecommendationsRoute.

(** ** Derived notions used in the statements *)

(** The rows a loop of [recommendation.create] calls appends, the first
    with key [key]. *)
Fixpoint recommendationRows (now : Time) (key : Z) (ds : list RecommendationData)
  : list Recommendation.t :=
  match ds with
  | [] => []
  | d :: ds' => recommendationRow now key d :: recommendationRows now (key + 1) ds'
  end.

(** The generator came back without a usable list: it threw, or it
    answered with no recommendations. *)
Definition generationFailed (r : Awaited LLM.Response) : Prop :=
  match r with
  | inl _ => True
  | inr response =>
      match LLM.recommendations response with
      | Some (_ :: _) => False
      | _ => True
      end
  end.

(** The live votes of one voter in one event. *)
Definition votesBy (eventId nickname : string) (s : Store) : list Vote.t :=
  filter (vote_where None eventId nickname) (votes s).

Definition atMostOneVote (s : Store) : Prop :=
  forall eventId nickname, (length (votesBy eventId nickname s) <= 1)%nat.

(** The store after a vote row is inserted, and after the row with a key
    is deleted. *)
Definition newVote (now : Time) (recommendationId : Z) (eventId nickname : string)
  (s : Store) : Vote.t :=
  Vote.mk (nextVoteId s) recommendationId eventId nickname now.

Definition voteAdded (v : Vote.t) (s : Store) : Store :=
  set_votes (votes s ++ [v]) (nextVoteId s + 1) s.

Definition voteRemoved (voteId : Z) (s : Store) : Store :=
  set_votes (filter (fun v => negb (Vote.id v =? voteId)) (votes s)) (nextVoteId s) s.

(** The tally of one recommendation as the store has it. *)
Definition tallyOf (recommendationId : Z) (nickname : string) (s : Store)
  : VoteRoute.VoteTally :=
  let votes := votesOfRecommendation recommendationId s in
  VoteRoute.mkTally (Z.of_nat (length votes)) (map Vote.voterNickname votes)
    (includes (map Vote.voterNickname votes) nickname).

(** Keys handed out so far lie below the next one. *)
Definition voteKeysFresh (s : Store) : Prop :=
  forall v, In v (votes s) -> Vote.id v < nextVoteId s.

(** Requests to the vote route, and the store after serving one. *)
Inductive VoteRequest :=
| CastVote (now : Time) (eventId : string) (recIdParam : option Z) (nickname : string)
| RemoveVote (now : Time) (eventId : string) (recIdParam : option Z) (nickname : string).

Definition serve (s : Store) (r : VoteRequest) : Store :=
  match r with
  | CastVote now eventId recIdParam nickname =>
      snd (VoteRoute.POST now eventId recIdParam nickname s)
  | RemoveVote now eventId recIdParam nickname =>
      snd (VoteRoute.DELETE now eventId recIdParam nickname s)
  end.

(** Every row of the event table with this id has expired. *)
Definition expired (eventId : string) (now : Time) (s : Store) : Prop :=
  forall e, In e (events s) -> Event.id e = eventId -> Event.expiresAt e <= now.

(** What an admitted join leaves behind: the row it inserts, the store
    with that row, and the data of its response. *)
Definition assignedNickname (random : nat -> Z) (dateNow : Z) (eventId : string)
  (body : JoinBody) (s : Store) : string :=
  generateUniqueNickname random dateNow (jb_nickname body)
    (map Participant.nickname (participantsOf eventId s)).

Definition newcomer (now : Time) (random : nat -> Z) (dateNow : Z)
  (eventId : string) (body : JoinBody) (s : Store) : Participant.t :=
  Participant.mk (nextParticipantId s) eventId
    (assignedNickname random dateNow eventId body s) (jb_address body) false now.

Definition withParticipant (p : Participant.t) (s : Store) : Store :=
  mkStore (events s) (participants s ++ [p]) (recommendations s) (votes s)
    (nextParticipantId s + 1) (nextRecommendationId s) (nextVoteId s).

Definition joinData (now : Time) (random : nat -> Z) (dateNow : Z)
  (eventId : string) (body : JoinBody) (event : Event.t) (s : Store)
  : ParticipantsRoute.JoinData :=
  let assigned := assignedNickname random dateNow eventId body s in
  let count := Z.of_nat (length (participantsOf eventId s)) + 1 in
  let modified := negb (String.eqb (jb_nickname body) assigned) in
  ParticipantsRoute.mkJoinData
    (ParticipantsRoute.view (newcomer now random dateNow eventId body s))
    count (count =? Event.expectedParticipants event) modified
    (if modified then Some (jb_nickname body) else None) assigned.

Definition nowReady : EventData := mkEventData (Some READY) None None None None.

(** A retry is accepted when it gets as far as the generator: it then
    succeeds or reports the failed generation. *)
Definition accepted (r : Response RetryRoute.RetryData) : Prop :=
  match r with
  | Success _ => True
  | Failure LLM_ERROR _ => True
  | Failure _ _ => False
  end.

(** [creator && creator.nickname === creatorNickname] for the first
    participant flagged as creator. *)
Definition isCreatorNickname (ps : list Participant.t) (creatorNickname : string)
  : bool :=
  match find Participant.isCreator ps with
  | Some creator => String.eqb (Participant.nickname creator) creatorNickname
  | None => false
  end.

(** The [data] of the update in the catch block of the queued task. *)
Definition touched (now : Time) : EventData :=
  mkEventData None None None None (Some now).


(** ** A worked scenario

    A lunch for two created by Alice at time 1000, expiring at 5000. *)

Definition lunch : Event.t :=
  Event.mk "evt00001" "ABC123" "Lunch" (Some "dining") None None WAITING 2
    None None None 1000 1000 5000.

Definition alice : Participant.t :=
  Participant.mk 1 "evt00001" "Alice" "Addr A" true 1000.

Definition created : Store := mkStore [lunch] [alice] [] [] 2 1 1.

(** A service whose model call fails in transit answers with the fallback
    set; one without a key throws. *)
Definition llmOffline : LLM.Request -> Awaited LLM.Response :=
  generateRecommendations "key" (fun _ => inl (JsError "fetch failed")).

Definition llmNoKey : LLM.Request -> Awaited LLM.Response :=
  generateRecommendations "" (fun _ => inl (JsError "fetch failed")).

Definition bob : JoinBody := mkJoinBody "Bob" "Addr B".

(** Bob joins at 2000 and fills the event; the task is left on the queue. *)
Definition bobJoined : Store :=
  snd (ParticipantsRoute.POST 2000 (fun _ => 5) 1730000000123 "evt00001" bob created).

Definition queued : ParticipantsRoute.GenerationTask :=
  ParticipantsRoute.mkTask "evt00001"
    (LLM.mkRequest "Lunch" "dining" None None
       [("Alice", "Addr A"); ("Bob", "Addr B")]).

(** Voting has started after the queued task ran at 2500. *)
Definition voting : Store :=
  ParticipantsRoute.runGenerationTask llmOffline 2500 queued bobJoined.

(** Bob votes for the second recommendation at 3000. *)
Definition bobVoted : Store :=
  snd (VoteRoute.POST 3000 "evt00001" (Some 2) "Bob" voting).

(** ** [src/app/api/events/route.ts]: creating an event *)

(** The message of a caught exception, as [error.message.includes] reads
    it; a violated unique constraint is Prisma error P2002. *)
Definition message_of (e : Exn) : string :=
  match e with
  | JsError message => message
  | PrismaError code =>
      if String.eqb code "P2002"
      then "Unique constraint failed on the fields"
      else "An operation failed because it depends on one or more records that were required but not found"
  end.

(** Modelled from the spec: the Prisma schema is not among the sources.
    Section 6 of the specification has [Event.id] and [Event.shortCode]
    unique, and the create route handles the violation.  The nested
    [participants: { create }] is written with the event, and the keys and
    timestamps left out of [data] are column defaults. *)
Definition event_create (now : Time) (eventId shortCode title : string)
  (purpose : string) (eventTime : option Time) (specialRequirements : option string)
  (expectedParticipants : Z) (expiresAt : Time) (nickname address : string)
  : DB Event.t :=
  fun s =>
    if existsb (fun e => String.eqb (Event.id e) eventId ||
                         String.eqb (Event.shortCode e) shortCode) (events s)
    then (inl (PrismaError "P2002"), s)
    else
      let e := Event.mk eventId shortCode title (Some purpose) eventTime
                 specialRequirements WAITING expectedParticipants None None None
                 now now expiresAt in
      let p := Participant.mk (nextParticipantId s) eventId nickname address
                 true now in
      (inr e,
       mkStore (events s ++ [e]) (participants s ++ [p]) (recommendations s)
         (votes s) (nextParticipantId s + 1) (nextRecommendationId s)
         (nextVoteId s)).

Module EventsRoute.

Record CreateBody := mkCreateBody {
  title : string;
  creatorNickname : string;
  creatorAddress : string;
  purpose : string;
  eventTime : option string;
  specialRequirements : option string;
  expectedParticipants : Z
}.

Record CreateEventResponse := mkCreated {
  event_id : string;
  short_code : string;
  url : string
}.

Section Create.
(** [Date.parse], [None] for [NaN]. *)
Variable dateParse : string -> option Time.

(** [createEventSchema]: the parsed data, the optional strings with their
    empty value turned into [undefined], or [None] when a field fails. *)
Definition createEventSchema (b : CreateBody) : option CreateBody :=
  let eventTime := str_or_undefined (eventTime b) in
  let specialRequirements := str_or_undefined (specialRequirements b) in
  if length_between 1 50 (title b) &&
     length_between 1 20 (creatorNickname b) &&
     length_between 2 200 (creatorAddress b) &&
     includes ["dining"; "coffee"; "meeting"; "other"] (purpose b) &&
     match eventTime with
     | Some val => match dateParse val with Some _ => true | None => false end
     | None => true
     end &&
     match specialRequirements with
     | Some val => (String.length val <=? 200)%nat
     | None => true
     end &&
     (2 <=? expectedParticipants b) && (expectedParticipants b <=? 50)
  then Some (mkCreateBody (title b) (creatorNickname b) (creatorAddress b)
               (purpose b) eventTime specialRequirements (expectedParticipants b))
  else None.

(** The clock, the two draws of [generateUniqueIds] and of
    [dateUtils.getExpiryDate] (the second ones for the retry in the catch
    block), and [process.env.NEXTAUTH_URL]. *)
Variable now : Time.
Variable ids : string * string.
Variable expiry : Time.
Variable ids' : string * string.
Variable expiry' : Time.
Variable baseUrl : option string.

(** [await request.json()] in the catch block.  The try block has read the
    body of the request, and the body of a [Request] is a stream that is
    read once: the second read rejects with a [TypeError]. *)
Definition requestJsonAgain : Awaited CreateBody :=
  inl (JsError "Body is unusable: Body has already been read").

Definition create (ids : string * string) (expiry : Time) (data : CreateBody)
  : DB (Response CreateEventResponse) :=
  event <- event_create now (fst ids) (snd ids) (title data) (purpose data)
             (match eventTime data with
              | Some val => dateParse val
              | None => None
              end)
             (specialRequirements data) (expectedParticipants data) expiry
             (creatorNickname data) (creatorAddress data) ;;
  ret (Success
         (mkCreated (Event.id event) (Event.shortCode event)
            (str_or baseUrl "http://localhost:3000" ++ "/event/" ++ Event.id event)%string)).

Definition POST_body (body : CreateBody) : DB (Response CreateEventResponse) :=
  match createEventSchema body with
  | None => ret (Failure VALIDATION_ERROR 400)
  | Some data => create ids expiry data
  end.

(** The catch block: one more attempt with new ids after a violated
    unique constraint, on the body read again. *)
Definition POST_catch (error : Exn) : DB (Response CreateEventResponse) :=
  if str_includes (message_of error) "Unique constraint"
  then
    try_catch
      (match requestJsonAgain with
       | inl e => throw e
       | inr body' =>
           match createEventSchema body' with
           | None => throw (JsError "ZodError")
           | Some data => create ids' expiry' data
           end
       end)
      (fun _ => ret (Failure NETWORK_ERROR 500))
  else ret (Failure NETWORK_ERROR 500).

Definition POST (body : CreateBody) (s : Store)
  : Response CreateEventResponse * Store :=
  handler (try_catch (POST_body body) POST_catch) (Failure NETWORK_ERROR 500) s.
End Create.

End EventsRoute.

(** ** The short-code route *)

(** [String.prototype.toUpperCase] on the characters of ASCII; the other
    characters are left as they are. *)
Definition upper (c : ascii) : ascii :=
  let n := nat_of_ascii c in
  if (97 <=? n)%nat && (n <=? 122)%nat then ascii_of_nat (n - 32) else c.

Fixpoint toUpperCase (s : string) : string :=
  match s with
  | EmptyString => EmptyString
  | String c s' => String (upper c) (toUpperCase s')
  end.

Module CodeRoute.

Record Found := mkFound {
  event_id : string;
  title : string;
  short_code : string
}.

Definition GET (now : Time) (shortCode : string) (s : Store)
  : Response Found * Store :=
  handler
    (let normalizedCode := toUpperCase shortCode in
     fun s =>
       match find (fun e => String.eqb (Event.shortCode e) normalizedCode &&
                            (now <? Event.expiresAt e)) (events s) with
       | None => ret (Failure EVENT_NOT_FOUND 404) s
       | Some event =>
           ret (Success (mkFound (Event.id event) (Event.title event)
                           (Event.shortCode event))) s
       end)
    (Failure NETWORK_ERROR 500) s.

End CodeRoute.

(** ** [dateUtils.formatRelativeTime] *)

(** [now] is the value of [new Date().getTime()], [date] that of
    [date.getTime()]. *)
Definition formatRelativeTime (now date : Time) : string :=
  let diffMs := now - date in
  let diffHours := diffMs / (1000 * 60 * 60) in
  let diffDays := diffHours / 24 in
  if 0 <? diffDays
  then if diffDays =? 1 then "1 day ago" else (toString diffDays ++ " days ago")%string
  else if 0 <? diffHours
  then if diffHours =? 1 then "1 hour ago" else (toString diffHours ++ " hours ago")%string
  else
    let diffMinutes := diffMs / (1000 * 60) in
    if diffMinutes <=? 0
    then "Just now"
    else if diffMinutes =? 1 then "1 minute ago"
         else (toString diffMinutes ++ " minutes ago")%string.

(** ** The event page: choosing the location to finalize *)

Module EventPage.

(** [votes.reduce((max, current) =>
      current.voteCount > max.voteCount ? current : max)]; without an
    initial value [reduce] throws on an empty array. *)
Definition winnerRecommendation (votes : list VotesRoute.VoteSummary)
  : Awaited VotesRoute.VoteSummary :=
  match votes with
  | [] => inl (JsError "Reduce of empty array with no initial value")
  | first :: rest =>
      inr (fold_left
             (fun max current =>
                if VotesRoute.voteCount max <? VotesRoute.voteCount current
                then current else max)
             rest first)
  end.

(** [handleFinalizeEvent] up to its request: the body it posts to the
    finalize route ([finalLocationId], [creatorNickname]), or nothing.
    [eventLoaded] is the truth of [event]. *)
Definition handleFinalizeEvent (userNickname : option string) (eventLoaded : bool)
  (votes : list VotesRoute.VoteSummary) : Awaited (option (Z * string)) :=
  match str_or_undefined userNickname with
  | None => inr None
  | Some userNickname =>
      if negb eventLoaded then inr None
      else
        match winnerRecommendation votes with
        | inl e => inl e
        | inr winner =>
            if VotesRoute.voteCount winner =? 0
            then inr None
            else inr (Some (VotesRoute.recommendationId winner, userNickname))
        end
  end.

(** [getVoteDataForRecommendation]: the count of the summary with the id,
    0 when there is none. *)
Definition voteCountFor (votes : list VotesRoute.VoteSummary) (recommendationId : Z)
  : Z :=
  match find (fun v => VotesRoute.recommendationId v =? recommendationId) votes with
  | Some summary => VotesRoute.voteCount summary
  | None => 0
  end.

(** [Math.max(...votes.map(v => v.voteCount), 0)] *)
Definition maxVotes (votes : list VotesRoute.VoteSummary) : Z :=
  fold_right Z.max 0 (map VotesRoute.voteCount votes).

(** The flag the page hands to the card of a recommendation. *)
Definition isWinner (votes : list VotesRoute.VoteSummary) (recommendationId : Z)
  : bool :=
  (0 <? voteCountFor votes recommendationId) &&
  (voteCountFor votes recommendationId =? maxVotes votes).

End EventPage.

(** ** Further notions used in the statements *)

(** Keys are unique in their table. *)
Definition uniqueRecommendationKeys (s : Store) : Prop :=
  NoDup (map Recommendation.id (recommendations s)).

Definition uniqueVoteKeys (s : Store) : Prop :=
  NoDup (map Vote.id (votes s)).

(** Every vote names a recommendation of its event and a participant of
    its event. *)
Definition votesReferToEvent (s : Store) : Prop :=
  forall v, In v (votes s) ->
    (exists r, In r (recommendations s) /\
               Recommendation.id r = Vote.recommendationId v /\
               Recommendation.eventId r = Vote.eventId v) /\
    (exists p, In p (participants s) /\
               Participant.eventId p = Vote.eventId v /\
               Participant.nickname p = Vote.voterNickname v).

(** The position of a status in the lifecycle. *)
Definition statusRank (st : EventStatus) : Z :=
  match st with
  | WAITING => 0
  | READY => 1
  | VOTING => 2
  | FINALIZED => 3
  | EXPIRED => 4
  end.

(** ["1 unit ago"] or ["n units ago"]. *)
Definition ago (n : Z) (unit : string) : string :=
  if n =? 1 then ("1 " ++ unit ++ " ago")%string
  else (toString n ++ " " ++ unit ++ "s ago")%string.

(** The number of vote rows that name one of the recommendations. *)
Definition votesAmong (recs : list Recommendation.t) (s : Store) : nat :=
  length (filter (fun v => existsb (Z.eqb (Vote.recommendationId v))
                             (map Recommendation.id recs)) (votes s)).

(** The step of the [reduce] in [winnerRecommendation]. *)
Definition keepMax (max current : VotesRoute.VoteSummary) : VotesRoute.VoteSummary :=
  if VotesRoute.voteCount max <? VotesRoute.voteCount current then current else max.

(** The [data] of the update of the finalize route. *)
Definition finalized (now : Time) (finalLocationId : Z) : EventData :=
  mkEventData (Some FINALIZED) None (Some now) (Some finalLocationId) None.

(** The scenario, continued: the recommendations the lunch got, and the
    lunch finalized by Alice at 3500 on the second of them. *)
Definition recommended (n : nat) : Recommendation.t :=
  nth n (recommendations voting)
    (recommendationRow 0 0 (mkRecommendationData "" "" "" "" "" "" 0 [] [])).

Definition finalizedLunch : Store :=
  snd (FinalizeRoute.POST 3500 "evt00001" 2 "Alice" bobVoted).

(** The live row of an event keeps its status, or takes a step that
    [canTransitionTo] allows. *)
Definition lifecycleStep (now : Time) (eventId : string) (s s' : Store) : Prop :=
  forall e, find (event_where eventId (Some now)) (events s) = Some e ->
  exists e', find (event_where eventId (Some now)) (events s') = Some e' /\
             (Event.status e' = Event.status e \/
              canTransitionTo (Event.status e) (Event.status e') = true).

(** The scenario, once more: Alice retries at 2200 while the task of Bob's
    join is still on the queue, and finalizes at 3500 on the first
    recommendation. *)
Definition retried : Store :=
  snd (RetryRoute.POST llmOffline 2200 "evt00001" (Some "Alice") bobJoined).

Definition closedEarly : Store :=
  snd (FinalizeRoute.POST 3500 "evt00001" 1 "Alice" retried).

(** No event has the id or the short code; some event has one of them. *)
Definition idsFresh (ids : string * string) (s : Store) : Prop :=
  forall e, In e (events s) ->
            Event.id e <> fst ids /\ Event.shortCode e <> snd ids.

Definition idsTaken (ids : string * string) (s : Store) : Prop :=
  exists e, In e (events s) /\
            (Event.id e = fst ids \/ Event.shortCode e = snd ids).

(** The strings on which [toUpperCase] above is the method of the
    runtime: those of ASCII characters. *)
Definition asciiOnly (s : string) : bool :=
  forallb (fun c => (nat_of_ascii c <? 128)%nat) (list_ascii_of_string s).

(** The vote rows of a voter in an event. *)
Definition votesOfVoter (eventId nickname : string) (s : Store) : list Vote.t :=
  filter (fun v => String.eqb (Vote.eventId v) eventId &&
                   String.eqb (Vote.voterNickname v) nickname) (votes s).

(** A vote request that is in order: a nickname and a recommendation id
    the schemas accept, the one event with the id live and in VOTING
    status, the voter one of its participants, the recommendation one of
    its recommendations. *)
Definition mayVote (now : Time) (eventId : string) (rid : Z) (nickname : string)
  (s : Store) : Prop :=
  nicknameSchema nickname = true /\
  0 < rid /\
  (exists event,
      In event (events s) /\ Event.id event = eventId /\
      (forall e, In e (events s) -> Event.id e = eventId -> e = event) /\
      now < Event.expiresAt event /\ Event.status event = VOTING) /\
  (exists voter,
      In voter (participants s) /\ Participant.eventId voter = eventId /\
      Participant.nickname voter = nickname) /\
  (exists rec,
      In rec (recommendations s) /\ Recommendation.id rec = rid /\
      Recommendation.eventId rec = eventId).

(** The two voters of the scenario, and a database that rejects an
    insert. *)
Definition bobRow : Participant.t :=
  Participant.mk 2 "evt00001" "Bob" "Addr B" false 2000.

Definition lunchVoting : Event.t :=
  applyData (votingStarted 2500) (applyData nowReady lunch).

Definition bobsVote : Vote.t := Vote.mk 1 2 "evt00001" "Bob" 3000.

Definition rejectedInsert : Time -> Z -> string -> string -> DB Vote.t :=
  fun _ _ _ _ s => (inl (PrismaError "P1001"), s).

(** * Properties *)

Lemma EventStatus_eqb_spec a b : reflect (a = b) (EventStatus_eqb a b).
Proof. destruct a, b; simpl; constructor; congruence. Qed.

(** ** Nickname assignment *)

Section NicknameFacts.
Variable random : nat -> Z.
Variable dateNow : Z.
Variable base : string.
Variable existing : list string.

(** The loop, read as the source writes it. *)
Lemma retryLoop_turn attempts :
  retryLoop random dateNow base existing attempts =
  if (maxAttempts <? S attempts)%nat
  then timestampName dateNow base
  else if includes existing (candidate random base attempts)
       then retryLoop random dateNow base existing (S attempts)
       else candidate random base attempts.
Proof.
  rewrite retryLoop_equation_1.
  generalize (inspect (maxAttempts <? S attempts)%nat).
  intros [b Hb].
  assert (E : forall x y : string,
             (if (maxAttempts <? S attempts)%nat then x else y) =
             (if b then x else y)) by (intros; rewrite Hb; reflexivity).
  rewrite E. destruct b; reflexivity.
Qed.

(** Entered after [attempts] colliding turns, the loop stops at the first
    free candidate, or after turn 90 with the timestamp name. *)
Lemma retryLoop_result n : forall attempts,
  (n + attempts = maxAttempts)%nat ->
  (forall j, (j < attempts)%nat ->
             includes existing (candidate random base j) = true) ->
  let result := retryLoop random dateNow base existing attempts in
  (exists k, (attempts <= k < maxAttempts)%nat /\
             result = candidate random base k /\
             includes existing result = false /\
             forall j, (j < k)%nat ->
                       includes existing (candidate random base j) = true)
  \/ ((forall j, (j < maxAttempts)%nat ->
                 includes existing (candidate random base j) = true) /\
      result = timestampName dateNow base).
Proof.
  induction n as [|n IH]; intros attempts Hn Hcoll result; subst result;
    rewrite retryLoop_turn.
  - simpl in Hn. subst attempts.
    rewrite (proj2 (Nat.ltb_lt _ _)) by lia. right. split; [assumption|reflexivity].
  - rewrite (proj2 (Nat.ltb_ge _ _)) by lia.
    destruct (includes existing (candidate random base attempts)) eqn:Hin.
    + destruct (IH (S attempts)) as [(k & Hk & Hres & Hfree & Hbefore)|Hall];
        [lia| |left; exists k; repeat split; try lia; assumption|right; exact Hall].
      intros j Hj.
      destruct (Nat.eq_dec j attempts) as [->|]; [assumption|apply Hcoll; lia].
    + left. exists attempts. repeat split; try lia; assumption.
Qed.
End NicknameFacts.

Lemma two_digit_suffix z :
  10 <= z <= 99 -> String.length (toString z) = 2%nat.
Proof.
  intros Hz.
  assert (Hin : In z (map Z.of_nat (seq 10 90))).
  { apply in_map_iff. exists (Z.to_nat z). split; [lia|apply in_seq; lia]. }
  assert (Hall : forallb (fun z => (String.length (toString z) =? 2)%nat)
                   (map Z.of_nat (seq 10 90)) = true) by (vm_compute; reflexivity).
  rewrite forallb_forall in Hall. apply Nat.eqb_eq, Hall, Hin.
Qed.

(** ** The store primitives *)

Lemma set_events_same s : set_events (events s) s = s.
Proof. destruct s; reflexivity. Qed.

Lemma event_where_applyData eventId liveAt d e :
  event_where eventId liveAt (applyData d e) = event_where eventId liveAt e.
Proof. reflexivity. Qed.

Lemma find_updateWhere eventId' liveAt eventId d es :
  find (event_where eventId' liveAt) (updateWhere eventId d es) =
  option_map (fun e => if String.eqb (Event.id e) eventId then applyData d e else e)
    (find (event_where eventId' liveAt) es).
Proof.
  unfold updateWhere.
  induction es as [|e es IH]; cbn [map find option_map]; [reflexivity|].
  destruct (String.eqb (Event.id e) eventId) eqn:E;
    rewrite ?event_where_applyData;
    destruct (event_where eventId' liveAt e); cbn [option_map];
    rewrite ?E; auto.
Qed.

Lemma updateWhere_absent eventId d es :
  find (event_where eventId None) es = None -> updateWhere eventId d es = es.
Proof.
  induction es as [|e es IH]; simpl; [reflexivity|].
  unfold event_where at 1. rewrite andb_true_r.
  destruct (String.eqb (Event.id e) eventId); [discriminate|].
  intros H. now rewrite IH.
Qed.

Lemma find_where_id eventId liveAt es e :
  find (event_where eventId liveAt) es = Some e -> Event.id e = eventId.
Proof.
  intros H. apply find_some in H. destruct H as [_ H].
  unfold event_where in H. apply andb_prop in H. now apply String.eqb_eq.
Qed.

(** A live row is in particular a row. *)
Lemma find_live_some eventId now es e :
  find (event_where eventId (Some now)) es = Some e ->
  exists e', find (event_where eventId None) es = Some e'.
Proof.
  induction es as [|x es IH]; simpl; [discriminate|].
  unfold event_where at 1 3. rewrite andb_true_r.
  destruct (String.eqb (Event.id x) eventId); simpl; eauto.
Qed.

Lemma event_update_found eventId d s e :
  find (event_where eventId None) (events s) = Some e ->
  event_update eventId d s =
  (inr (applyData d e), set_events (updateWhere eventId d (events s)) s).
Proof. unfold event_update. now intros ->. Qed.

Lemma event_update_absent eventId d s :
  find (event_where eventId None) (events s) = None ->
  event_update eventId d s = (inl (PrismaError "P2025"), s).
Proof. unfold event_update. now intros ->. Qed.

Lemma for_each_create now ds : forall s,
  for_each (recommendation_create now) ds s =
  (inr tt,
   mkStore (events s) (participants s)
     (recommendations s ++ recommendationRows now (nextRecommendationId s) ds)
     (votes s) (nextParticipantId s)
     (nextRecommendationId s + Z.of_nat (length ds)) (nextVoteId s)).
Proof.
  induction ds as [|d ds IH]; intros s.
  - destruct s; simpl. unfold ret. now rewrite app_nil_r, Z.add_0_r.
  - cbn [for_each]. unfold bind at 1. unfold recommendation_create at 1.
    rewrite IH. cbn [events participants recommendations votes
                       nextParticipantId nextRecommendationId nextVoteId
                       recommendationRows length].
    f_equal. f_equal; [now rewrite <- app_assoc|lia].
Qed.

(** ** The generator *)

(** The service never hands back an empty list: it throws, or it returns
    recommendations (those of the model or the fallback set). *)
Lemma generator_returns_some apiKey generateObject request response :
  generateRecommendations apiKey generateObject request = inr response ->
  exists i recs, LLM.recommendations response = Some (i :: recs).
Proof.
  unfold generateRecommendations, callModel.
  destruct (String.eqb apiKey ""); [discriminate|].
  destruct (generateObject request) as [e|r].
  - destruct (rethrown e); [discriminate|].
    intros [= <-]. simpl. eauto.
  - destruct (or_else (LLM.error r) false).
    + destruct (rethrown _); [discriminate|]. intros [= <-]. simpl. eauto.
    + destruct (LLM.recommendations r) as [[|i recs]|].
      * destruct (rethrown _); [discriminate|]. intros [= <-]. simpl. eauto.
      * intros [= <-]. simpl. eauto.
      * destruct (rethrown _); [discriminate|]. intros [= <-]. simpl. eauto.
Qed.

(** Without a key, on flagged addresses and on an empty answer it throws;
    a failure of the model call in transit is answered with the fallback
    set, ranked 1 to 3. *)
Lemma generator_failures generateObject request :
  generateRecommendations "" generateObject request = inl (JsError "NO_API_KEY") /\
  (forall r, generateObject request = inr r ->
             LLM.error r = Some true ->
             LLM.error_code r = Some "INVALID_ADDRESSES" ->
             generateRecommendations "key" generateObject request =
             inl (JsError "INVALID_ADDRESSES")) /\
  (forall r, generateObject request = inr r ->
             or_else (LLM.error r) false = false ->
             LLM.recommendations r = Some [] ->
             generateRecommendations "key" generateObject request =
             inl (JsError "NO_RESULTS")) /\
  (generateObject request = inl (JsError "fetch failed") ->
   generateRecommendations "key" generateObject request =
   inr getFallbackRecommendations) /\
  option_map (map LLM.rank) (LLM.recommendations getFallbackRecommendations) =
  Some [1; 2; 3].
Proof.
  unfold generateRecommendations, callModel. repeat split.
  - intros r -> -> ->. reflexivity.
  - intros r -> -> ->. reflexivity.
  - intros ->. reflexivity.
Qed.

(** ** The queued generation task *)

Section GenerationFacts.
Variable llm : LLM.Request -> Awaited LLM.Response.
Variable now : Time.
Variable task : ParticipantsRoute.GenerationTask.

Let eventId := ParticipantsRoute.task_eventId task.


(** With a non-empty list from the generator and the event row present,
    the task appends one row per item and starts the voting. *)
Lemma generate_commits s r i recs e :
  llm (ParticipantsRoute.task_llmRequest task) = inr r ->
  LLM.recommendations r = Some (i :: recs) ->
  find (event_where eventId None) (events s) = Some e ->
  ParticipantsRoute.runGenerationTask llm now task s =
  mkStore (updateWhere eventId (votingStarted now) (events s)) (participants s)
    (recommendations s ++
     recommendationRows now (nextRecommendationId s)
       (map (recommendationData eventId) (i :: recs)))
    (votes s) (nextParticipantId s)
    (nextRecommendationId s + Z.of_nat (length (i :: recs))) (nextVoteId s).
Proof.
  intros Hllm Hrecs Hfind.
  unfold ParticipantsRoute.runGenerationTask, ParticipantsRoute.generate, try_catch.
  rewrite Hllm, Hrecs. unfold transaction, bind. rewrite for_each_create.
  erewrite event_update_found by exact Hfind.
  cbn. now rewrite length_map.
Qed.
End GenerationFacts.

(** ** Admission *)

Lemma length_insertBy {A} (key : A -> Z) x l :
  length (insertBy key x l) = S (length l).
Proof.
  induction l as [|y l IH]; simpl; [reflexivity|].
  destruct (key x <=? key y); simpl; congruence.
Qed.

Lemma length_orderBy {A} (key : A -> Z) l : length (orderBy key l) = length l.
Proof.
  induction l as [|x l IH]; simpl; [reflexivity|].
  fold (orderBy key l). now rewrite length_insertBy, IH.
Qed.

Lemma participantsOf_withParticipant eventId p s :
  Participant.eventId p = eventId ->
  participantsOf eventId (withParticipant p s) = participantsOf eventId s ++ [p].
Proof.
  intros <-. unfold participantsOf, withParticipant. simpl.
  rewrite filter_app. simpl. now rewrite String.eqb_refl.
Qed.

Section JoinFacts.
Variable now : Time.
Variable random : nat -> Z.
Variable dateNow : Z.
Variable eventId : string.
Variable body : JoinBody.
Variable s : Store.
Variable event : Event.t.
Hypothesis Hvalid : joinEventSchema body = true.
Hypothesis Hlive : find (event_where eventId (Some now)) (events s) = Some event.

Let count := Z.of_nat (length (participantsOf eventId s)).
Let p := newcomer now random dateNow eventId body s.

Lemma join_rejected :
  Event.status event <> WAITING \/ Event.expectedParticipants event <= count ->
  ParticipantsRoute.POST now random dateNow eventId body s =
  ((Failure EVENT_FULL 403, None), s).
Proof.
  intros Hfull.
  unfold ParticipantsRoute.POST, ParticipantsRoute.POST_body, handler.
  rewrite Hvalid. cbn [negb]. unfold bind at 1. unfold event_findUnique at 1.
  rewrite Hlive. unfold bind at 1. unfold include_participants at 1.
  destruct (EventStatus_eqb_spec (Event.status event) WAITING) as [Hw|Hw];
    cbn [negb]; [|reflexivity].
  destruct Hfull as [Hs|Hc]; [contradiction|].
  fold count. now rewrite (proj2 (Z.leb_le _ _) Hc).
Qed.

Lemma join_admitted_below :
  Event.status event = WAITING ->
  count + 1 < Event.expectedParticipants event ->
  ParticipantsRoute.POST now random dateNow eventId body s =
  ((Success (joinData now random dateNow eventId body event s), None),
   withParticipant p s).
Proof.
  intros Hw Hc.
  unfold ParticipantsRoute.POST, ParticipantsRoute.POST_body, handler.
  rewrite Hvalid. cbn [negb]. unfold bind at 1. unfold event_findUnique at 1.
  rewrite Hlive. unfold bind at 1. unfold include_participants at 1.
  rewrite Hw. cbn [EventStatus_eqb negb]. fold count.
  rewrite (proj2 (Z.leb_gt _ _)) by lia.
  unfold bind at 1. unfold participant_create at 1.
  rewrite (proj2 (Z.eqb_neq _ _)) by lia.
  unfold bind, ret. unfold joinData. fold count.
  rewrite (proj2 (Z.eqb_neq _ _)) by lia. reflexivity.
Qed.

Lemma join_admitted_threshold :
  Event.status event = WAITING ->
  count + 1 = Event.expectedParticipants event ->
  exists row,
    find (event_where eventId None) (events s) = Some row /\
    ParticipantsRoute.POST now random dateNow eventId body s =
    ((Success (joinData now random dateNow eventId body event s),
      if 2 <=? count + 1
      then Some (ParticipantsRoute.mkTask eventId
                   (llmRequestOf (applyData nowReady row)
                      (orderBy Participant.joinedAt
                         (participantsOf eventId s ++ [p]))))
      else None),
     set_events (updateWhere eventId nowReady (events s)) (withParticipant p s)).
Proof.
  intros Hw Hc.
  destruct (find_live_some _ _ _ _ Hlive) as [row Hrow].
  exists row. split; [exact Hrow|].
  unfold ParticipantsRoute.POST, ParticipantsRoute.POST_body, handler.
  rewrite Hvalid. cbn [negb]. unfold bind at 1. unfold event_findUnique at 1.
  rewrite Hlive. unfold bind at 1. unfold include_participants at 1.
  rewrite Hw. cbn [EventStatus_eqb negb]. fold count.
  rewrite (proj2 (Z.leb_gt _ _)) by lia.
  unfold bind at 1. unfold participant_create at 1.
  rewrite (proj2 (Z.eqb_eq _ _)) by lia.
  unfold bind at 1. unfold ParticipantsRoute.reachReady.
  unfold bind at 1.
  rewrite (event_update_found eventId nowReady _ row) by exact Hrow.
  unfold bind at 1. unfold event_findUnique at 1.
  cbn [events set_events]. rewrite find_updateWhere, Hrow. cbn [option_map].
  rewrite (proj2 (String.eqb_eq _ _) (find_where_id _ _ _ _ Hrow)).
  unfold bind at 1. unfold include_participants at 1.
  change (participantsOf eventId (set_events ?es ?st)) with (participantsOf eventId st).
  repeat match goal with
         | |- context [participantsOf eventId ?st] =>
             lazymatch st with
             | s => fail
             | withParticipant _ _ => fail
             | _ => change st with (withParticipant p s)
             end
         end.
  rewrite participantsOf_withParticipant by reflexivity.
  rewrite length_orderBy, length_app, Nat2Z.inj_add. cbn [length]. fold count.
  change (Z.of_nat 1) with 1.
  unfold joinData. fold count. rewrite (proj2 (Z.eqb_eq _ _)) by lia.
  destruct (2 <=? count + 1); reflexivity.
Qed.
End JoinFacts.

Lemma in_updateWhere eventId d es e :
  In e (updateWhere eventId d es) -> Event.id e = eventId ->
  exists e0, In e0 es /\ e = applyData d e0.
Proof.
  unfold updateWhere. rewrite in_map_iff. intros (e0 & He & Hin) Hid.
  exists e0. split; [assumption|].
  destruct (String.eqb (Event.id e0) eventId) eqn:E; [congruence|].
  subst e. apply String.eqb_neq in E. contradiction.
Qed.

(** A join leaves a task on the queue only when it is admitted and brings
    the count to the expected number. *)
Lemma join_queued_inv now random dateNow eventId body s response t s1 :
  ParticipantsRoute.POST now random dateNow eventId body s = ((response, Some t), s1) ->
  joinEventSchema body = true /\
  exists event,
    find (event_where eventId (Some now)) (events s) = Some event /\
    Event.status event = WAITING /\
    Z.of_nat (length (participantsOf eventId s)) + 1 = Event.expectedParticipants event.
Proof.
  unfold ParticipantsRoute.POST, ParticipantsRoute.POST_body, handler.
  destruct (joinEventSchema body); cbn [negb]; [|discriminate].
  unfold bind at 1. unfold event_findUnique at 1.
  destruct (find (event_where eventId (Some now)) (events s)) as [event|];
    [|discriminate].
  unfold bind at 1. unfold include_participants at 1.
  destruct (EventStatus_eqb_spec (Event.status event) WAITING) as [Hw|Hw];
    cbn [negb]; [|discriminate].
  destruct (Event.expectedParticipants event <=? _); [discriminate|].
  unfold bind at 1. unfold participant_create at 1.
  destruct (Z.eqb_spec (Z.of_nat (length (participantsOf eventId s)) + 1)
              (Event.expectedParticipants event)) as [Hc|Hc].
  - intros _. split; [reflexivity|]. exists event. auto.
  - unfold bind, ret. discriminate.
Qed.

(** C4. On a live event a validated join is refused with EVENT_FULL (403)
    when the status is not WAITING or the participants already number
    [expectedParticipants]; the join that brings the count from
    [expectedParticipants - 1] to [expectedParticipants] (at least 2, as
    the creation schema has it) succeeds, moves the event from WAITING to
    READY and leaves a generation task for it on the queue. *)
Theorem join_full_or_threshold now random dateNow eventId body s event :
  joinEventSchema body = true ->
  find (event_where eventId (Some now)) (events s) = Some event ->
  let count := Z.of_nat (length (participantsOf eventId s)) in
  (Event.status event <> WAITING \/ Event.expectedParticipants event <= count ->
   ParticipantsRoute.POST now random dateNow eventId body s =
   ((Failure EVENT_FULL 403, None), s)) /\
  (Event.status event = WAITING ->
   count = Event.expectedParticipants event - 1 ->
   2 <= Event.expectedParticipants event ->
   exists data task s',
     ParticipantsRoute.POST now random dateNow eventId body s =
     ((Success data, Some task), s') /\
     ParticipantsRoute.participant_count data = Event.expectedParticipants event /\
     ParticipantsRoute.should_generate_recommendations data = true /\
     option_map Event.status
       (find (event_where eventId (Some now)) (events s')) = Some READY /\
     participantsOf eventId s' =
       participantsOf eventId s ++ [newcomer now random dateNow eventId body s] /\
     ParticipantsRoute.task_eventId task = eventId /\
     LLM.participants (ParticipantsRoute.task_llmRequest task) =
       map (fun p => (Participant.nickname p, Participant.address p))
         (orderBy Participant.joinedAt (participantsOf eventId s'))).
Proof.
  intros Hvalid Hlive count. split.
  - apply join_rejected; assumption.
  - intros Hw Hc Hmin.
    destruct (join_admitted_threshold now random dateNow eventId body s event
                Hvalid Hlive Hw) as (row & Hrow & Hpost); [fold count; lia|].
    fold count in Hpost.
    rewrite (proj2 (Z.leb_le 2 (count + 1))) in Hpost by lia.
    eexists _, _, _. split; [exact Hpost|].
    cbn [ParticipantsRoute.participant_count
           ParticipantsRoute.should_generate_recommendations joinData
           ParticipantsRoute.task_eventId ParticipantsRoute.task_llmRequest
           events set_events].
    fold count. repeat split.
    + lia.
    + apply Z.eqb_eq. lia.
    + rewrite find_updateWhere, Hlive. cbn [option_map].
      rewrite (proj2 (String.eqb_eq _ _) (find_where_id _ _ _ _ Hlive)).
      reflexivity.
    + change (participantsOf eventId (set_events ?es ?st))
        with (participantsOf eventId st).
      now rewrite participantsOf_withParticipant.
    + change (participantsOf eventId (set_events ?es ?st))
        with (participantsOf eventId st).
      now rewrite participantsOf_withParticipant.
Qed.

Lemma join_full_or_threshold_witness :
  exists data task s',
    ParticipantsRoute.POST 2000 (fun _ => 5) 1730000000123 "evt00001" bob created =
    ((Success data, Some task), s') /\
    ParticipantsRoute.participant_count data = 2 /\
    ParticipantsRoute.should_generate_recommendations data = true /\
    option_map Event.status
      (find (event_where "evt00001" (Some 2000)) (events s')) = Some READY /\
    participantsOf "evt00001" s' =
      participantsOf "evt00001" created ++
      [newcomer 2000 (fun _ => 5) 1730000000123 "evt00001" bob created] /\
    ParticipantsRoute.task_eventId task = "evt00001" /\
    LLM.participants (ParticipantsRoute.task_llmRequest task) =
      map (fun p => (Participant.nickname p, Participant.address p))
        (orderBy Participant.joinedAt (participantsOf "evt00001" s')).
Proof.
  apply (join_full_or_threshold 2000 (fun _ => 5) 1730000000123 "evt00001" bob
           created lunch); reflexivity.
Defined.

(** ** Failed generation *)

Lemma signalError_effect now task s :
  snd (ParticipantsRoute.signalError now task s) =
  set_events (updateWhere (ParticipantsRoute.task_eventId task) (touched now) (events s)) s.
Proof.
  unfold ParticipantsRoute.signalError, bind.
  destruct (find (event_where (ParticipantsRoute.task_eventId task) None) (events s))
    as [ev|] eqn:Hfind.
  - erewrite event_update_found by exact Hfind. reflexivity.
  - rewrite event_update_absent by exact Hfind.
    rewrite updateWhere_absent by exact Hfind. simpl.
    now rewrite set_events_same.
Qed.

(** A failed run of the queued task leaves the store as it was, or with
    the event's [updatedAt] rewritten. *)
Lemma failed_task_effect llm now task s :
  generationFailed (llm (ParticipantsRoute.task_llmRequest task)) ->
  ParticipantsRoute.runGenerationTask llm now task s = s \/
  ParticipantsRoute.runGenerationTask llm now task s =
  set_events (updateWhere (ParticipantsRoute.task_eventId task) (touched now) (events s)) s.
Proof.
  unfold generationFailed, ParticipantsRoute.runGenerationTask,
    ParticipantsRoute.generate, try_catch.
  destruct (llm _) as [e|r].
  - intros _. right. unfold throw. apply signalError_effect.
  - destruct (LLM.recommendations r) as [[|i recs]|]; intros H;
      [left; reflexivity|contradiction|left; reflexivity].
Qed.



(** What the retry route answers once its checks have passed and the
    generator has failed. *)
Lemma retry_generation_failed llm now eventId creatorNickname s event creator :
  nicknameSchema creatorNickname = true ->
  find (event_where eventId (Some now)) (events s) = Some event ->
  let ps := orderBy Participant.joinedAt (participantsOf eventId s) in
  Event.status event = READY ->
  Z.of_nat (length ps) = Event.expectedParticipants event ->
  find Participant.isCreator ps = Some creator ->
  Participant.nickname creator = creatorNickname ->
  generationFailed (llm (llmRequestOf event ps)) ->
  RetryRoute.POST llm now eventId (Some creatorNickname) s = (Failure LLM_ERROR 503, s).
Proof.
  intros Hvalid Hlive ps Hready Hcount Hcreator Hnick Hfail.
  unfold RetryRoute.POST, RetryRoute.POST_body, handler.
  rewrite Hvalid. cbn [negb]. unfold bind at 1. unfold event_findUnique at 1.
  rewrite Hlive. unfold bind at 1. unfold include_participants at 1.
  fold ps. rewrite Hready. cbn [EventStatus_eqb negb].
  rewrite (proj2 (Z.eqb_eq _ _) Hcount). cbn [negb].
  rewrite Hcreator, (proj2 (String.eqb_eq _ _) Hnick). cbn [negb].
  unfold generationFailed in Hfail. unfold RetryRoute.regenerate.
  destruct (llm (llmRequestOf event ps)) as [e|r]; [reflexivity|].
  destruct (LLM.recommendations r) as [[|i recs]|];
    [reflexivity|contradiction|reflexivity].
Qed.

(** C2. A join that queues the generation task answers with its success
    response whatever the generator does; when the generator then fails,
    every row of the event still has status READY and the recommendation
    table is what it was before the join (empty for the event if it was).
    A manual retry whose generation fails answers LLM_ERROR (503) and
    leaves the store untouched. *)
Theorem generation_failure_policy :
  (forall llm now random dateNow later eventId body s response t s1,
      ParticipantsRoute.POST now random dateNow eventId body s =
        ((response, Some t), s1) ->
      generationFailed (llm (ParticipantsRoute.task_llmRequest t)) ->
      let s2 := snd (ParticipantsRoute.joinThenGenerate llm now random dateNow
                       later eventId body s) in
      exists data,
        response = Success data /\
        fst (ParticipantsRoute.joinThenGenerate llm now random dateNow later
               eventId body s) = Success data /\
        (exists e, find (event_where eventId (Some now)) (events s2) = Some e /\
                   Event.status e = READY) /\
        (forall e, In e (events s2) -> Event.id e = eventId ->
                   Event.status e = READY) /\
        recommendations s2 = recommendations s /\
        (recommendationsOf eventId s = [] -> recommendationsOf eventId s2 = [])) /\
  (forall llm now eventId creatorNickname s event creator,
      nicknameSchema creatorNickname = true ->
      find (event_where eventId (Some now)) (events s) = Some event ->
      let ps := orderBy Participant.joinedAt (participantsOf eventId s) in
      Event.status event = READY ->
      Z.of_nat (length ps) = Event.expectedParticipants event ->
      find Participant.isCreator ps = Some creator ->
      Participant.nickname creator = creatorNickname ->
      generationFailed (llm (llmRequestOf event ps)) ->
      RetryRoute.POST llm now eventId (Some creatorNickname) s =
        (Failure LLM_ERROR 503, s)).
Proof.
  split; [|exact retry_generation_failed].
  intros llm now random dateNow later eventId body s response t s1 Hpost Hfail s2.
  destruct (join_queued_inv _ _ _ _ _ _ _ _ _ Hpost)
    as (Hvalid & event & Hlive & Hw & Hc).
  destruct (join_admitted_threshold now random dateNow eventId body s event
              Hvalid Hlive Hw Hc) as (row & Hrow & Hpost').
  rewrite Hpost in Hpost'.
  assert (Hresp : response =
                  Success (joinData now random dateNow eventId body event s))
    by congruence.
  assert (Hs1 : s1 = set_events (updateWhere eventId nowReady (events s))
                       (withParticipant
                          (newcomer now random dateNow eventId body s) s))
    by congruence.
  assert (Hid : ParticipantsRoute.task_eventId t = eventId).
  { destruct (2 <=? _) in Hpost'; [|congruence].
    injection Hpost' as _ Ht _. now inversion Ht. }
  assert (Hs2 : s2 = s1 \/
                s2 = set_events (updateWhere eventId (touched later) (events s1)) s1).
  { subst s2. unfold ParticipantsRoute.joinThenGenerate. rewrite Hpost.
    cbn [snd]. rewrite <- Hid. now apply failed_task_effect. }
  exists (joinData now random dateNow eventId body event s).
  split; [exact Hresp|]. split.
  { unfold ParticipantsRoute.joinThenGenerate. rewrite Hpost. exact Hresp. }
  assert (Hev : events s2 = updateWhere eventId nowReady (events s) \/
                events s2 = updateWhere eventId (touched later)
                              (updateWhere eventId nowReady (events s))).
  { destruct Hs2 as [->| ->]; rewrite Hs1; [left|right]; reflexivity. }
  assert (Hrecs : recommendations s2 = recommendations s).
  { destruct Hs2 as [->| ->]; rewrite Hs1; reflexivity. }
  pose proof (proj2 (String.eqb_eq _ _) (find_where_id _ _ _ _ Hlive)) as Heq.
  repeat split.
  - destruct Hev as [-> | ->]; rewrite !find_updateWhere, Hlive; cbn [option_map];
      rewrite Heq; [|cbn [applyData Event.id]; rewrite Heq]; eexists; split;
      reflexivity.
  - intros e Hin He.
    destruct Hev as [Hev|Hev]; rewrite Hev in Hin.
    + destruct (in_updateWhere _ _ _ _ Hin He) as (e0 & _ & ->). reflexivity.
    + destruct (in_updateWhere _ _ _ _ Hin He) as (e0 & Hin0 & ->).
      destruct (in_updateWhere _ _ _ _ Hin0 He) as (e1 & _ & ->). reflexivity.
  - exact Hrecs.
  - unfold recommendationsOf. now rewrite Hrecs.
Qed.

Lemma generation_failure_policy_witness :
  (let s2 := snd (ParticipantsRoute.joinThenGenerate llmNoKey 2000 (fun _ => 5)
                    1730000000123 2500 "evt00001" bob created) in
   exists data,
     Success (joinData 2000 (fun _ => 5) 1730000000123 "evt00001" bob lunch created)
       = Success data /\
     fst (ParticipantsRoute.joinThenGenerate llmNoKey 2000 (fun _ => 5)
            1730000000123 2500 "evt00001" bob created) = Success data /\
     (exists e, find (event_where "evt00001" (Some 2000)) (events s2) = Some e /\
                Event.status e = READY) /\
     (forall e, In e (events s2) -> Event.id e = "evt00001" ->
                Event.status e = READY) /\
     recommendations s2 = recommendations created /\
     (recommendationsOf "evt00001" created = [] ->
      recommendationsOf "evt00001" s2 = [])) /\
  RetryRoute.POST llmNoKey 2600 "evt00001" (Some "Alice") bobJoined =
    (Failure LLM_ERROR 503, bobJoined).
Proof.
  split.
  - apply (proj1 generation_failure_policy llmNoKey 2000 (fun _ => 5)
             1730000000123 2500 "evt00001" bob created
             (Success (joinData 2000 (fun _ => 5) 1730000000123 "evt00001" bob
                         lunch created))
             queued bobJoined); [reflexivity|exact I].
  - apply (proj2 generation_failure_policy llmNoKey 2600 "evt00001" "Alice"
             bobJoined (applyData nowReady lunch) alice);
      first [reflexivity|exact I].
Defined.

(** ** Persisting the recommendations *)

Lemma rows_of_event now eventId recs : forall key,
  filter (fun r => String.eqb (Recommendation.eventId r) eventId)
    (recommendationRows now key (map (recommendationData eventId) recs)) =
  recommendationRows now key (map (recommendationData eventId) recs).
Proof.
  induction recs as [|i recs IH]; intros key; simpl; [reflexivity|].
  now rewrite String.eqb_refl, IH.
Qed.

Lemma rows_ranks now eventId recs : forall key,
  map Recommendation.rank
    (recommendationRows now key (map (recommendationData eventId) recs)) =
  map LLM.rank recs.
Proof.
  induction recs as [|i recs IH]; intros key; simpl; [reflexivity|].
  now rewrite IH.
Qed.

Lemma filter_out_then_in {A} (f : A -> bool) l :
  filter f (filter (fun x => negb (f x)) l) = [].
Proof.
  induction l as [|x l IH]; simpl; [reflexivity|].
  destruct (f x) eqn:E; simpl; rewrite ?E; assumption.
Qed.

(** The transaction of the retry route replaces the recommendations of the
    event by the new rows and starts the voting. *)
Lemma persist_effect now eventId recs s e :
  find (event_where eventId None) (events s) = Some e ->
  exists s',
    RetryRoute.persist now eventId recs s = (inr tt, s') /\
    recommendationsOf eventId s' =
      recommendationRows now (nextRecommendationId s)
        (map (recommendationData eventId) recs) /\
    map Recommendation.rank (recommendationsOf eventId s') = map LLM.rank recs /\
    events s' = updateWhere eventId (votingStarted now) (events s).
Proof.
  intros Hfind. unfold RetryRoute.persist, transaction.
  unfold bind at 1. unfold recommendation_deleteMany at 1.
  unfold bind at 1. rewrite for_each_create.
  unfold bind at 1. cbn [events participants recommendations votes
                           nextParticipantId nextRecommendationId nextVoteId].
  erewrite event_update_found by (cbn [events]; exact Hfind).
  unfold ret. eexists. split; [reflexivity|].
  unfold recommendationsOf. cbn [recommendations set_events events].
  rewrite filter_app, filter_out_then_in, rows_of_event. cbn [app].
  repeat split. apply rows_ranks.
Qed.

(** The transaction of the queued task adds the new rows to those the event
    already has. *)
Lemma generate_keeps_rows llm now task s r i recs e :
  llm (ParticipantsRoute.task_llmRequest task) = inr r ->
  LLM.recommendations r = Some (i :: recs) ->
  find (event_where (ParticipantsRoute.task_eventId task) None) (events s) = Some e ->
  recommendationsOf (ParticipantsRoute.task_eventId task)
    (ParticipantsRoute.runGenerationTask llm now task s) =
  recommendationsOf (ParticipantsRoute.task_eventId task) s ++
  recommendationRows now (nextRecommendationId s)
    (map (recommendationData (ParticipantsRoute.task_eventId task)) (i :: recs)).
Proof.
  intros Hllm Hrecs Hfind.
  rewrite (generate_commits llm now task s r i recs e Hllm Hrecs Hfind).
  unfold recommendationsOf. cbn [recommendations].
  now rewrite filter_app, rows_of_event.
Qed.

(** C1. The retry route deletes the recommendations of the event before it
    inserts the new ones; the queued task of the join does not.  Bob's join
    at 2000 fills the lunch and queues the task; Alice retries at 2200 and
    gets three recommendations and the VOTING status; the queued task then
    completes at 2500 and the event has six recommendations, each rank
    twice, and a voting start moved to 2500. *)
Theorem queued_generation_keeps_old_recommendations :
  let afterRetry :=
    snd (RetryRoute.POST llmOffline 2200 "evt00001" (Some "Alice") bobJoined) in
  let final := ParticipantsRoute.runGenerationTask llmOffline 2500 queued afterRetry in
  snd (fst (ParticipantsRoute.POST 2000 (fun _ => 5) 1730000000123 "evt00001" bob
              created)) = Some queued /\
  fst (RetryRoute.POST llmOffline 2200 "evt00001" (Some "Alice") bobJoined) =
    Success (RetryRoute.mkRetryData "Recommendations generated successfully" VOTING) /\
  map Recommendation.rank (recommendationsOf "evt00001" afterRetry) = [1; 2; 3] /\
  map Recommendation.rank (recommendationsOf "evt00001" final) = [1; 2; 3; 1; 2; 3] /\
  map Event.votingStartedAt (events afterRetry) = [Some 2200] /\
  map Event.votingStartedAt (events final) = [Some 2500].
Proof. vm_compute. repeat split. Qed.

(** ** Manual retry *)

(** The checks of the retry route, in the order the route makes them. *)
Lemma retry_answer llm now eventId creatorNickname s event :
  nicknameSchema creatorNickname = true ->
  find (event_where eventId (Some now)) (events s) = Some event ->
  let ps := orderBy Participant.joinedAt (participantsOf eventId s) in
  RetryRoute.POST llm now eventId (Some creatorNickname) s =
  if negb (EventStatus_eqb (Event.status event) READY)
  then (Failure EVENT_NOT_READY 400, s)
  else if negb (Z.of_nat (length ps) =? Event.expectedParticipants event)
  then (Failure PARTICIPANTS_NOT_COMPLETE 400, s)
  else if negb (isCreatorNickname ps creatorNickname)
  then (Failure NOT_AUTHORIZED 403, s)
  else handler (RetryRoute.regenerate llm now eventId event ps)
         (Failure LLM_ERROR 503) s.
Proof.
  intros Hvalid Hlive ps.
  unfold RetryRoute.POST, RetryRoute.POST_body, handler, isCreatorNickname.
  rewrite Hvalid. cbn [negb]. unfold bind at 1. unfold event_findUnique at 1.
  rewrite Hlive. unfold bind at 1. unfold include_participants at 1. fold ps.
  destruct (negb (EventStatus_eqb (Event.status event) READY)); [reflexivity|].
  destruct (negb (Z.of_nat (length ps) =? Event.expectedParticipants event));
    [reflexivity|].
  destruct (find Participant.isCreator ps) as [creator|]; [|reflexivity].
  destruct (negb (String.eqb (Participant.nickname creator) creatorNickname));
    reflexivity.
Qed.

Lemma regenerate_accepted llm now eventId event ps s :
  accepted (fst (handler (RetryRoute.regenerate llm now eventId event ps)
                   (Failure LLM_ERROR 503) s)).
Proof.
  unfold handler, RetryRoute.regenerate.
  destruct (llm (llmRequestOf event ps)) as [e|r]; [exact I|].
  destruct (LLM.recommendations r) as [[|i recs]|]; try exact I.
  unfold bind.
  destruct (RetryRoute.persist now eventId (i :: recs) s) as [[e|[]] s'];
    exact I.
Qed.

(** C7. On a live event a validated retry request is accepted exactly when
    the status is READY, the participants number [expectedParticipants]
    and the nickname is the creator's.  A status other than READY answers
    EVENT_NOT_READY (400), an incomplete count PARTICIPANTS_NOT_COMPLETE
    (400), and, these two passed, another nickname NOT_AUTHORIZED (403). *)
Theorem retry_preconditions llm now eventId creatorNickname s event :
  nicknameSchema creatorNickname = true ->
  find (event_where eventId (Some now)) (events s) = Some event ->
  let ps := orderBy Participant.joinedAt (participantsOf eventId s) in
  let answer := RetryRoute.POST llm now eventId (Some creatorNickname) s in
  (accepted (fst answer) <->
   Event.status event = READY /\
   Z.of_nat (length ps) = Event.expectedParticipants event /\
   isCreatorNickname ps creatorNickname = true) /\
  (Event.status event <> READY -> answer = (Failure EVENT_NOT_READY 400, s)) /\
  (Event.status event = READY ->
   Z.of_nat (length ps) <> Event.expectedParticipants event ->
   answer = (Failure PARTICIPANTS_NOT_COMPLETE 400, s)) /\
  (Event.status event = READY ->
   Z.of_nat (length ps) = Event.expectedParticipants event ->
   isCreatorNickname ps creatorNickname = false ->
   answer = (Failure NOT_AUTHORIZED 403, s)).
Proof.
  intros Hvalid Hlive ps answer.
  pose proof (retry_answer llm now eventId creatorNickname s event Hvalid Hlive)
    as Hans.
  fold ps answer in Hans. cbv zeta in Hans.
  pose proof (regenerate_accepted llm now eventId event ps s) as Hacc.
  destruct (EventStatus_eqb_spec (Event.status event) READY) as [Hr|Hr];
    cbn [negb] in Hans.
  2:{ rewrite Hans. cbn [fst accepted]. intuition congruence. }
  destruct (Z.eqb_spec (Z.of_nat (length ps)) (Event.expectedParticipants event))
    as [Hc|Hc]; cbn [negb] in Hans.
  2:{ rewrite Hans. cbn [fst accepted]. intuition congruence. }
  destruct (isCreatorNickname ps creatorNickname); cbn [negb] in Hans;
    rewrite Hans; cbn [fst accepted]; intuition congruence.
Qed.

Lemma retry_preconditions_witness :
  accepted (fst (RetryRoute.POST llmOffline 2200 "evt00001" (Some "Alice") bobJoined)) /\
  RetryRoute.POST llmOffline 2200 "evt00001" (Some "Bob") bobJoined =
    (Failure NOT_AUTHORIZED 403, bobJoined) /\
  RetryRoute.POST llmOffline 2200 "evt00001" (Some "Alice") created =
    (Failure EVENT_NOT_READY 400, created).
Proof.
  split; [|split].
  - apply (proj1 (retry_preconditions llmOffline 2200 "evt00001" "Alice" bobJoined
                    (applyData nowReady lunch) eq_refl eq_refl)).
    repeat split.
  - apply (proj2 (proj2 (proj2
             (retry_preconditions llmOffline 2200 "evt00001" "Bob" bobJoined
                (applyData nowReady lunch) eq_refl eq_refl)))); reflexivity.
  - apply (proj1 (proj2
             (retry_preconditions llmOffline 2200 "evt00001" "Alice" created
                lunch eq_refl eq_refl))).
    discriminate.
Defined.

(** ** Voting *)

Lemma find_none_filter {A} (f : A -> bool) l :
  find f l = None -> filter f l = [].
Proof.
  induction l as [|x l IH]; simpl; [reflexivity|].
  destruct (f x); [discriminate|assumption].
Qed.

Lemma filter_comm {A} (f g : A -> bool) l :
  filter f (filter g l) = filter g (filter f l).
Proof.
  induction l as [|x l IH]; simpl; [reflexivity|].
  destruct (f x) eqn:Ef, (g x) eqn:Eg; simpl; rewrite ?Ef, ?Eg, IH; reflexivity.
Qed.

Lemma length_filter_le {A} (f : A -> bool) l :
  (length (filter f l) <= length l)%nat.
Proof.
  induction l as [|x l IH]; simpl; [lia|]. destruct (f x); simpl; lia.
Qed.

Lemma find_existsb_key old f l :
  find f l = Some old -> existsb (fun v => Vote.id v =? Vote.id old) l = true.
Proof.
  intros H. apply find_some in H. apply existsb_exists.
  exists old. split; [tauto|apply Z.eqb_refl].
Qed.

Lemma vote_where_pair eventId nickname eventId' nickname' v :
  Vote.eventId v = eventId -> Vote.voterNickname v = nickname ->
  vote_where None eventId' nickname' v = true ->
  eventId' = eventId /\ nickname' = nickname.
Proof.
  unfold vote_where. intros <- <- H. cbn [andb] in H.
  apply andb_prop in H. destruct H as [H1 H2].
  apply String.eqb_eq in H1, H2. auto.
Qed.

(** Deleting a row keeps the invariant. *)
Lemma atMostOneVote_removed voteId s :
  atMostOneVote s -> atMostOneVote (voteRemoved voteId s).
Proof.
  intros H eventId nickname. specialize (H eventId nickname).
  unfold votesBy, voteRemoved in *. cbn [votes set_votes].
  rewrite filter_comm.
  eapply Nat.le_trans; [apply length_filter_le|exact H].
Qed.

(** Inserting a row for a voter who has none keeps the invariant. *)
Lemma atMostOneVote_added now recommendationId eventId nickname s :
  atMostOneVote s ->
  votesBy eventId nickname s = [] ->
  atMostOneVote (voteAdded (newVote now recommendationId eventId nickname s) s).
Proof.
  intros H Hnone eventId' nickname'.
  unfold votesBy, voteAdded in *. cbn [votes set_votes].
  rewrite filter_app, length_app. cbn [filter].
  destruct (vote_where None eventId' nickname' _) eqn:E; cbn [length].
  - apply vote_where_pair with (eventId := eventId) (nickname := nickname) in E;
      [|reflexivity|reflexivity].
    destruct E as [-> ->]. rewrite Hnone. cbn [length]. lia.
  - specialize (H eventId' nickname'). unfold votesBy in H. lia.
Qed.

(** Once the voter's one row is deleted the voter has none. *)
Lemma votesBy_removed eventId nickname s old :
  atMostOneVote s ->
  find (vote_where None eventId nickname) (votes s) = Some old ->
  votesBy eventId nickname (voteRemoved (Vote.id old) s) = [].
Proof.
  intros H Hfind. specialize (H eventId nickname).
  unfold votesBy, voteRemoved in *. cbn [votes set_votes].
  rewrite filter_comm.
  destruct (filter (vote_where None eventId nickname) (votes s)) as [|x l] eqn:Hf.
  - reflexivity.
  - destruct l; [|cbn [length] in H; lia].
    assert (Hin : In old [x]).
    { rewrite <- Hf. apply filter_In. apply find_some in Hfind. exact Hfind. }
    destruct Hin as [->|[]]. cbn [filter]. now rewrite Z.eqb_refl.
Qed.

(** The store the [POST] route leaves: the one it found, or that store with
    the voter's row inserted, after their old row was deleted if they had
    one. *)
Lemma vote_post_store now eventId recIdParam nickname s :
  let s' := snd (VoteRoute.POST now eventId recIdParam nickname s) in
  s' = s \/
  (exists rid,
      find (vote_where None eventId nickname) (votes s) = None /\
      s' = voteAdded (newVote now rid eventId nickname s) s) \/
  (exists rid old,
      find (vote_where None eventId nickname) (votes s) = Some old /\
      s' = voteAdded (newVote now rid eventId nickname (voteRemoved (Vote.id old) s))
             (voteRemoved (Vote.id old) s)).
Proof.
  intros s'. subst s'.
  remember (VoteRoute.POST now eventId recIdParam nickname s) as answer eqn:Ha.
  revert Ha.
  unfold VoteRoute.POST, VoteRoute.POST_body, VoteRoute.POST_bodyWith, handler.
  destruct (negb (nicknameSchema nickname)); [intros ->; left; reflexivity|].
  destruct (recommendationIdSchema recIdParam) as [rid|];
    [|intros ->; left; reflexivity].
  unfold VoteRoute.guarded. unfold bind at 1. unfold event_findUnique at 1.
  destruct (find (event_where eventId (Some now)) (events s)) as [event|];
    [|intros ->; left; reflexivity].
  unfold bind at 1. unfold include_participants at 1.
  destruct (negb (EventStatus_eqb (Event.status event) VOTING));
    [intros ->; left; reflexivity|].
  destruct (negb (existsb _ _)); [intros ->; left; reflexivity|].
  unfold bind at 1. unfold recommendation_findFirst at 1.
  destruct (find _ (recommendations s)); [|intros ->; left; reflexivity].
  unfold bind at 1. unfold transaction; try unfold VoteRoute.castVote; unfold VoteRoute.castVoteWith.
  unfold bind at 1. unfold vote_findFirst at 1.
  destruct (find (vote_where None eventId nickname) (votes s)) as [old|] eqn:Hfind.
  - destruct (Vote.recommendationId old =? rid); [intros ->; left; reflexivity|].
    unfold bind at 1. unfold vote_delete at 1.
    destruct (existsb _ (votes s)); [|intros ->; left; reflexivity].
    intros ->. right; right. exists rid, old. split; reflexivity.
  - intros ->. right; left. exists rid. split; reflexivity.
Qed.

Lemma vote_delete_store now eventId recIdParam nickname s :
  let s' := snd (VoteRoute.DELETE now eventId recIdParam nickname s) in
  s' = s \/ exists old, s' = voteRemoved (Vote.id old) s.
Proof.
  intros s'. subst s'.
  remember (VoteRoute.DELETE now eventId recIdParam nickname s) as answer eqn:Ha.
  revert Ha.
  unfold VoteRoute.DELETE, VoteRoute.DELETE_body, handler.
  destruct (negb (nicknameSchema nickname)); [intros ->; left; reflexivity|].
  destruct (recommendationIdSchema recIdParam) as [rid|];
    [|intros ->; left; reflexivity].
  unfold VoteRoute.guarded. unfold bind at 1. unfold event_findUnique at 1.
  destruct (find (event_where eventId (Some now)) (events s)) as [event|];
    [|intros ->; left; reflexivity].
  unfold bind at 1. unfold include_participants at 1.
  destruct (negb (EventStatus_eqb (Event.status event) VOTING));
    [intros ->; left; reflexivity|].
  destruct (negb (existsb _ _)); [intros ->; left; reflexivity|].
  unfold bind at 1. unfold vote_findFirst at 1.
  destruct (find _ (votes s)) as [old|]; [|intros ->; left; reflexivity].
  unfold bind at 1. unfold vote_delete at 1.
  destruct (existsb _ (votes s)); [|intros ->; left; reflexivity].
  intros ->. right. exists old. reflexivity.
Qed.

Lemma serve_keeps_invariant s r : atMostOneVote s -> atMostOneVote (serve s r).
Proof.
  intros H. destruct r as [now eventId recIdParam nickname|now eventId recIdParam nickname];
    cbn [serve].
  - destruct (vote_post_store now eventId recIdParam nickname s)
      as [->|[(rid & Hnone & ->)|(rid & old & Hold & ->)]].
    + exact H.
    + apply atMostOneVote_added; [exact H|].
      now apply find_none_filter.
    + apply atMostOneVote_added.
      * now apply atMostOneVote_removed.
      * now apply votesBy_removed.
  - destruct (vote_delete_store now eventId recIdParam nickname s) as [->|(old & ->)].
    + exact H.
    + now apply atMostOneVote_removed.
Qed.

Lemma includes_in xs x : In x xs -> includes xs x = true.
Proof.
  intros H. apply existsb_exists. exists x. split; [exact H|apply String.eqb_refl].
Qed.

Lemma includes_false xs x : includes xs x = false -> ~ In x xs.
Proof.
  intros H Hin. rewrite (includes_in xs x Hin) in H. discriminate.
Qed.

Lemma includes_true xs x : includes xs x = true -> In x xs.
Proof.
  unfold includes. intros H. apply existsb_exists in H.
  destruct H as (y & Hin & Heq). apply String.eqb_eq in Heq. now subst.
Qed.

(** What [prisma.$transaction] commits: everything, or nothing. *)
Lemma transaction_all_or_nothing {A} (body : DB A) s :
  (exists a s', body s = (inr a, s') /\ transaction body s = (inr a, s')) \/
  (exists e, transaction body s = (inl e, s)).
Proof.
  unfold transaction. destruct (body s) as [[e|a] s']; eauto.
Qed.

(** The transaction of a changed vote: the old row goes, the new one comes. *)
Lemma castVote_switch now eventId rid nickname s old :
  find (vote_where None eventId nickname) (votes s) = Some old ->
  Vote.recommendationId old <> rid ->
  exists s1 v s2,
    vote_delete (Vote.id old) s = (inr tt, s1) /\
    vote_create now rid eventId nickname s1 = (inr v, s2) /\
    transaction (VoteRoute.castVote now eventId rid nickname) s = (inr (false, v), s2) /\
    s1 = voteRemoved (Vote.id old) s /\
    s2 = voteAdded (newVote now rid eventId nickname s1) s1.
Proof.
  intros Hfind Hother.
  unfold transaction; try unfold VoteRoute.castVote; unfold VoteRoute.castVoteWith. unfold bind at 1.
  unfold vote_findFirst at 1. rewrite Hfind.
  rewrite (proj2 (Z.eqb_neq _ _) Hother).
  unfold bind, vote_delete. rewrite (find_existsb_key _ _ _ Hfind).
  eexists _, _, _. repeat split.
Qed.

Section VoteFacts.
Variable now : Time.
Variable eventId : string.
Variable rid : Z.
Variable nickname : string.
Variable s : Store.
Variable event : Event.t.
Hypothesis Hnick : nicknameSchema nickname = true.
Hypothesis Hrid : 0 < rid.
Hypothesis Hlive : find (event_where eventId (Some now)) (events s) = Some event.
Hypothesis Hvoting : Event.status event = VOTING.
Hypothesis Hpart :
  existsb (fun p => String.eqb (Participant.nickname p) nickname)
    (participantsOf eventId s) = true.

Lemma vote_answer rec :
  find (fun r => (Recommendation.id r =? rid) &&
                 String.eqb (Recommendation.eventId r) eventId)
    (recommendations s) = Some rec ->
  VoteRoute.POST now eventId (Some rid) nickname s =
  match find (vote_where None eventId nickname) (votes s) with
  | Some old =>
      if Vote.recommendationId old =? rid
      then (Failure ALREADY_VOTED 409, s)
      else
        let s1 := voteRemoved (Vote.id old) s in
        let s2 := voteAdded (newVote now rid eventId nickname s1) s1 in
        (Success (tallyOf rid nickname s2), s2)
  | None =>
      let s2 := voteAdded (newVote now rid eventId nickname s) s in
      (Success (tallyOf rid nickname s2), s2)
  end.
Proof.
  intros Hrec.
  unfold VoteRoute.POST, VoteRoute.POST_body, VoteRoute.POST_bodyWith, handler.
  rewrite Hnick. cbn [negb recommendationIdSchema].
  rewrite (proj2 (Z.leb_gt _ _) Hrid).
  unfold VoteRoute.guarded. unfold bind at 1. unfold event_findUnique at 1.
  rewrite Hlive. unfold bind at 1. unfold include_participants at 1.
  rewrite Hvoting, Hpart. cbn [EventStatus_eqb negb].
  unfold bind at 1. unfold recommendation_findFirst at 1. rewrite Hrec.
  unfold bind at 1.
  destruct (find (vote_where None eventId nickname) (votes s)) as [old|] eqn:Hfind.
  - destruct (Z.eqb_spec (Vote.recommendationId old) rid) as [Hsame|Hother].
    + unfold transaction; try unfold VoteRoute.castVote; unfold VoteRoute.castVoteWith. unfold bind at 1.
      unfold vote_findFirst at 1. rewrite Hfind.
      rewrite (proj2 (Z.eqb_eq _ _) Hsame). reflexivity.
    + change (VoteRoute.castVoteWith vote_create) with VoteRoute.castVote.
      destruct (castVote_switch now eventId rid nickname s old Hfind Hother)
        as (s1 & v & s2 & _ & _ & -> & -> & ->).
      reflexivity.
  - unfold transaction; try unfold VoteRoute.castVote; unfold VoteRoute.castVoteWith. unfold bind at 1.
    unfold vote_findFirst at 1. rewrite Hfind. reflexivity.
Qed.

Lemma unvote_answer :
  VoteRoute.DELETE now eventId (Some rid) nickname s =
  match find (vote_where (Some rid) eventId nickname) (votes s) with
  | Some old =>
      let s1 := voteRemoved (Vote.id old) s in
      (Success (tallyOf rid nickname s1), s1)
  | None => (Failure EVENT_NOT_FOUND 404, s)
  end.
Proof.
  unfold VoteRoute.DELETE, VoteRoute.DELETE_body, handler.
  rewrite Hnick. cbn [negb recommendationIdSchema].
  rewrite (proj2 (Z.leb_gt _ _) Hrid).
  unfold VoteRoute.guarded. unfold bind at 1. unfold event_findUnique at 1.
  rewrite Hlive. unfold bind at 1. unfold include_participants at 1.
  rewrite Hvoting, Hpart. cbn [EventStatus_eqb negb].
  unfold bind at 1. unfold vote_findFirst at 1.
  destruct (find (vote_where (Some rid) eventId nickname) (votes s)) as [old|] eqn:Hfind;
    [|reflexivity].
  unfold bind at 1. unfold vote_delete at 1.
  rewrite (find_existsb_key _ _ _ Hfind). reflexivity.
Qed.
End VoteFacts.


(** The lookups of the handlers on a request that is in order. *)
Lemma find_only {A} (f : A -> bool) l x :
  In x l -> f x = true -> (forall y, In y l -> f y = true -> y = x) ->
  find f l = Some x.
Proof.
  intros Hin Hx Hall. destruct (find f l) as [y|] eqn:E.
  - apply find_some in E. destruct E as [Hy Hfy]. now rewrite (Hall y Hy Hfy).
  - rewrite (find_none _ _ E x Hin) in Hx. discriminate.
Qed.

Lemma find_head_filter {A} (f : A -> bool) l :
  find f l = match filter f l with [] => None | x :: _ => Some x end.
Proof.
  induction l as [|x l IH]; simpl; [reflexivity|]. destruct (f x); auto.
Qed.

Lemma mayVote_checks now eventId rid nickname s :
  mayVote now eventId rid nickname s ->
  exists event rec,
    nicknameSchema nickname = true /\ 0 < rid /\
    find (event_where eventId (Some now)) (events s) = Some event /\
    Event.status event = VOTING /\
    existsb (fun p => String.eqb (Participant.nickname p) nickname)
      (participantsOf eventId s) = true /\
    find (fun r => (Recommendation.id r =? rid) &&
                   String.eqb (Recommendation.eventId r) eventId)
      (recommendations s) = Some rec.
Proof.
  intros (Hnick & Hrid & (event & Hin & Hid & Honly & Hlive & Hvoting) &
          (voter & Hv & Hve & Hvn) & (rec & Hr & Hri & Hre)).
  assert (Hrec : exists rec', find (fun r => (Recommendation.id r =? rid) &&
                                 String.eqb (Recommendation.eventId r) eventId)
                                (recommendations s) = Some rec').
  { destruct (find _ (recommendations s)) as [rec'|] eqn:E; [eauto|].
    pose proof (find_none _ _ E rec Hr) as Hno. cbn beta in Hno.
    rewrite Hri, Hre, Z.eqb_refl, String.eqb_refl in Hno. discriminate. }
  destruct Hrec as [rec' Hrec].
  exists event, rec'. split; [exact Hnick|]. split; [exact Hrid|].
  split; [|split; [exact Hvoting|split; [|exact Hrec]]].
  - apply find_only; [exact Hin| |].
    + unfold event_where. rewrite Hid, String.eqb_refl. now apply Z.ltb_lt.
    + intros e He Hwhere. apply Honly; [exact He|].
      unfold event_where in Hwhere. apply andb_true_iff in Hwhere.
      now apply String.eqb_eq.
  - apply existsb_exists. exists voter. split.
    + unfold participantsOf. apply filter_In. split; [exact Hv|].
      now apply String.eqb_eq.
    + now apply String.eqb_eq.
Qed.

(** The route with the insert of the transaction as a parameter, up to the
    transaction. *)
Lemma vote_answer_with create now eventId rid nickname s event rec :
  nicknameSchema nickname = true ->
  0 < rid ->
  find (event_where eventId (Some now)) (events s) = Some event ->
  Event.status event = VOTING ->
  existsb (fun p => String.eqb (Participant.nickname p) nickname)
    (participantsOf eventId s) = true ->
  find (fun r => (Recommendation.id r =? rid) &&
                 String.eqb (Recommendation.eventId r) eventId)
    (recommendations s) = Some rec ->
  VoteRoute.POSTWith create now eventId (Some rid) nickname s =
  handler
    (result <- transaction (VoteRoute.castVoteWith create now eventId rid nickname) ;;
     if fst result
     then ret (Failure ALREADY_VOTED 409)
     else VoteRoute.summary rid nickname)
    (Failure NETWORK_ERROR 500) s.
Proof.
  intros Hnick Hrid Hlive Hvoting Hpart Hrec.
  unfold VoteRoute.POSTWith, VoteRoute.POST_bodyWith, handler.
  rewrite Hnick. cbn [negb recommendationIdSchema].
  rewrite (proj2 (Z.leb_gt _ _) Hrid).
  unfold VoteRoute.guarded. unfold bind at 1. unfold event_findUnique at 1.
  rewrite Hlive. unfold bind at 1. unfold include_participants at 1.
  rewrite Hvoting, Hpart. cbn [EventStatus_eqb negb].
  unfold bind at 1. unfold recommendation_findFirst at 1. rewrite Hrec.
  reflexivity.
Qed.

Lemma only_vote_removed eventId nickname s old :
  votesOfVoter eventId nickname s = [old] ->
  votesOfVoter eventId nickname (voteRemoved (Vote.id old) s) = [].
Proof.
  unfold votesOfVoter, voteRemoved. cbn [votes set_votes]. intros Hone.
  rewrite filter_comm, Hone. cbn [filter]. now rewrite Z.eqb_refl.
Qed.

Lemma only_vote_added eventId nickname v s :
  votesOfVoter eventId nickname s = [] ->
  Vote.eventId v = eventId -> Vote.voterNickname v = nickname ->
  votesOfVoter eventId nickname (voteAdded v s) = [v].
Proof.
  unfold votesOfVoter, voteAdded. cbn [votes set_votes]. intros Hnone He Hn.
  rewrite filter_app, Hnone. cbn [filter app].
  now rewrite He, Hn, !String.eqb_refl.
Qed.


Lemma bobVoted_mayVote rid nickname voter rec :
  nicknameSchema nickname = true -> 0 < rid ->
  In voter [alice; bobRow] -> Participant.nickname voter = nickname ->
  In rec (recommendations voting) -> Recommendation.id rec = rid ->
  mayVote 3100 "evt00001" rid nickname bobVoted.
Proof.
  intros Hnick Hrid Hvoter Hname Hrec Hid.
  split; [exact Hnick|]. split; [exact Hrid|]. split; [|split].
  - exists lunchVoting. split; [left; reflexivity|]. split; [reflexivity|].
    split; [|split; reflexivity].
    intros e [<-|[]] _. reflexivity.
  - exists voter. split; [exact Hvoter|]. split; [|exact Hname].
    destruct Hvoter as [<-|[<-|[]]]; reflexivity.
  - exists rec. split; [exact Hrec|]. split; [exact Hid|].
    destruct Hrec as [<-|[<-|[<-|[]]]]; reflexivity.
Defined.


(** C3. Served one after the other, vote and unvote requests keep at most
    one vote row per event and voter.  A changed vote is the delete of the
    voter's row followed by the insert of the new one, after which the new
    row is the voter's one vote in the event; the two are one transaction:
    when the database rejects the insert, the delete is undone, the store
    is as the request found it, and the answer is NETWORK_ERROR (500). *)
Theorem one_live_vote_per_voter :
  (forall requests s,
      (forall eventId nickname,
          (length (votesOfVoter eventId nickname s) <= 1)%nat) ->
      forall eventId nickname,
        (length (votesOfVoter eventId nickname (fold_left serve requests s)) <= 1)%nat) /\
  (forall now eventId rid nickname s old,
      mayVote now eventId rid nickname s ->
      votesOfVoter eventId nickname s = [old] ->
      Vote.recommendationId old <> rid ->
      exists s1,
        vote_delete (Vote.id old) s = (inr tt, s1) /\
        votesOfVoter eventId nickname s1 = [] /\
        (exists v s2,
            vote_create now rid eventId nickname s1 = (inr v, s2) /\
            snd (VoteRoute.POST now eventId (Some rid) nickname s) = s2 /\
            votesOfVoter eventId nickname s2 = [v]) /\
        (forall create e s1',
            create now rid eventId nickname s1 = (inl e, s1') ->
            VoteRoute.POSTWith create now eventId (Some rid) nickname s =
            (Failure NETWORK_ERROR 500, s))) /\
  (forall now eventId recIdParam nickname s,
      VoteRoute.POSTWith vote_create now eventId recIdParam nickname s =
      VoteRoute.POST now eventId recIdParam nickname s).
Proof.
  split; [|split; [|reflexivity]].
  - intros requests s Hone.
    assert (H : atMostOneVote (fold_left serve requests s)).
    { assert (H0 : atMostOneVote s) by exact Hone. clear Hone. revert s H0.
      induction requests as [|r requests IH]; intros s H; cbn [fold_left].
      - exact H.
      - apply IH. now apply serve_keeps_invariant. }
    exact H.
  - intros now eventId rid nickname s old Hmay Hone Hother.
    destruct (mayVote_checks now eventId rid nickname s Hmay)
      as (event & rec & Hnick & Hrid & Hlive & Hvoting & Hpart & Hrec).
    assert (Hfind : find (vote_where None eventId nickname) (votes s) = Some old).
    { rewrite find_head_filter.
      change (filter (vote_where None eventId nickname) (votes s))
        with (votesOfVoter eventId nickname s).
      now rewrite Hone. }
    destruct (castVote_switch now eventId rid nickname s old Hfind Hother)
      as (s1 & v & s2 & Hdelete & Hcreate & Hcast & Hs1 & Hs2).
    exists s1. split; [exact Hdelete|]. split; [|split].
    + rewrite Hs1. now apply only_vote_removed.
    + exists v, s2. split; [exact Hcreate|]. split.
      * rewrite (vote_answer now eventId rid nickname s event Hnick Hrid Hlive
                   Hvoting Hpart rec Hrec), Hfind.
        rewrite (proj2 (Z.eqb_neq _ _) Hother). cbv zeta. cbn [snd].
        now rewrite Hs2, Hs1.
      * assert (Hv : v = newVote now rid eventId nickname s1).
        { unfold vote_create in Hcreate. now injection Hcreate as <- _. }
        rewrite Hs2, <- Hv.
        apply only_vote_added;
          [rewrite Hs1; now apply only_vote_removed|rewrite Hv..]; reflexivity.
    + intros create e s1' Hfail.
      rewrite (vote_answer_with create now eventId rid nickname s event rec
                 Hnick Hrid Hlive Hvoting Hpart Hrec).
      unfold handler, bind, transaction, VoteRoute.castVoteWith.
      unfold bind at 1. unfold vote_findFirst at 1. rewrite Hfind.
      rewrite (proj2 (Z.eqb_neq _ _) Hother).
      unfold bind at 1. rewrite Hdelete. unfold bind at 1. rewrite Hfail.
      reflexivity.
Qed.

Lemma one_live_vote_per_voter_witness :
  (forall eventId nickname,
      (length
         (votesOfVoter eventId nickname
            (fold_left serve
               [CastVote 3000 "evt00001" (Some 2) "Bob";
                CastVote 3100 "evt00001" (Some 1) "Bob";
                CastVote 3150 "evt00001" (Some 1) "Alice";
                RemoveVote 3200 "evt00001" (Some 1) "Bob"] voting)%Z) <= 1)%nat) /\
  votes (snd (VoteRoute.POST 3100 "evt00001" (Some 1) "Bob" bobVoted)) =
    [Vote.mk 2 1 "evt00001" "Bob" 3100] /\
  VoteRoute.POSTWith rejectedInsert 3100 "evt00001" (Some 1) "Bob" bobVoted =
    (Failure NETWORK_ERROR 500, bobVoted).
Proof.
  split; [|split].
  - apply (proj1 one_live_vote_per_voter). intros eventId nickname. simpl. lia.
  - reflexivity.
  - destruct (proj1 (proj2 one_live_vote_per_voter) 3100 "evt00001" 1 "Bob"
                bobVoted bobsVote
                (bobVoted_mayVote 1 "Bob" bobRow (recommended 0)
                   eq_refl eq_refl (or_intror (or_introl eq_refl)) eq_refl
                   (or_introl eq_refl) eq_refl)
                eq_refl) as (s1 & _ & _ & _ & Hatomic).
    + discriminate.
    + apply (Hatomic rejectedInsert (PrismaError "P1001") s1). reflexivity.
Defined.

(** ** A vote cast and taken back *)

Lemma find_none_weaker {A} (f g : A -> bool) l :
  (forall x, f x = true -> g x = true) ->
  find g l = None -> find f l = None.
Proof.
  intros Hfg. induction l as [|x l IH]; simpl; [reflexivity|].
  destruct (f x) eqn:Ef.
  - rewrite (Hfg x Ef). discriminate.
  - destruct (g x); [discriminate|exact IH].
Qed.

Lemma find_last {A} (f : A -> bool) l x :
  find f l = None -> f x = true -> find f (l ++ [x]) = Some x.
Proof.
  induction l as [|y l IH]; simpl; intros Hnone Hx.
  - now rewrite Hx.
  - destruct (f y); [discriminate|auto].
Qed.

Lemma filter_fresh_key l key :
  (forall v, In v l -> Vote.id v < key) ->
  filter (fun v => negb (Vote.id v =? key)) l = l.
Proof.
  induction l as [|x l IH]; simpl; intros Hfresh; [reflexivity|].
  rewrite (proj2 (Z.eqb_neq _ _)) by (specialize (Hfresh x (or_introl eq_refl)); lia).
  simpl. f_equal. apply IH. intros v Hv. apply Hfresh. now right.
Qed.

(** The tally route does not read the key counter. *)
Lemma tally_ignores_counter t eventId viewer s key :
  fst (VotesRoute.GET t eventId viewer (set_votes (votes s) key s)) =
  fst (VotesRoute.GET t eventId viewer s).
Proof.
  destruct s.
  unfold VotesRoute.GET, VotesRoute.GET_body, handler, bind, event_findUnique,
    include_participants, include_recommendations, ret, set_votes.
  cbn [events votes participants recommendations].
  destruct (find _ _); reflexivity.
Qed.

(** C8, as the code has it.  For a participant of a live event in VOTING
    status who has no vote in the event, casting a vote for a
    recommendation of the event and then taking it back succeeds twice and
    leaves the vote table, hence the tally of every recommendation, as it
    was before the vote. *)
Theorem vote_then_unvote_restores_tally
  now later eventId rid nickname s event event' rec :
  nicknameSchema nickname = true ->
  0 < rid ->
  find (event_where eventId (Some now)) (events s) = Some event ->
  Event.status event = VOTING ->
  find (event_where eventId (Some later)) (events s) = Some event' ->
  Event.status event' = VOTING ->
  existsb (fun p => String.eqb (Participant.nickname p) nickname)
    (participantsOf eventId s) = true ->
  find (fun r => (Recommendation.id r =? rid) &&
                 String.eqb (Recommendation.eventId r) eventId)
    (recommendations s) = Some rec ->
  voteKeysFresh s ->
  find (vote_where None eventId nickname) (votes s) = None ->
  exists t1 s1 t2 s2,
    VoteRoute.POST now eventId (Some rid) nickname s = (Success t1, s1) /\
    VoteRoute.DELETE later eventId (Some rid) nickname s1 = (Success t2, s2) /\
    votes s2 = votes s /\
    forall t viewer,
      fst (VotesRoute.GET t eventId viewer s2) =
      fst (VotesRoute.GET t eventId viewer s).
Proof.
  intros Hnick Hrid Hlive Hvoting Hlive' Hvoting' Hpart Hrec Hfresh Hnone.
  pose proof (vote_answer now eventId rid nickname s event Hnick Hrid Hlive
                Hvoting Hpart rec Hrec) as Hpost.
  rewrite Hnone in Hpost. cbv zeta in Hpost.
  set (v := newVote now rid eventId nickname s) in *.
  set (s1 := voteAdded v s) in *.
  pose proof (unvote_answer later eventId rid nickname s1 event' Hnick Hrid
                Hlive' Hvoting' Hpart) as Hdel.
  assert (Hfound : find (vote_where (Some rid) eventId nickname) (votes s1) = Some v).
  { unfold s1, voteAdded. cbn [votes set_votes]. apply find_last.
    - apply find_none_weaker with (g := vote_where None eventId nickname);
        [|exact Hnone].
      intros x Hx. unfold vote_where in *. apply andb_prop in Hx.
      destruct Hx as [Hx ->]. apply andb_prop in Hx. destruct Hx as [_ ->].
      reflexivity.
    - unfold vote_where, v, newVote. cbn [Vote.recommendationId Vote.eventId
                                            Vote.voterNickname].
      now rewrite Z.eqb_refl, !String.eqb_refl. }
  rewrite Hfound in Hdel. cbv zeta in Hdel.
  assert (Hs2 : voteRemoved (Vote.id v) s1 =
                set_votes (votes s) (nextVoteId s + 1) s).
  { unfold voteRemoved, s1, voteAdded, set_votes.
    cbn [votes events participants recommendations nextParticipantId
           nextRecommendationId nextVoteId].
    rewrite filter_app, (filter_fresh_key (votes s) (Vote.id v)) by exact Hfresh.
    cbn [filter]. rewrite Z.eqb_refl. cbn [negb]. now rewrite app_nil_r. }
  eexists _, s1, _, _. split; [exact Hpost|]. split; [exact Hdel|].
  rewrite Hs2. split; [reflexivity|].
  intros t viewer. apply tally_ignores_counter.
Qed.

Lemma vote_then_unvote_restores_tally_witness :
  exists t1 s1 t2 s2,
    VoteRoute.POST 3000 "evt00001" (Some 2) "Bob" voting = (Success t1, s1) /\
    VoteRoute.DELETE 3050 "evt00001" (Some 2) "Bob" s1 = (Success t2, s2) /\
    votes s2 = votes voting /\
    forall t viewer,
      fst (VotesRoute.GET t "evt00001" viewer s2) =
      fst (VotesRoute.GET t "evt00001" viewer voting).
Proof.
  apply (vote_then_unvote_restores_tally 3000 3050 "evt00001" 2 "Bob" voting
           (applyData (votingStarted 2500) (applyData nowReady lunch))
           (applyData (votingStarted 2500) (applyData nowReady lunch))
           (recommendationRow 2500 2
              (recommendationData "evt00001"
                 (LLM.mkItem 2 "Large indoor mall" "Shopping mall"
                    "Climate-controlled space with plenty of seating and food."
                    "Big malls are typically close to major roads and bus lines, keeping access fair."
                    ("31.2304", "121.4737")
                    [mkDistanceInfo "All participants" "About 20-40 minutes"
                       "Multiple transport options" None None None]
                    ["Indoor environment"; "Easy parking"; "Many choices"] "6.5"))));
    try reflexivity.
  intros v Hv. vm_compute in Hv. contradiction.
Defined.

(** C8, as stated, fails for a voter who already had a vote: Bob, whose
    vote is on the second recommendation, votes for the first and takes
    that vote back; both requests succeed and his earlier vote is gone
    from the tally. *)
Lemma vote_then_unvote_drops_earlier_vote :
  let s1 := snd (VoteRoute.POST 3100 "evt00001" (Some 1) "Bob" bobVoted) in
  let s2 := snd (VoteRoute.DELETE 3200 "evt00001" (Some 1) "Bob" s1) in
  (exists t1, fst (VoteRoute.POST 3100 "evt00001" (Some 1) "Bob" bobVoted) = Success t1) /\
  (exists t2, fst (VoteRoute.DELETE 3200 "evt00001" (Some 1) "Bob" s1) = Success t2) /\
  map VotesRoute.voteCount
    (match fst (VotesRoute.GET 3300 "evt00001" None bobVoted) with
     | Success d => VotesRoute.recommendations d
     | Failure _ _ => []
     end) = [0; 1; 0] /\
  map VotesRoute.voteCount
    (match fst (VotesRoute.GET 3300 "evt00001" None s2) with
     | Success d => VotesRoute.recommendations d
     | Failure _ _ => []
     end) = [0; 0; 0] /\
  fst (VotesRoute.GET 3300 "evt00001" None s2) <>
  fst (VotesRoute.GET 3300 "evt00001" None bobVoted).
Proof.
  vm_compute. repeat split; try (eexists; reflexivity). discriminate.
Qed.

(** ** Expired events *)

Lemma find_expired eventId now s :
  expired eventId now s -> find (event_where eventId (Some now)) (events s) = None.
Proof.
  intros Hexp. destruct (find _ _) as [e|] eqn:Hfind; [|reflexivity].
  pose proof (find_where_id _ _ _ _ Hfind) as Hid.
  apply find_some in Hfind. destruct Hfind as [Hin Hw].
  specialize (Hexp e Hin Hid).
  unfold event_where in Hw. apply andb_prop in Hw. destruct Hw as [_ Hw].
  apply Z.ltb_lt in Hw. lia.
Qed.

Lemma existsb_expired eventId now s :
  expired eventId now s ->
  existsb (event_where eventId (Some now)) (events s) = false.
Proof.
  intros Hexp. destruct (existsb _ _) eqn:E; [|reflexivity].
  apply existsb_exists in E. destruct E as (e & Hin & Hw).
  unfold event_where in Hw. apply andb_prop in Hw. destruct Hw as [Hid Hw].
  apply String.eqb_eq in Hid. apply Z.ltb_lt in Hw.
  specialize (Hexp e Hin Hid). lia.
Qed.

Lemma filter_nil {A} (f : A -> bool) l :
  (forall x, In x l -> f x = false) -> filter f l = [].
Proof.
  induction l as [|x l IH]; simpl; intros H; [reflexivity|].
  rewrite (H x (or_introl eq_refl)). apply IH. intros y Hy. apply H. now right.
Qed.

(** C5, as the code has it.  When every row with the event's id has
    expired, whatever its status, each route answers as it does when no
    row has the id: join, retry, vote, unvote, tally, finalize and read
    answer a validated request with EVENT_NOT_FOUND (404) and write
    nothing; the two list routes answer with success and an empty list. *)
Theorem expired_event_is_absent now eventId s :
  expired eventId now s ->
  (forall random dateNow body,
      joinEventSchema body = true ->
      ParticipantsRoute.POST now random dateNow eventId body s =
      ((Failure EVENT_NOT_FOUND 404, None), s)) /\
  (forall llm creatorNickname,
      nicknameSchema creatorNickname = true ->
      RetryRoute.POST llm now eventId (Some creatorNickname) s =
      (Failure EVENT_NOT_FOUND 404, s)) /\
  (forall rid nickname,
      nicknameSchema nickname = true -> 0 < rid ->
      VoteRoute.POST now eventId (Some rid) nickname s =
      (Failure EVENT_NOT_FOUND 404, s)) /\
  (forall rid nickname,
      nicknameSchema nickname = true -> 0 < rid ->
      VoteRoute.DELETE now eventId (Some rid) nickname s =
      (Failure EVENT_NOT_FOUND 404, s)) /\
  (forall viewer,
      VotesRoute.GET now eventId viewer s = (Failure EVENT_NOT_FOUND 404, s)) /\
  (forall finalLocationId creatorNickname,
      positiveSchema finalLocationId = true ->
      nicknameSchema creatorNickname = true ->
      FinalizeRoute.POST now eventId finalLocationId creatorNickname s =
      (Failure EVENT_NOT_FOUND 404, s)) /\
  EventRoute.GET now eventId s = (Failure EVENT_NOT_FOUND 404, s) /\
  ParticipantsRoute.GET now eventId s = (Success [], s) /\
  RecommendationsRoute.GET now eventId s = (Success [], s).
Proof.
  intros Hexp. pose proof (find_expired eventId now s Hexp) as Hnone.
  repeat split.
  - intros random dateNow body Hvalid.
    unfold ParticipantsRoute.POST, ParticipantsRoute.POST_body, handler.
    rewrite Hvalid. cbn [negb]. unfold bind, event_findUnique. now rewrite Hnone.
  - intros llm creatorNickname Hvalid.
    unfold RetryRoute.POST, RetryRoute.POST_body, handler.
    rewrite Hvalid. cbn [negb]. unfold bind, event_findUnique. now rewrite Hnone.
  - intros rid nickname Hvalid Hrid.
    unfold VoteRoute.POST, VoteRoute.POST_body, VoteRoute.POST_bodyWith, handler, VoteRoute.guarded.
    rewrite Hvalid. cbn [negb recommendationIdSchema].
    rewrite (proj2 (Z.leb_gt _ _) Hrid).
    unfold bind, event_findUnique. now rewrite Hnone.
  - intros rid nickname Hvalid Hrid.
    unfold VoteRoute.DELETE, VoteRoute.DELETE_body, handler, VoteRoute.guarded.
    rewrite Hvalid. cbn [negb recommendationIdSchema].
    rewrite (proj2 (Z.leb_gt _ _) Hrid).
    unfold bind, event_findUnique. now rewrite Hnone.
  - intros viewer.
    unfold VotesRoute.GET, VotesRoute.GET_body, handler, bind, event_findUnique.
    now rewrite Hnone.
  - intros finalLocationId creatorNickname Hid Hvalid.
    unfold FinalizeRoute.POST, FinalizeRoute.POST_body, handler.
    rewrite Hid, Hvalid. cbn [negb andb]. unfold bind, event_findUnique.
    now rewrite Hnone.
  - unfold EventRoute.GET, EventRoute.GET_body, handler, bind, event_findUnique.
    now rewrite Hnone.
  - unfold ParticipantsRoute.GET, handler. rewrite filter_nil; [reflexivity|].
    intros p Hp. apply filter_In in Hp. destruct Hp as [_ Hp].
    apply String.eqb_eq in Hp. rewrite Hp. now apply existsb_expired.
  - unfold RecommendationsRoute.GET, handler. rewrite filter_nil; [reflexivity|].
    intros r Hr. apply filter_In in Hr. destruct Hr as [_ Hr].
    apply String.eqb_eq in Hr. rewrite Hr. now apply existsb_expired.
Qed.

Lemma expired_event_is_absent_witness :
  ParticipantsRoute.POST 6000 (fun _ => 5) 1730000000123 "evt00001"
    (mkJoinBody "Carol" "Addr C") bobVoted =
    ((Failure EVENT_NOT_FOUND 404, None), bobVoted) /\
  RetryRoute.POST llmOffline 6000 "evt00001" (Some "Alice") bobVoted =
    (Failure EVENT_NOT_FOUND 404, bobVoted) /\
  VoteRoute.POST 6000 "evt00001" (Some 1) "Alice" bobVoted =
    (Failure EVENT_NOT_FOUND 404, bobVoted) /\
  VoteRoute.DELETE 6000 "evt00001" (Some 2) "Bob" bobVoted =
    (Failure EVENT_NOT_FOUND 404, bobVoted) /\
  VotesRoute.GET 6000 "evt00001" (Some "Bob") bobVoted =
    (Failure EVENT_NOT_FOUND 404, bobVoted) /\
  FinalizeRoute.POST 6000 "evt00001" 2 "Alice" bobVoted =
    (Failure EVENT_NOT_FOUND 404, bobVoted) /\
  EventRoute.GET 6000 "evt00001" bobVoted = (Failure EVENT_NOT_FOUND 404, bobVoted) /\
  ParticipantsRoute.GET 6000 "evt00001" bobVoted = (Success [], bobVoted) /\
  RecommendationsRoute.GET 6000 "evt00001" bobVoted = (Success [], bobVoted).
Proof.
  destruct (expired_event_is_absent 6000 "evt00001" bobVoted)
    as (Hjoin & Hretry & Hvote & Hunvote & Htally & Hfinal & Hread & Hps & Hrecs).
  - intros e Hin _. vm_compute in Hin. destruct Hin as [<-|[]]. simpl. lia.
  - split; [apply Hjoin; reflexivity|].
    split; [apply Hretry; reflexivity|].
    split; [apply Hvote; reflexivity|].
    split; [apply Hunvote; reflexivity|].
    split; [apply Htally|].
    split; [apply Hfinal; reflexivity|].
    split; [exact Hread|].
    split; [exact Hps|exact Hrecs].
Defined.

(** C5, as stated, fails on the two list routes: at 6000 the lunch, which
    expired at 5000 with status VOTING, two participants and three
    recommendations, is listed with success and no rows, where the join
    route answers EVENT_NOT_FOUND. *)
Lemma listing_expired_event_succeeds :
  map Event.expiresAt (events bobVoted) = [5000] /\
  map Event.status (events bobVoted) = [VOTING] /\
  length (participantsOf "evt00001" bobVoted) = 2%nat /\
  length (recommendationsOf "evt00001" bobVoted) = 3%nat /\
  fst (ParticipantsRoute.GET 6000 "evt00001" bobVoted) = Success [] /\
  fst (RecommendationsRoute.GET 6000 "evt00001" bobVoted) = Success [] /\
  fst (ParticipantsRoute.GET 6000 "evt00001" bobVoted) <> Failure EVENT_NOT_FOUND 404 /\
  fst (fst (ParticipantsRoute.POST 6000 (fun _ => 5) 1730000000123 "evt00001"
              (mkJoinBody "Carol" "Addr C") bobVoted)) = Failure EVENT_NOT_FOUND 404.
Proof. vm_compute. repeat split. discriminate. Qed.

(** ** The nickname a join assigns *)

(** An admitted join answers with [joinData], whichever side of the
    threshold it lands on. *)
Lemma join_admitted now random dateNow eventId body s event :
  joinEventSchema body = true ->
  find (event_where eventId (Some now)) (events s) = Some event ->
  Event.status event = WAITING ->
  Z.of_nat (length (participantsOf eventId s)) < Event.expectedParticipants event ->
  exists task s',
    ParticipantsRoute.POST now random dateNow eventId body s =
    ((Success (joinData now random dateNow eventId body event s), task), s').
Proof.
  intros Hvalid Hlive Hw Hc.
  destruct (Z.eq_dec (Z.of_nat (length (participantsOf eventId s)) + 1)
              (Event.expectedParticipants event)) as [Heq|Hne].
  - destruct (join_admitted_threshold now random dateNow eventId body s event
                Hvalid Hlive Hw Heq) as (row & _ & Hpost).
    eexists _, _. exact Hpost.
  - eexists _, _.
    apply (join_admitted_below now random dateNow eventId body s event
             Hvalid Hlive Hw). lia.
Qed.

(** The last two characters of a string, and the whole string when it has
    fewer. *)
Lemma substring_all m s :
  (String.length s <= m)%nat -> String.substring 0 m s = s.
Proof.
  revert m. induction s as [|c s IH]; intros [|m] H; cbn in *;
    try reflexivity; try lia.
  f_equal. apply IH. lia.
Qed.

Lemma substring_skip front rest m :
  String.substring (String.length front) m (front ++ rest) =
  String.substring 0 m rest.
Proof. induction front as [|c front IH]; cbn; [reflexivity|exact IH]. Qed.

Lemma length_append (s1 s2 : string) :
  String.length (s1 ++ s2) = (String.length s1 + String.length s2)%nat.
Proof. induction s1 as [|c s1 IH]; cbn; [reflexivity|now rewrite IH]. Qed.

Lemma string_split_last2 s :
  (2 <= String.length s)%nat ->
  exists front suffix,
    s = (front ++ suffix)%string /\ String.length suffix = 2%nat.
Proof.
  induction s as [|c s IH]; cbn [String.length]; intros H; [lia|].
  destruct (le_lt_dec 2 (String.length s)) as [Hlong|Hshort].
  - destruct (IH Hlong) as (front & suffix & -> & Hlen).
    exists (String c front), suffix. split; [reflexivity|exact Hlen].
  - exists EmptyString, (String c s). split; [reflexivity|].
    cbn [String.length]. lia.
Qed.

Lemma substring_last2 s :
  exists front suffix,
    s = (front ++ suffix)%string /\
    String.substring (String.length s - 2) 2 s = suffix /\
    (String.length suffix = 2%nat \/
     (front = EmptyString /\ (String.length suffix < 2)%nat)).
Proof.
  destruct (le_lt_dec 2 (String.length s)) as [Hlong|Hshort].
  - destruct (string_split_last2 s Hlong) as (front & suffix & -> & Hlen).
    exists front, suffix. split; [reflexivity|]. split; [|now left].
    rewrite length_append, Hlen.
    replace (String.length front + 2 - 2)%nat with (String.length front) by lia.
    rewrite substring_skip. apply substring_all. lia.
  - exists EmptyString, s. split; [reflexivity|]. split; [|right; now split].
    replace (String.length s - 2)%nat with 0%nat by lia.
    apply substring_all. lia.
Qed.

Lemma append_suffix_unique front : forall front' suffix suffix',
  (front ++ suffix)%string = (front' ++ suffix')%string ->
  String.length suffix = String.length suffix' ->
  suffix = suffix'.
Proof.
  induction front as [|c front IH]; intros [|c' front'] suffix suffix' Heq Hlen;
    cbn in Heq.
  - exact Heq.
  - apply (f_equal String.length) in Heq. cbn in Heq.
    rewrite length_append in Heq. lia.
  - apply (f_equal String.length) in Heq. cbn in Heq.
    rewrite length_append in Heq. lia.
  - injection Heq as _ Heq. exact (IH _ _ _ Heq Hlen).
Qed.

(** C9. A requested nickname nobody uses is kept.  A used one becomes the
    base name, an underscore and a two-digit number from 10 to 99: the
    number of the first of the 90 draws whose name nobody uses, every
    earlier draw giving a used name; when the names of all 90 draws are
    used, the suffix is the last two characters of the timestamp in
    decimal (all of it if it has fewer).  The function is defined by
    recursion on the turns the loop has left, so it returns on every
    input.  An admitted join answers with the assigned nickname, the flag
    that it differs from the requested one, and the requested nickname
    (set apart when the flag is true, and equal to the assigned one when it
    is not). *)
Theorem nickname_assignment random dateNow :
  (forall k, 0 <= random k < 90) ->
  (forall base existing,
      let result := generateUniqueNickname random dateNow base existing in
      let drawn k := (base ++ "_" ++ toString (random k + 10))%string in
      (~ In base existing -> result = base) /\
      (In base existing ->
       (exists k,
           (k < 90)%nat /\ 10 <= random k + 10 <= 99 /\
           String.length (toString (random k + 10)) = 2%nat /\
           result = drawn k /\
           ~ In result existing /\
           forall j, (j < k)%nat -> In (drawn j) existing)
       \/ ((forall j, (j < 90)%nat -> In (drawn j) existing) /\
           exists front suffix,
             toString dateNow = (front ++ suffix)%string /\
             result = (base ++ "_" ++ suffix)%string /\
             (String.length suffix = 2%nat \/
              (front = EmptyString /\ (String.length suffix < 2)%nat))))) /\
  (forall now eventId body s event,
      joinEventSchema body = true ->
      find (event_where eventId (Some now)) (events s) = Some event ->
      Event.status event = WAITING ->
      Z.of_nat (length (participantsOf eventId s)) < Event.expectedParticipants event ->
      exists data task s',
        ParticipantsRoute.POST now random dateNow eventId body s =
          ((Success data, task), s') /\
        let assigned :=
          generateUniqueNickname random dateNow (jb_nickname body)
            (map Participant.nickname (participantsOf eventId s)) in
        ParticipantsRoute.assigned_nickname data = assigned /\
        ParticipantsRoute.nickname (ParticipantsRoute.participant data) = assigned /\
        ParticipantsRoute.nickname_modified data =
          negb (String.eqb (jb_nickname body) assigned) /\
        ParticipantsRoute.original_nickname data =
          (if ParticipantsRoute.nickname_modified data
           then Some (jb_nickname body) else None) /\
        or_else (ParticipantsRoute.original_nickname data)
          (ParticipantsRoute.assigned_nickname data) = jb_nickname body).
Proof.
  intros Hrange. split.
  - intros base existing result drawn. subst result.
    unfold generateUniqueNickname. split.
    + intros Hfree. destruct (includes existing base) eqn:E; [|reflexivity].
      exfalso. apply Hfree. now apply includes_true.
    + intros Hused. rewrite (includes_in _ _ Hused). cbn [negb].
      destruct (retryLoop_result random dateNow base existing maxAttempts 0%nat)
        as [(k & Hk & Hres & Hfree & Hbefore)|[Hall Hres]].
      * unfold maxAttempts. lia.
      * intros j Hj. lia.
      * left. exists k. specialize (Hrange k). unfold maxAttempts in Hk.
        split; [lia|]. split; [lia|].
        split; [apply two_digit_suffix; lia|].
        split; [exact Hres|]. split; [now apply includes_false|].
        intros j Hj. apply includes_true. now apply Hbefore.
      * right. split.
        -- intros j Hj. apply includes_true. now apply Hall.
        -- destruct (substring_last2 (toString dateNow))
             as (front & suffix & Hsplit & Hslice & Hlen).
           exists front, suffix. split; [exact Hsplit|]. split; [|exact Hlen].
           rewrite Hres. unfold timestampName, slice_last2. now rewrite Hslice.
  - intros now eventId body s event Hvalid Hlive Hw Hc.
    destruct (join_admitted now random dateNow eventId body s event
                Hvalid Hlive Hw Hc) as (task & s' & Hpost).
    eexists _, task, s'. split; [exact Hpost|].
    cbn [joinData ParticipantsRoute.assigned_nickname
           ParticipantsRoute.nickname_modified ParticipantsRoute.original_nickname
           ParticipantsRoute.participant].
    unfold assignedNickname. repeat split.
    destruct (String.eqb_spec (jb_nickname body)
                (generateUniqueNickname random dateNow (jb_nickname body)
                   (map Participant.nickname (participantsOf eventId s))))
      as [Heq|Hne]; cbn [negb or_else]; [symmetry; exact Heq|reflexivity].
Qed.

Lemma nickname_assignment_witness :
  generateUniqueNickname (fun _ => 5) 1730000000123 "Bob" ["Alice"] = "Bob" /\
  generateUniqueNickname (fun _ => 5) 1730000000123 "Alice" ["Alice"] = "Alice_15" /\
  generateUniqueNickname (fun _ => 5) 1730000000123 "Alice" ["Alice"; "Alice_15"] =
    "Alice_23" /\
  exists data task s',
    ParticipantsRoute.POST 2000 (fun _ => 5) 1730000000123 "evt00001"
      (mkJoinBody "Alice" "Addr B") created = ((Success data, task), s') /\
    ParticipantsRoute.assigned_nickname data = "Alice_15" /\
    ParticipantsRoute.nickname (ParticipantsRoute.participant data) = "Alice_15" /\
    ParticipantsRoute.nickname_modified data = true /\
    ParticipantsRoute.original_nickname data = Some "Alice".
Proof.
  destruct (nickname_assignment (fun _ => 5) 1730000000123) as [Hname Hjoin].
  { intros k. lia. }
  split; [|split; [|split]].
  - apply (proj1 (Hname "Bob" ["Alice"])). intros [H|[]]. discriminate.
  - destruct (proj2 (Hname "Alice" ["Alice"]) (or_introl eq_refl))
      as [(k & _ & _ & _ & Hres & _)|[Hall _]].
    + exact Hres.
    + destruct (Hall 0%nat) as [H|[]]; [lia|discriminate].
  - destruct (proj2 (Hname "Alice" ["Alice"; "Alice_15"]) (or_introl eq_refl))
      as [(k & _ & _ & _ & Hres & Hfree & _)|[_ (front & suffix & Hsplit & Hres & Hlen)]].
    + exfalso. apply Hfree. rewrite Hres. right. left. reflexivity.
    + rewrite Hres. destruct Hlen as [Hlen|[-> Hlen]].
      * rewrite (append_suffix_unique front "17300000001" suffix "23");
          [reflexivity|symmetry; exact Hsplit|exact Hlen].
      * cbn in Hsplit. rewrite <- Hsplit in Hlen. vm_compute in Hlen. lia.
  - destruct (Hjoin 2000 "evt00001" (mkJoinBody "Alice" "Addr B") created lunch
                eq_refl eq_refl eq_refl eq_refl)
      as (data & task & s' & Hpost & Ha & Hn & Hm & Ho & _).
    exists data, task, s'. split; [exact Hpost|].
    cbv zeta in Ha, Hn, Hm, Ho.
    assert (Hassigned : generateUniqueNickname (fun _ => 5) 1730000000123
                          (jb_nickname (mkJoinBody "Alice" "Addr B"))
                          (map Participant.nickname
                             (participantsOf "evt00001" created)) = "Alice_15")
      by (vm_compute; reflexivity).
    rewrite Hassigned in Ha, Hn, Hm. rewrite Hm in Ho.
    split; [exact Ha|]. split; [exact Hn|]. split; [exact Hm|exact Ho].
Defined.

Example ninety_collisions :
  generateUniqueNickname (fun _ => 5) 1730000000123 "Alice" ["Alice"; "Alice_15"] =
  "Alice_23".
Proof. vm_compute. reflexivity. Qed.

Example collision_renamed :
  generateUniqueNickname (fun _ => 5) 1730000000123 "Alice" ["Alice"] = "Alice_15".
Proof. vm_compute. reflexivity. Qed.

(** * Further properties *)

(** ** The generator, the clock helper and the status table *)

(** X1. What the recommendation service answers, case by case.  Without
    a key it throws NO_API_KEY.  With one: an error thrown by the model
    call is thrown on when its message is NO_API_KEY or NO_RESULTS or
    contains INVALID_ADDRESSES, and is answered with the fallback set
    otherwise; a flagged response is treated as the error with its code
    as message (LLM_ERROR without one); an unflagged response with an
    empty or missing list as the error NO_RESULTS; an unflagged response
    with a non-empty list is returned with that list and its analysis (the
    stock sentence without one).  So the service returns a non-empty,
    unflagged list or throws one of the three errors; the fallback set is
    the three places ranked 1, 2, 3. *)
Theorem generator_outcomes apiKey generateObject request :
  let answer := generateRecommendations apiKey generateObject request in
  let known message :=
    message = "NO_API_KEY" \/ message = "NO_RESULTS" \/
    str_includes message "INVALID_ADDRESSES" = true in
  (apiKey = "" -> answer = inl (JsError "NO_API_KEY")) /\
  (apiKey <> "" ->
   (forall message,
       generateObject request = inl (JsError message) ->
       (known message -> answer = inl (JsError message)) /\
       (~ known message -> answer = inr getFallbackRecommendations)) /\
   (forall r,
       generateObject request = inr r ->
       let code := str_or (LLM.error_code r) "LLM_ERROR" in
       (LLM.error r = Some true ->
        (known code -> answer = inl (JsError code)) /\
        (~ known code -> answer = inr getFallbackRecommendations)) /\
       (LLM.error r <> Some true ->
        (LLM.recommendations r = None \/ LLM.recommendations r = Some [] ->
         answer = inl (JsError "NO_RESULTS")) /\
        (forall i recs,
            LLM.recommendations r = Some (i :: recs) ->
            answer =
            inr (LLM.mkResponse
                   (Some (str_or (LLM.analysis r)
                            "Recommendations derived from participant distribution."))
                   (Some (i :: recs)) None None None None))))) /\
  match answer with
  | inr response =>
      (exists i recs, LLM.recommendations response = Some (i :: recs)) /\
      LLM.error response = None
  | inl e => exists message, e = JsError message /\ known message
  end /\
  option_map (map (fun i => (LLM.rank i, LLM.name i)))
    (LLM.recommendations getFallbackRecommendations) =
  Some [(1, "Downtown shopping district"); (2, "Large indoor mall");
        (3, "Transit hub area")].
Proof.
  intros answer known.
  assert (Hknown : forall message,
             rethrown (JsError message) = true <-> known message).
  { intros message. unfold rethrown, known.
    rewrite !orb_true_iff, !String.eqb_eq. tauto. }
  assert (Hthrown : forall message, known message ->
             (if rethrown (JsError message)
              then inl (JsError message)
              else inr getFallbackRecommendations) =
             (inl (JsError message) : Awaited LLM.Response)).
  { intros message H. now rewrite (proj2 (Hknown message) H). }
  assert (Hfallback : forall message, ~ known message ->
             (if rethrown (JsError message)
              then inl (JsError message)
              else inr getFallbackRecommendations) =
             (inr getFallbackRecommendations : Awaited LLM.Response)).
  { intros message H. destruct (rethrown (JsError message)) eqn:E; [|reflexivity].
    exfalso. apply H. now apply Hknown. }
  split; [|split; [|split; [|reflexivity]]].
  - intros ->. reflexivity.
  - intros Hkey. apply String.eqb_neq in Hkey.
    subst answer. unfold generateRecommendations, callModel. rewrite Hkey.
    split.
    + intros message ->. split; [apply Hthrown|apply Hfallback].
    + intros r ->. split.
      * intros ->. cbn [or_else].
        split; [apply Hthrown|apply Hfallback].
      * intros Hflag.
        assert (Hno : or_else (LLM.error r) false = false).
        { destruct (LLM.error r) as [[|]|]; [congruence|reflexivity..]. }
        rewrite Hno. split.
        -- intros [-> | ->]; reflexivity.
        -- intros i recs ->. reflexivity.
  - subst answer. unfold generateRecommendations, callModel.
    destruct (String.eqb apiKey "").
    { exists "NO_API_KEY". split; [reflexivity|]. left. reflexivity. }
    assert (Hre : forall e, rethrown e = true ->
              exists message, e = JsError message /\ known message).
    { intros [m|c] H; [|discriminate]. exists m. split; [reflexivity|].
      now apply Hknown. }
    destruct (generateObject request) as [e|r].
    + destruct (rethrown e) eqn:E; [auto|]. simpl. eauto.
    + destruct (or_else (LLM.error r) false).
      * destruct (rethrown _) eqn:E; [auto|]. simpl. eauto.
      * destruct (LLM.recommendations r) as [[|i recs]|].
        -- destruct (rethrown _) eqn:E; [auto|]. simpl. eauto.
        -- simpl. eauto.
        -- destruct (rethrown _) eqn:E; [auto|]. simpl. eauto.
Qed.

(** X2. [formatRelativeTime] reads the age of a date in the largest unit
    that fits: under a minute (a date in the future included) it says
    "Just now", under an hour it counts whole minutes, under a day whole
    hours, and from a day on whole days, with the singular for one. *)
Theorem formatRelativeTime_units now date :
  let age := now - date in
  formatRelativeTime now date =
  if age <? 60000 then "Just now"
  else if age <? 3600000 then ago (age / 60000) "minute"
  else if age <? 86400000 then ago (age / 3600000) "hour"
  else ago (age / 86400000) "day".
Proof.
  intros age. unfold formatRelativeTime, ago. fold age.
  change (1000 * 60 * 60) with 3600000. change (1000 * 60) with 60000.
  assert (Hd : age / 3600000 / 24 = age / 86400000).
  { rewrite Z.div_div by lia. reflexivity. }
  rewrite Hd.
  destruct (Z.ltb_spec age 60000) as [H1|H1].
  - rewrite (proj2 (Z.ltb_ge 0 (age / 86400000))) by
      (Z.to_euclidean_division_equations; lia).
    rewrite (proj2 (Z.ltb_ge 0 (age / 3600000))) by
      (Z.to_euclidean_division_equations; lia).
    rewrite (proj2 (Z.leb_le (age / 60000) 0)) by
      (Z.to_euclidean_division_equations; lia).
    reflexivity.
  - destruct (Z.ltb_spec age 3600000) as [H2|H2].
    + rewrite (proj2 (Z.ltb_ge 0 (age / 86400000))) by
        (Z.to_euclidean_division_equations; lia).
      rewrite (proj2 (Z.ltb_ge 0 (age / 3600000))) by
        (Z.to_euclidean_division_equations; lia).
      rewrite (proj2 (Z.leb_gt (age / 60000) 0)) by
        (Z.to_euclidean_division_equations; lia).
      destruct (age / 60000 =? 1); reflexivity.
    + destruct (Z.ltb_spec age 86400000) as [H3|H3].
      * rewrite (proj2 (Z.ltb_ge 0 (age / 86400000))) by
          (Z.to_euclidean_division_equations; lia).
        rewrite (proj2 (Z.ltb_lt 0 (age / 3600000))) by
          (Z.to_euclidean_division_equations; lia).
        destruct (age / 3600000 =? 1); reflexivity.
      * rewrite (proj2 (Z.ltb_lt 0 (age / 86400000))) by
          (Z.to_euclidean_division_equations; lia).
        destruct (age / 86400000 =? 1); reflexivity.
Qed.

(** X3. [canTransitionTo] allows exactly the steps that leave a status
    other than EXPIRED for EXPIRED or for the next status of the
    lifecycle; an allowed step therefore never goes back and EXPIRED has
    no successor. *)
Theorem canTransitionTo_forward current next :
  (canTransitionTo current next = true <->
   current <> EXPIRED /\
   (next = EXPIRED \/ statusRank next = statusRank current + 1)) /\
  (canTransitionTo current next = true -> statusRank current < statusRank next) /\
  canTransitionTo EXPIRED next = false /\
  canTransitionTo current current = false.
Proof.
  repeat split; destruct current, next; simpl; intros;
    try discriminate; try reflexivity; try lia; try tauto;
    try (split; [discriminate|]; (left; reflexivity) || (right; reflexivity)).
  all: try (destruct H as [H [H'|H']]; try discriminate; try contradiction;
            simpl in H'; lia).
Qed.

(** ** The event page *)

(** The fold keeps the first summary with the greatest count: the ones
    before it have fewer votes, the ones after it no more. *)
Lemma keepMax_split rest : forall pre m mid,
  (forall v, In v pre -> VotesRoute.voteCount v < VotesRoute.voteCount m) ->
  (forall v, In v mid -> VotesRoute.voteCount v <= VotesRoute.voteCount m) ->
  exists before after,
    pre ++ m :: mid ++ rest = before ++ fold_left keepMax rest m :: after /\
    (forall v, In v before ->
               VotesRoute.voteCount v < VotesRoute.voteCount (fold_left keepMax rest m)) /\
    (forall v, In v after ->
               VotesRoute.voteCount v <= VotesRoute.voteCount (fold_left keepMax rest m)).
Proof.
  induction rest as [|c rest IH]; intros pre m mid Hpre Hmid; cbn [fold_left].
  - exists pre, mid. rewrite app_nil_r. auto.
  - unfold keepMax at 2 4 6.
    destruct (Z.ltb_spec (VotesRoute.voteCount m) (VotesRoute.voteCount c)) as [Hlt|Hge].
    + destruct (IH (pre ++ m :: mid) c []) as (before & after & Heq & Hb & Ha).
      * intros v Hv. apply in_app_or in Hv. destruct Hv as [Hv|[<-|Hv]].
        -- specialize (Hpre v Hv). lia.
        -- exact Hlt.
        -- specialize (Hmid v Hv). lia.
      * intros v [].
      * exists before, after. split; [|auto].
        rewrite <- Heq. rewrite <- !app_assoc. reflexivity.
    + destruct (IH pre m (mid ++ [c])) as (before & after & Heq & Hb & Ha).
      * exact Hpre.
      * intros v Hv. apply in_app_or in Hv. destruct Hv as [Hv|[<-|[]]]; auto.
      * exists before, after. split; [|auto].
        rewrite <- Heq. rewrite <- !app_assoc. reflexivity.
Qed.

Lemma maxVotes_bound votes :
  0 <= EventPage.maxVotes votes /\
  forall v, In v votes -> VotesRoute.voteCount v <= EventPage.maxVotes votes.
Proof.
  unfold EventPage.maxVotes.
  induction votes as [|x votes [IH0 IH]]; cbn [map fold_right]; split.
  - lia.
  - intros v Hv. destruct Hv.
  - lia.
  - intros v [<-|Hv]; [lia|]. specialize (IH v Hv). lia.
Qed.

Lemma maxVotes_attained votes w :
  In w votes -> 0 <= VotesRoute.voteCount w ->
  (forall v, In v votes -> VotesRoute.voteCount v <= VotesRoute.voteCount w) ->
  EventPage.maxVotes votes = VotesRoute.voteCount w.
Proof.
  intros Hin Hpos Hmax. apply Z.le_antisymm; [|now apply maxVotes_bound].
  unfold EventPage.maxVotes. clear Hin.
  induction votes as [|x votes IH]; cbn [map fold_right]; [exact Hpos|].
  apply Z.max_lub; [apply Hmax; now left|].
  apply IH. intros v Hv. apply Hmax. now right.
Qed.

Lemma find_first_key (votes : list VotesRoute.VoteSummary) before w after :
  votes = before ++ w :: after ->
  NoDup (map VotesRoute.recommendationId votes) ->
  find (fun v => VotesRoute.recommendationId v =? VotesRoute.recommendationId w) votes =
  Some w.
Proof.
  intros -> Hnd. induction before as [|x before IH]; cbn [app find].
  - now rewrite Z.eqb_refl.
  - cbn [app map] in Hnd. inversion Hnd as [|? ? Hnotin Hnd']; subst.
    destruct (Z.eqb_spec (VotesRoute.recommendationId x) (VotesRoute.recommendationId w))
      as [Heq|Hne]; [|auto].
    exfalso. apply Hnotin. rewrite Heq. apply in_map. apply in_or_app. right. now left.
Qed.

(** X4. With a nickname and the event loaded, the page asks to finalize
    the first recommendation of the tally with the greatest vote count,
    under the user's nickname, and that recommendation carries the winner
    flag of the page; it asks for nothing when no recommendation has a
    vote.  (Counts are lengths, hence not negative; the ids of the tally
    are distinct.) *)
Theorem finalize_request_is_top_voted userNickname nickname first rest :
  str_or_undefined userNickname = Some nickname ->
  (forall v, In v (first :: rest) -> 0 <= VotesRoute.voteCount v) ->
  NoDup (map VotesRoute.recommendationId (first :: rest)) ->
  match EventPage.handleFinalizeEvent userNickname true (first :: rest) with
  | inr (Some (finalLocationId, creatorNickname)) =>
      creatorNickname = nickname /\
      EventPage.isWinner (first :: rest) finalLocationId = true /\
      exists before winner after,
        first :: rest = before ++ winner :: after /\
        VotesRoute.recommendationId winner = finalLocationId /\
        0 < VotesRoute.voteCount winner /\
        (forall v, In v before ->
                   VotesRoute.voteCount v < VotesRoute.voteCount winner) /\
        (forall v, In v after ->
                   VotesRoute.voteCount v <= VotesRoute.voteCount winner)
  | inr None => forall v, In v (first :: rest) -> VotesRoute.voteCount v = 0
  | inl _ => False
  end.
Proof.
  intros Hnick Hpos Hnd.
  unfold EventPage.handleFinalizeEvent, EventPage.winnerRecommendation.
  rewrite Hnick. cbn [negb].
  change (fun max current : VotesRoute.VoteSummary =>
            if VotesRoute.voteCount max <? VotesRoute.voteCount current
            then current else max) with keepMax.
  destruct (keepMax_split rest [] first []) as (before & after & Heq & Hb & Ha);
    try (intros v []).
  cbn [app] in Heq.
  set (w := fold_left keepMax rest first) in *.
  assert (Hin : In w (first :: rest)).
  { rewrite Heq. apply in_or_app. right. now left. }
  assert (Hmax : forall v, In v (first :: rest) ->
                           VotesRoute.voteCount v <= VotesRoute.voteCount w).
  { intros v Hv. rewrite Heq in Hv. apply in_app_or in Hv.
    destruct Hv as [Hv|[<-|Hv]]; [specialize (Hb v Hv)|..]; auto; lia. }
  destruct (Z.eqb_spec (VotesRoute.voteCount w) 0) as [Hz|Hnz].
  - intros v Hv. specialize (Hmax v Hv). specialize (Hpos v Hv). lia.
  - pose proof (Hpos w Hin) as Hw. split; [reflexivity|]. split.
    + unfold EventPage.isWinner, EventPage.voteCountFor.
      rewrite (find_first_key (first :: rest) before w after Heq Hnd).
      rewrite (maxVotes_attained (first :: rest) w Hin Hw Hmax).
      rewrite Z.eqb_refl, andb_true_r. apply Z.ltb_lt. lia.
    + exists before, w, after. repeat split; auto. lia.
Qed.

Lemma finalize_request_is_top_voted_witness :
  match EventPage.handleFinalizeEvent (Some "Alice") true
          [VotesRoute.mkSummary 1 "Downtown shopping district" 1 ["Alice"] true;
           VotesRoute.mkSummary 2 "Large indoor mall" 2 ["Bob"; "Carol"] false;
           VotesRoute.mkSummary 3 "Transit hub area" 2 ["Dan"; "Eve"] false] with
  | inr (Some (finalLocationId, creatorNickname)) =>
      creatorNickname = "Alice" /\
      EventPage.isWinner
        [VotesRoute.mkSummary 1 "Downtown shopping district" 1 ["Alice"] true;
         VotesRoute.mkSummary 2 "Large indoor mall" 2 ["Bob"; "Carol"] false;
         VotesRoute.mkSummary 3 "Transit hub area" 2 ["Dan"; "Eve"] false]
        finalLocationId = true /\
      exists before winner after,
        [VotesRoute.mkSummary 1 "Downtown shopping district" 1 ["Alice"] true;
         VotesRoute.mkSummary 2 "Large indoor mall" 2 ["Bob"; "Carol"] false;
         VotesRoute.mkSummary 3 "Transit hub area" 2 ["Dan"; "Eve"] false] =
        before ++ winner :: after /\
        VotesRoute.recommendationId winner = finalLocationId /\
        0 < VotesRoute.voteCount winner /\
        (forall v, In v before ->
                   VotesRoute.voteCount v < VotesRoute.voteCount winner) /\
        (forall v, In v after ->
                   VotesRoute.voteCount v <= VotesRoute.voteCount winner)
  | inr None =>
      forall v,
        In v [VotesRoute.mkSummary 1 "Downtown shopping district" 1 ["Alice"] true;
              VotesRoute.mkSummary 2 "Large indoor mall" 2 ["Bob"; "Carol"] false;
              VotesRoute.mkSummary 3 "Transit hub area" 2 ["Dan"; "Eve"] false] ->
        VotesRoute.voteCount v = 0
  | inl _ => False
  end.
Proof.
  apply (finalize_request_is_top_voted (Some "Alice") "Alice"
           (VotesRoute.mkSummary 1 "Downtown shopping district" 1 ["Alice"] true)
           [VotesRoute.mkSummary 2 "Large indoor mall" 2 ["Bob"; "Carol"] false;
            VotesRoute.mkSummary 3 "Transit hub area" 2 ["Dan"; "Eve"] false]).
  - reflexivity.
  - intros v [<-|[<-|[<-|[]]]]; simpl; lia.
  - simpl. repeat constructor; simpl; intuition lia.
Defined.

(** ** Finalizing *)

Lemma find_unique_key recs r :
  NoDup (map Recommendation.id recs) -> In r recs ->
  find (fun x => Recommendation.id x =? Recommendation.id r) recs = Some r.
Proof.
  induction recs as [|x recs IH]; intros Hnd Hin; [destruct Hin|].
  cbn [map] in Hnd. inversion Hnd as [|? ? Hnotin Hnd']; subst. cbn [find].
  destruct Hin as [->|Hin]; [now rewrite Z.eqb_refl|].
  destruct (Z.eqb_spec (Recommendation.id x) (Recommendation.id r)) as [Heq|Hne];
    [|auto].
  exfalso. apply Hnotin. rewrite Heq. now apply in_map.
Qed.

(** The finalize route on a live event, check by check. *)
Lemma finalize_answer now eventId finalLocationId creatorNickname s event :
  positiveSchema finalLocationId = true ->
  nicknameSchema creatorNickname = true ->
  find (event_where eventId (Some now)) (events s) = Some event ->
  FinalizeRoute.POST now eventId finalLocationId creatorNickname s =
  if negb (EventStatus_eqb (Event.status event) VOTING)
  then (Failure VOTING_ENDED 403, s)
  else
    match filter Participant.isCreator (participantsOf eventId s) with
    | [] => (Failure NOT_PARTICIPANT 403, s)
    | creator :: _ =>
        if negb (String.eqb (Participant.nickname creator) creatorNickname)
        then (Failure NOT_PARTICIPANT 403, s)
        else
          match filter (fun r => Recommendation.id r =? finalLocationId)
                  (recommendationsOf eventId s) with
          | [] => (Failure EVENT_NOT_FOUND 404, s)
          | _ :: _ =>
              let s' := set_events
                          (updateWhere eventId (finalized now finalLocationId)
                             (events s)) s in
              match recommendationById finalLocationId s with
              | Some finalLocation =>
                  (Success (FinalizeRoute.mkFinalizeData finalLocation (Some now)
                              FINALIZED), s')
              | None => (Failure NETWORK_ERROR 500, s')
              end
          end
    end.
Proof.
  intros Hid Hnick Hlive.
  unfold FinalizeRoute.POST, FinalizeRoute.POST_body, handler.
  rewrite Hid, Hnick. cbn [andb negb].
  unfold bind at 1. unfold event_findUnique at 1. rewrite Hlive.
  unfold bind at 1. unfold include_participants at 1.
  unfold bind at 1.
  destruct (negb (EventStatus_eqb (Event.status event) VOTING)); [reflexivity|].
  destruct (filter Participant.isCreator (participantsOf eventId s))
    as [|creator others]; [reflexivity|].
  destruct (negb (String.eqb (Participant.nickname creator) creatorNickname));
    [reflexivity|].
  destruct (filter _ (recommendationsOf eventId s)) as [|r rs]; [reflexivity|].
  destruct (find_live_some _ _ _ _ Hlive) as [row Hrow].
  unfold bind at 1.
  rewrite (event_update_found eventId _ s row Hrow).
  cbv zeta. unfold recommendationById, set_events. cbn [recommendations].
  destruct (find _ (recommendations s)); reflexivity.
Qed.

(** X5. Finalizing a live event in VOTING status, by its creator, with a
    recommendation of the event: the answer carries that recommendation,
    every row of the event gets status FINALIZED, the end of voting and the
    recommendation's key as final location, and the other tables are left
    alone; the key stored thus names a recommendation of the same event.
    (Keys of recommendations are unique.) *)
Theorem finalize_effect now eventId creatorNickname s event creator others rec :
  nicknameSchema creatorNickname = true ->
  0 < Recommendation.id rec ->
  find (event_where eventId (Some now)) (events s) = Some event ->
  Event.status event = VOTING ->
  filter Participant.isCreator (participantsOf eventId s) = creator :: others ->
  Participant.nickname creator = creatorNickname ->
  In rec (recommendations s) ->
  Recommendation.eventId rec = eventId ->
  uniqueRecommendationKeys s ->
  exists s',
    FinalizeRoute.POST now eventId (Recommendation.id rec) creatorNickname s =
      (Success (FinalizeRoute.mkFinalizeData rec (Some now) FINALIZED), s') /\
    events s' =
      updateWhere eventId (finalized now (Recommendation.id rec)) (events s) /\
    find (event_where eventId (Some now)) (events s') =
      Some (applyData (finalized now (Recommendation.id rec)) event) /\
    (forall e, In e (events s') -> Event.id e = eventId ->
               Event.status e = FINALIZED /\
               Event.votingEndedAt e = Some now /\
               Event.finalLocationId e = Some (Recommendation.id rec)) /\
    participants s' = participants s /\
    recommendations s' = recommendations s /\
    votes s' = votes s.
Proof.
  intros Hnick Hid Hlive Hvoting Hcreator Hname Hin Hevent Hkeys.
  rewrite (finalize_answer now eventId (Recommendation.id rec) creatorNickname s
             event (proj2 (Z.ltb_lt _ _) Hid) Hnick Hlive).
  rewrite Hvoting, Hcreator, (proj2 (String.eqb_eq _ _) Hname).
  cbn [EventStatus_eqb negb].
  destruct (filter _ (recommendationsOf eventId s)) as [|r rs] eqn:Hf.
  { exfalso.
    assert (Hrec : In rec (filter (fun r => Recommendation.id r =? Recommendation.id rec)
                             (recommendationsOf eventId s))).
    { apply filter_In. split; [|apply Z.eqb_refl].
      apply filter_In. split; [exact Hin|]. now apply String.eqb_eq. }
    rewrite Hf in Hrec. destruct Hrec. }
  cbv zeta. unfold recommendationById.
  rewrite (find_unique_key _ rec Hkeys Hin).
  eexists. split; [reflexivity|]. cbn [events set_events participants
                                         recommendations votes].
  split; [reflexivity|]. split.
  { rewrite find_updateWhere, Hlive. cbn [option_map].
    now rewrite (proj2 (String.eqb_eq _ _) (find_where_id _ _ _ _ Hlive)). }
  split; [|auto].
  intros e He Heid.
  destruct (in_updateWhere _ _ _ _ He Heid) as (e0 & _ & ->). auto.
Qed.

Lemma finalize_effect_witness :
  exists s',
    FinalizeRoute.POST 3500 "evt00001" (Recommendation.id (recommended 1)) "Alice"
      bobVoted =
      (Success (FinalizeRoute.mkFinalizeData (recommended 1) (Some 3500) FINALIZED), s') /\
    events s' =
      updateWhere "evt00001" (finalized 3500 (Recommendation.id (recommended 1)))
        (events bobVoted) /\
    find (event_where "evt00001" (Some 3500)) (events s') =
      Some (applyData (finalized 3500 (Recommendation.id (recommended 1)))
              (applyData (votingStarted 2500) (applyData nowReady lunch))) /\
    (forall e, In e (events s') -> Event.id e = "evt00001" ->
               Event.status e = FINALIZED /\
               Event.votingEndedAt e = Some 3500 /\
               Event.finalLocationId e = Some (Recommendation.id (recommended 1))) /\
    participants s' = participants bobVoted /\
    recommendations s' = recommendations bobVoted /\
    votes s' = votes bobVoted.
Proof.
  apply (finalize_effect 3500 "evt00001" "Alice" bobVoted
           (applyData (votingStarted 2500) (applyData nowReady lunch))
           alice [] (recommended 1)); try reflexivity.
  - vm_compute. right. left. reflexivity.
  - unfold uniqueRecommendationKeys.
    replace (map Recommendation.id (recommendations bobVoted)) with [1; 2; 3]
      by (vm_compute; reflexivity).
    repeat constructor; simpl; intuition lia.
Defined.

(** X6. What the finalize route refuses, each time without writing: a
    body that fails its schema (VALIDATION_ERROR, 400); on a live event, a
    status other than VOTING (VOTING_ENDED, 403); then a nickname that is
    not the creator's (NOT_PARTICIPANT, 403); then a key that names no
    recommendation of the event (EVENT_NOT_FOUND, 404). *)
Theorem finalize_rejections now eventId finalLocationId creatorNickname s :
  let answer := FinalizeRoute.POST now eventId finalLocationId creatorNickname s in
  (positiveSchema finalLocationId && nicknameSchema creatorNickname = false ->
   answer = (Failure VALIDATION_ERROR 400, s)) /\
  (forall event,
      positiveSchema finalLocationId && nicknameSchema creatorNickname = true ->
      find (event_where eventId (Some now)) (events s) = Some event ->
      (Event.status event <> VOTING -> answer = (Failure VOTING_ENDED 403, s)) /\
      (Event.status event = VOTING ->
       isCreatorNickname (participantsOf eventId s) creatorNickname = false ->
       answer = (Failure NOT_PARTICIPANT 403, s)) /\
      (Event.status event = VOTING ->
       isCreatorNickname (participantsOf eventId s) creatorNickname = true ->
       (forall r, In r (recommendations s) ->
                  Recommendation.id r = finalLocationId ->
                  Recommendation.eventId r <> eventId) ->
       answer = (Failure EVENT_NOT_FOUND 404, s))).
Proof.
  intros answer. subst answer. split.
  - intros Hbad. unfold FinalizeRoute.POST, FinalizeRoute.POST_body, handler.
    now rewrite Hbad.
  - intros event Hvalid Hlive. apply andb_prop in Hvalid. destruct Hvalid as [Hid Hnick].
    rewrite (finalize_answer now eventId finalLocationId creatorNickname s event
               Hid Hnick Hlive).
    unfold isCreatorNickname. rewrite find_head_filter.
    destruct (EventStatus_eqb_spec (Event.status event) VOTING) as [Hv|Hv];
      cbn [negb]; repeat split; try tauto; intros _.
    + destruct (filter Participant.isCreator (participantsOf eventId s))
        as [|creator others]; [reflexivity|].
      intros ->. reflexivity.
    + destruct (filter Participant.isCreator (participantsOf eventId s))
        as [|creator others]; [discriminate|].
      intros -> Hnone. cbn [negb].
      rewrite filter_nil; [reflexivity|].
      intros r Hr. apply filter_In in Hr. destruct Hr as [Hr He].
      apply String.eqb_eq in He.
      destruct (Z.eqb_spec (Recommendation.id r) finalLocationId) as [Heq|]; [|reflexivity].
      exfalso. exact (Hnone r Hr Heq He).
Qed.

Lemma finalize_rejections_witness :
  FinalizeRoute.POST 3500 "evt00001" 0 "Alice" bobVoted =
    (Failure VALIDATION_ERROR 400, bobVoted) /\
  FinalizeRoute.POST 3500 "evt00001" 2 "Alice" bobJoined =
    (Failure VOTING_ENDED 403, bobJoined) /\
  FinalizeRoute.POST 3500 "evt00001" 2 "Bob" bobVoted =
    (Failure NOT_PARTICIPANT 403, bobVoted) /\
  FinalizeRoute.POST 3500 "evt00001" 7 "Alice" bobVoted =
    (Failure EVENT_NOT_FOUND 404, bobVoted).
Proof.
  split; [|split; [|split]].
  - apply (proj1 (finalize_rejections 3500 "evt00001" 0 "Alice" bobVoted)).
    reflexivity.
  - apply (proj1 (proj2 (finalize_rejections 3500 "evt00001" 2 "Alice" bobJoined)
                    (applyData nowReady lunch) eq_refl eq_refl)).
    discriminate.
  - apply (proj1 (proj2 (proj2 (finalize_rejections 3500 "evt00001" 2 "Bob" bobVoted)
                           (applyData (votingStarted 2500) (applyData nowReady lunch))
                           eq_refl eq_refl))); reflexivity.
  - apply (proj2 (proj2 (proj2 (finalize_rejections 3500 "evt00001" 7 "Alice" bobVoted)
                           (applyData (votingStarted 2500) (applyData nowReady lunch))
                           eq_refl eq_refl))); try reflexivity.
    intros r Hr Hid. vm_compute in Hr.
    destruct Hr as [<-|[<-|[<-|[]]]]; vm_compute in Hid; discriminate.
Defined.

(** The checks the two vote handlers share. *)
Lemma vote_guard {A} now eventId nickname (k : DB (Response A)) s event :
  find (event_where eventId (Some now)) (events s) = Some event ->
  VoteRoute.guarded now eventId nickname k s =
  if negb (EventStatus_eqb (Event.status event) VOTING)
  then (inr (Failure VOTING_NOT_STARTED 403), s)
  else if negb (existsb (fun p => String.eqb (Participant.nickname p) nickname)
                  (participantsOf eventId s))
  then (inr (Failure NOT_PARTICIPANT 403), s)
  else k s.
Proof.
  intros Hlive. unfold VoteRoute.guarded. unfold bind at 1.
  unfold event_findUnique at 1. rewrite Hlive. unfold bind at 1.
  unfold include_participants at 1.
  destruct (negb (EventStatus_eqb (Event.status event) VOTING)); [reflexivity|].
  destruct (negb (existsb _ _)); reflexivity.
Qed.

(** X7. A finalized event is closed to the request handlers: on a live
    event with status FINALIZED a join is refused with EVENT_FULL, a retry
    with EVENT_NOT_READY, a vote and an unvote with VOTING_NOT_STARTED and
    another finalize with VOTING_ENDED, and none of them writes. *)
Theorem finalized_is_closed now eventId s event :
  find (event_where eventId (Some now)) (events s) = Some event ->
  Event.status event = FINALIZED ->
  (forall random dateNow body,
      joinEventSchema body = true ->
      ParticipantsRoute.POST now random dateNow eventId body s =
      ((Failure EVENT_FULL 403, None), s)) /\
  (forall llm creatorNickname,
      nicknameSchema creatorNickname = true ->
      RetryRoute.POST llm now eventId (Some creatorNickname) s =
      (Failure EVENT_NOT_READY 400, s)) /\
  (forall rid nickname,
      nicknameSchema nickname = true -> 0 < rid ->
      VoteRoute.POST now eventId (Some rid) nickname s =
        (Failure VOTING_NOT_STARTED 403, s) /\
      VoteRoute.DELETE now eventId (Some rid) nickname s =
        (Failure VOTING_NOT_STARTED 403, s)) /\
  (forall finalLocationId creatorNickname,
      positiveSchema finalLocationId = true ->
      nicknameSchema creatorNickname = true ->
      FinalizeRoute.POST now eventId finalLocationId creatorNickname s =
      (Failure VOTING_ENDED 403, s)).
Proof.
  intros Hlive Hfinal. repeat split.
  - intros random dateNow body Hvalid.
    apply (join_rejected now random dateNow eventId body s event Hvalid Hlive).
    left. rewrite Hfinal. discriminate.
  - intros llm creatorNickname Hvalid.
    rewrite (retry_answer llm now eventId creatorNickname s event Hvalid Hlive).
    now rewrite Hfinal.
  - unfold VoteRoute.POST, VoteRoute.POST_body, VoteRoute.POST_bodyWith, handler.
    rewrite H. cbn [negb recommendationIdSchema].
    rewrite (proj2 (Z.leb_gt _ _) H0).
    rewrite (vote_guard now eventId nickname _ s event Hlive).
    now rewrite Hfinal.
  - unfold VoteRoute.DELETE, VoteRoute.DELETE_body, handler.
    rewrite H. cbn [negb recommendationIdSchema].
    rewrite (proj2 (Z.leb_gt _ _) H0).
    rewrite (vote_guard now eventId nickname _ s event Hlive).
    now rewrite Hfinal.
  - intros finalLocationId creatorNickname Hid Hnick.
    rewrite (finalize_answer now eventId finalLocationId creatorNickname s event
               Hid Hnick Hlive).
    now rewrite Hfinal.
Qed.

Lemma finalized_is_closed_witness :
  ParticipantsRoute.POST 3600 (fun _ => 5) 1730000000123 "evt00001"
    (mkJoinBody "Carol" "Addr C") finalizedLunch =
    ((Failure EVENT_FULL 403, None), finalizedLunch) /\
  RetryRoute.POST llmOffline 3600 "evt00001" (Some "Alice") finalizedLunch =
    (Failure EVENT_NOT_READY 400, finalizedLunch) /\
  VoteRoute.POST 3600 "evt00001" (Some 1) "Alice" finalizedLunch =
    (Failure VOTING_NOT_STARTED 403, finalizedLunch) /\
  VoteRoute.DELETE 3600 "evt00001" (Some 2) "Bob" finalizedLunch =
    (Failure VOTING_NOT_STARTED 403, finalizedLunch) /\
  FinalizeRoute.POST 3600 "evt00001" 1 "Alice" finalizedLunch =
    (Failure VOTING_ENDED 403, finalizedLunch).
Proof.
  destruct (finalized_is_closed 3600 "evt00001" finalizedLunch
              (applyData (finalized 3500 2)
                 (applyData (votingStarted 2500) (applyData nowReady lunch)))
              eq_refl eq_refl) as (Hjoin & Hretry & Hvote & Hfinal).
  split; [apply Hjoin; reflexivity|].
  split; [apply Hretry; reflexivity|].
  split; [apply (Hvote 1 "Alice"); reflexivity|].
  split; [apply (Hvote 2 "Bob"); reflexivity|].
  apply Hfinal; reflexivity.
Defined.

(** ** Votes: what is refused *)

(** X8. What the two vote handlers refuse, each time without writing, for
    a body that passes its schema: a route parameter that is not a positive
    number (VALIDATION_ERROR, 400); on a live event, a status other than
    VOTING (VOTING_NOT_STARTED, 403); then a nickname that is no
    participant of the event (NOT_PARTICIPANT, 403); then, for a vote, a
    key that names no recommendation of the event, and for an unvote, no
    vote of this voter on this recommendation (EVENT_NOT_FOUND, 404). *)
Theorem vote_rejections now eventId recIdParam nickname s :
  nicknameSchema nickname = true ->
  let cast := VoteRoute.POST now eventId recIdParam nickname s in
  let undo := VoteRoute.DELETE now eventId recIdParam nickname s in
  let participant :=
    existsb (fun p => String.eqb (Participant.nickname p) nickname)
      (participantsOf eventId s) in
  (recommendationIdSchema recIdParam = None ->
   cast = (Failure VALIDATION_ERROR 400, s) /\
   undo = (Failure VALIDATION_ERROR 400, s)) /\
  (forall rid event,
      recommendationIdSchema recIdParam = Some rid ->
      find (event_where eventId (Some now)) (events s) = Some event ->
      (Event.status event <> VOTING ->
       cast = (Failure VOTING_NOT_STARTED 403, s) /\
       undo = (Failure VOTING_NOT_STARTED 403, s)) /\
      (Event.status event = VOTING -> participant = false ->
       cast = (Failure NOT_PARTICIPANT 403, s) /\
       undo = (Failure NOT_PARTICIPANT 403, s)) /\
      (Event.status event = VOTING -> participant = true ->
       fst (recommendation_findFirst rid eventId s) = inr None ->
       cast = (Failure EVENT_NOT_FOUND 404, s)) /\
      (Event.status event = VOTING -> participant = true ->
       find (vote_where (Some rid) eventId nickname) (votes s) = None ->
       undo = (Failure EVENT_NOT_FOUND 404, s))).
Proof.
  intros Hnick cast undo participant. subst cast undo participant.
  unfold VoteRoute.POST, VoteRoute.POST_body, VoteRoute.POST_bodyWith, VoteRoute.DELETE,
    VoteRoute.DELETE_body, handler.
  rewrite Hnick. cbn [negb]. split.
  - intros ->. split; reflexivity.
  - intros rid event -> Hlive.
    rewrite !(vote_guard now eventId nickname _ s event Hlive).
    destruct (EventStatus_eqb_spec (Event.status event) VOTING) as [Hv|Hv];
      cbn [negb].
    + split; [intros Hne; contradiction|].
      split; [intros _ ->; split; reflexivity|].
      split.
      * intros _ ->. cbn [negb]. unfold bind at 1.
        unfold recommendation_findFirst. cbn [fst]. intros [= ->]. reflexivity.
      * intros _ ->. cbn [negb]. unfold bind at 1. unfold vote_findFirst.
        intros ->. reflexivity.
    + split; [intros _; split; reflexivity|].
      split; [intros Hv'; contradiction|].
      split; intros Hv'; contradiction.
Qed.

Lemma vote_rejections_witness :
  VoteRoute.POST 3100 "evt00001" (Some 0) "Bob" bobVoted =
    (Failure VALIDATION_ERROR 400, bobVoted) /\
  VoteRoute.DELETE 3100 "evt00001" None "Bob" bobVoted =
    (Failure VALIDATION_ERROR 400, bobVoted) /\
  VoteRoute.POST 3100 "evt00001" (Some 1) "Bob" bobJoined =
    (Failure VOTING_NOT_STARTED 403, bobJoined) /\
  VoteRoute.DELETE 3100 "evt00001" (Some 1) "Carol" bobVoted =
    (Failure NOT_PARTICIPANT 403, bobVoted) /\
  VoteRoute.POST 3100 "evt00001" (Some 7) "Bob" bobVoted =
    (Failure EVENT_NOT_FOUND 404, bobVoted) /\
  VoteRoute.DELETE 3100 "evt00001" (Some 1) "Bob" bobVoted =
    (Failure EVENT_NOT_FOUND 404, bobVoted).
Proof.
  split; [|split; [|split; [|split; [|split]]]].
  - apply (proj1 (vote_rejections 3100 "evt00001" (Some 0) "Bob" bobVoted eq_refl)).
    reflexivity.
  - apply (proj1 (vote_rejections 3100 "evt00001" None "Bob" bobVoted eq_refl)).
    reflexivity.
  - apply (proj1 (proj2 (vote_rejections 3100 "evt00001" (Some 1) "Bob" bobJoined
                           eq_refl) 1 (applyData nowReady lunch) eq_refl eq_refl)).
    discriminate.
  - apply (proj1 (proj2 (proj2 (vote_rejections 3100 "evt00001" (Some 1) "Carol"
                                  bobVoted eq_refl) 1
                           (applyData (votingStarted 2500) (applyData nowReady lunch))
                           eq_refl eq_refl))); reflexivity.
  - apply (proj1 (proj2 (proj2 (proj2 (vote_rejections 3100 "evt00001" (Some 7)
                                         "Bob" bobVoted eq_refl) 7
                           (applyData (votingStarted 2500) (applyData nowReady lunch))
                           eq_refl eq_refl)))); reflexivity.
  - apply (proj2 (proj2 (proj2 (proj2 (vote_rejections 3100 "evt00001" (Some 1)
                                         "Bob" bobVoted eq_refl) 1
                           (applyData (votingStarted 2500) (applyData nowReady lunch))
                           eq_refl eq_refl)))); reflexivity.
Defined.

(** ** Votes: what the store keeps *)

(** As [vote_post_store], with what the route has checked before it
    inserts: the recommendation is one of the event and the voter one of
    its participants. *)
Lemma vote_post_checked now eventId recIdParam nickname s :
  let s' := snd (VoteRoute.POST now eventId recIdParam nickname s) in
  s' = s \/
  exists rid s0,
    (s0 = s \/ exists old, s0 = voteRemoved (Vote.id old) s) /\
    s' = voteAdded (newVote now rid eventId nickname s0) s0 /\
    (exists r, In r (recommendations s) /\ Recommendation.id r = rid /\
               Recommendation.eventId r = eventId) /\
    (exists p, In p (participants s) /\ Participant.eventId p = eventId /\
               Participant.nickname p = nickname).
Proof.
  intros s'. subst s'.
  remember (VoteRoute.POST now eventId recIdParam nickname s) as answer eqn:Ha.
  revert Ha.
  unfold VoteRoute.POST, VoteRoute.POST_body, VoteRoute.POST_bodyWith, handler.
  destruct (negb (nicknameSchema nickname)); [intros ->; left; reflexivity|].
  destruct (recommendationIdSchema recIdParam) as [rid|];
    [|intros ->; left; reflexivity].
  unfold VoteRoute.guarded. unfold bind at 1. unfold event_findUnique at 1.
  destruct (find (event_where eventId (Some now)) (events s)) as [event|];
    [|intros ->; left; reflexivity].
  unfold bind at 1. unfold include_participants at 1.
  destruct (negb (EventStatus_eqb (Event.status event) VOTING));
    [intros ->; left; reflexivity|].
  destruct (existsb _ (participantsOf eventId s)) eqn:Hpart; cbn [negb];
    [|intros ->; left; reflexivity].
  unfold bind at 1. unfold recommendation_findFirst at 1.
  destruct (find _ (recommendations s)) as [r|] eqn:Hrec;
    [|intros ->; left; reflexivity].
  assert (Hr : exists r, In r (recommendations s) /\ Recommendation.id r = rid /\
                         Recommendation.eventId r = eventId).
  { apply find_some in Hrec. destruct Hrec as [Hin Hr].
    apply andb_prop in Hr. destruct Hr as [Hid Hev].
    exists r. split; [exact Hin|]. split; [now apply Z.eqb_eq|now apply String.eqb_eq]. }
  assert (Hp : exists p, In p (participants s) /\ Participant.eventId p = eventId /\
                         Participant.nickname p = nickname).
  { apply existsb_exists in Hpart. destruct Hpart as (p & Hin & Hn).
    apply filter_In in Hin. destruct Hin as [Hin He].
    exists p. split; [exact Hin|].
    split; [now apply String.eqb_eq|now apply String.eqb_eq]. }
  unfold bind at 1. unfold transaction; try unfold VoteRoute.castVote; unfold VoteRoute.castVoteWith.
  unfold bind at 1. unfold vote_findFirst at 1.
  destruct (find (vote_where None eventId nickname) (votes s)) as [old|].
  - destruct (Vote.recommendationId old =? rid); [intros ->; left; reflexivity|].
    unfold bind at 1. unfold vote_delete at 1.
    destruct (existsb _ (votes s)); [|intros ->; left; reflexivity].
    intros ->. right. exists rid, (voteRemoved (Vote.id old) s).
    split; [right; exists old; reflexivity|]. split; [reflexivity|]. auto.
  - intros ->. right. exists rid, s. split; [left; reflexivity|].
    split; [reflexivity|]. auto.
Qed.

Lemma removed_keeps now_s voteId :
  (votesReferToEvent now_s -> votesReferToEvent (voteRemoved voteId now_s)) /\
  (voteKeysFresh now_s -> voteKeysFresh (voteRemoved voteId now_s)) /\
  (uniqueVoteKeys now_s -> uniqueVoteKeys (voteRemoved voteId now_s)).
Proof.
  unfold votesReferToEvent, voteKeysFresh, uniqueVoteKeys, voteRemoved.
  cbn [votes set_votes recommendations participants nextVoteId].
  split; [|split].
  - intros H v Hv. apply H. apply filter_In in Hv. tauto.
  - intros H v Hv. apply H. apply filter_In in Hv. tauto.
  - intros Hnd. induction (votes now_s) as [|x l IH]; cbn [filter map]; [constructor|].
    cbn [map] in Hnd. inversion Hnd as [|? ? Hnotin Hnd']; subst.
    destruct (negb (Vote.id x =? voteId)); cbn [map]; [|auto].
    constructor; [|auto]. intros Hin. apply Hnotin.
    apply in_map_iff in Hin. destruct Hin as (y & Hy & Hin).
    apply filter_In in Hin. apply in_map_iff. exists y. tauto.
Qed.

Lemma added_keeps now rid eventId nickname s :
  (exists r, In r (recommendations s) /\ Recommendation.id r = rid /\
             Recommendation.eventId r = eventId) ->
  (exists p, In p (participants s) /\ Participant.eventId p = eventId /\
             Participant.nickname p = nickname) ->
  (votesReferToEvent s ->
   votesReferToEvent (voteAdded (newVote now rid eventId nickname s) s)) /\
  (voteKeysFresh s -> uniqueVoteKeys s ->
   voteKeysFresh (voteAdded (newVote now rid eventId nickname s) s) /\
   uniqueVoteKeys (voteAdded (newVote now rid eventId nickname s) s)).
Proof.
  intros Hr Hp.
  unfold votesReferToEvent, voteKeysFresh, uniqueVoteKeys, voteAdded, newVote.
  cbn [votes set_votes recommendations participants nextVoteId].
  split.
  - intros H v Hv. apply in_app_or in Hv. destruct Hv as [Hv|[<-|[]]]; [auto|].
    cbn [Vote.recommendationId Vote.eventId Vote.voterNickname]. auto.
  - intros Hfresh Hnd. split.
    + intros v Hv. apply in_app_or in Hv. destruct Hv as [Hv|[<-|[]]].
      * specialize (Hfresh v Hv). lia.
      * cbn [Vote.id]. lia.
    + rewrite map_app. cbn [map Vote.id].
      assert (Hn : NoDup (nextVoteId s :: map Vote.id (votes s))).
      { constructor; [|exact Hnd]. intros Hin. apply in_map_iff in Hin.
        destruct Hin as (v & Hv & Hin). specialize (Hfresh v Hin). lia. }
      apply NoDup_incl_NoDup with (l := nextVoteId s :: map Vote.id (votes s)).
      * exact Hn.
      * rewrite length_app. cbn [length]. lia.
      * intros x Hx. apply in_or_app. destruct Hx as [<-|Hx]; [right; now left|now left].
Qed.

Lemma serve_keeps_integrity s r :
  events (serve s r) = events s /\
  participants (serve s r) = participants s /\
  recommendations (serve s r) = recommendations s /\
  (votesReferToEvent s -> votesReferToEvent (serve s r)) /\
  (voteKeysFresh s /\ uniqueVoteKeys s ->
   voteKeysFresh (serve s r) /\ uniqueVoteKeys (serve s r)).
Proof.
  destruct r as [now eventId recIdParam nickname|now eventId recIdParam nickname];
    cbn [serve].
  - destruct (vote_post_checked now eventId recIdParam nickname s)
      as [->|(rid & s0 & Hs0 & -> & Hr & Hp)]; [tauto|].
    assert (H0 : events s0 = events s /\ participants s0 = participants s /\
                 recommendations s0 = recommendations s /\
                 (votesReferToEvent s -> votesReferToEvent s0) /\
                 (voteKeysFresh s /\ uniqueVoteKeys s ->
                  voteKeysFresh s0 /\ uniqueVoteKeys s0)).
    { destruct Hs0 as [->|(old & ->)]; [tauto|].
      pose proof (removed_keeps s (Vote.id old)). cbn. tauto. }
    destruct H0 as (He & Hps & Hrs & Hrefs & Hkeys).
    rewrite <- Hrs in Hr. rewrite <- Hps in Hp.
    pose proof (added_keeps now rid eventId nickname s0 Hr Hp) as [Ha Hb].
    split; [exact He|]. split; [exact Hps|]. split; [exact Hrs|].
    split; [tauto|]. intros Hk. apply Hb; tauto.
  - destruct (vote_delete_store now eventId recIdParam nickname s) as [->|(old & ->)];
      [tauto|].
    pose proof (removed_keeps s (Vote.id old)). cbn. tauto.
Qed.

(** X9. However many vote and unvote requests are served, the event,
    participant and recommendation tables are what they were; every vote
    row still names a recommendation of its event and a participant of its
    event if the rows did before; and the keys of the vote rows stay
    distinct and below the next key. *)
Theorem vote_requests_keep_integrity requests : forall s,
  let s' := fold_left serve requests s in
  events s' = events s /\
  participants s' = participants s /\
  recommendations s' = recommendations s /\
  (votesReferToEvent s -> votesReferToEvent s') /\
  (voteKeysFresh s /\ uniqueVoteKeys s -> voteKeysFresh s' /\ uniqueVoteKeys s').
Proof.
  induction requests as [|r requests IH]; intros s; cbn [fold_left]; [tauto|].
  specialize (IH (serve s r)). cbv zeta in IH.
  pose proof (serve_keeps_integrity s r) as Hs.
  destruct IH as (-> & -> & -> & Hrefs & Hkeys).
  destruct Hs as (-> & -> & -> & Hrefs' & Hkeys'). tauto.
Qed.

Lemma vote_requests_keep_integrity_witness :
  let s' := fold_left serve
              [CastVote 3000 "evt00001" (Some 2) "Bob";
               CastVote 3100 "evt00001" (Some 1) "Bob";
               CastVote 3150 "evt00001" (Some 1) "Alice";
               RemoveVote 3200 "evt00001" (Some 1) "Bob"] voting in
  events s' = events voting /\
  participants s' = participants voting /\
  recommendations s' = recommendations voting /\
  votesReferToEvent s' /\
  voteKeysFresh s' /\ uniqueVoteKeys s'.
Proof.
  destruct (vote_requests_keep_integrity
              [CastVote 3000 "evt00001" (Some 2) "Bob";
               CastVote 3100 "evt00001" (Some 1) "Bob";
               CastVote 3150 "evt00001" (Some 1) "Alice";
               RemoveVote 3200 "evt00001" (Some 1) "Bob"] voting)
    as (He & Hp & Hr & Hrefs & Hkeys).
  split; [exact He|]. split; [exact Hp|]. split; [exact Hr|].
  split.
  - apply Hrefs. intros v Hv. vm_compute in Hv. contradiction.
  - apply Hkeys. split.
    + intros v Hv. vm_compute in Hv. contradiction.
    + unfold uniqueVoteKeys.
      replace (votes voting) with (@nil Vote.t) by (vm_compute; reflexivity).
      constructor.
Defined.

(** ** Votes: counting *)

Lemma filter_all {A} (f : A -> bool) l :
  (forall x, In x l -> f x = true) -> filter f l = l.
Proof.
  induction l as [|x l IH]; intros H; cbn [filter]; [reflexivity|].
  rewrite (H x (or_introl eq_refl)). f_equal. apply IH. intros y Hy. apply H. now right.
Qed.

(** With distinct keys, deleting by key takes out one row. *)
Lemma remove_key_split l old :
  NoDup (map Vote.id l) -> In old l ->
  exists l1 l2,
    l = l1 ++ old :: l2 /\
    filter (fun v => negb (Vote.id v =? Vote.id old)) l = l1 ++ l2.
Proof.
  induction l as [|x l IH]; intros Hnd Hin; [destruct Hin|].
  cbn [map] in Hnd. inversion Hnd as [|? ? Hnotin Hnd']; subst.
  destruct Hin as [->|Hin].
  - exists [], l. split; [reflexivity|]. cbn [filter app].
    rewrite Z.eqb_refl. cbn [negb]. apply filter_all.
    intros y Hy. apply negb_true_iff, Z.eqb_neq. intros Heq.
    apply Hnotin. rewrite <- Heq. now apply in_map.
  - destruct (IH Hnd' Hin) as (l1 & l2 & -> & Hf).
    exists (x :: l1), l2. split; [reflexivity|]. cbn [filter app].
    rewrite Hf.
    destruct (Z.eqb_spec (Vote.id x) (Vote.id old)) as [Heq|Hne]; [|reflexivity].
    exfalso. apply Hnotin. rewrite Heq. apply in_map.
    apply in_or_app. right. now left.
Qed.

Section VoteCounting.
Variable now : Time.
Variable eventId : string.
Variable rid : Z.
Variable nickname : string.
Variable s : Store.
Variable event : Event.t.
Hypothesis Hnick : nicknameSchema nickname = true.
Hypothesis Hrid : 0 < rid.
Hypothesis Hlive : find (event_where eventId (Some now)) (events s) = Some event.
Hypothesis Hvoting : Event.status event = VOTING.
Hypothesis Hpart :
  existsb (fun p => String.eqb (Participant.nickname p) nickname)
    (participantsOf eventId s) = true.
Hypothesis Hkeys : uniqueVoteKeys s.

(** X10. A changed vote moves one vote: with distinct keys, when the voter's
    row names another recommendation, the vote succeeds, the vote table has
    as many rows as before, the recommendation voted for has one vote more,
    the one left has one vote less, and the votes of every other
    recommendation are the same rows. *)
Theorem vote_switch_moves_one_vote rec old :
  find (fun r => (Recommendation.id r =? rid) &&
                 String.eqb (Recommendation.eventId r) eventId)
    (recommendations s) = Some rec ->
  find (vote_where None eventId nickname) (votes s) = Some old ->
  Vote.recommendationId old <> rid ->
  exists tally s',
    VoteRoute.POST now eventId (Some rid) nickname s = (Success tally, s') /\
    length (votes s') = length (votes s) /\
    length (votesOfRecommendation rid s') = S (length (votesOfRecommendation rid s)) /\
    S (length (votesOfRecommendation (Vote.recommendationId old) s')) =
      length (votesOfRecommendation (Vote.recommendationId old) s) /\
    forall other, other <> rid -> other <> Vote.recommendationId old ->
                  votesOfRecommendation other s' = votesOfRecommendation other s.
Proof.
  intros Hrec Hold Hother.
  rewrite (vote_answer now eventId rid nickname s event Hnick Hrid Hlive Hvoting
             Hpart rec Hrec).
  rewrite Hold, (proj2 (Z.eqb_neq _ _) Hother). cbv zeta.
  eexists _, _. split; [reflexivity|].
  pose proof (find_some _ _ Hold) as [Hin _].
  destruct (remove_key_split (votes s) old Hkeys Hin) as (l1 & l2 & Hl & Hf).
  unfold votesOfRecommendation, voteAdded, voteRemoved, newVote.
  cbn [votes set_votes nextVoteId]. rewrite Hf, Hl.
  rewrite !filter_app, !length_app. cbn [filter length Vote.recommendationId].
  rewrite Z.eqb_refl, (proj2 (Z.eqb_neq _ _) Hother).
  assert (Hne : (rid =? Vote.recommendationId old) = false)
    by (apply Z.eqb_neq; congruence).
  rewrite Hne, ?Z.eqb_refl. cbn [length app].
  split; [lia|]. split; [lia|]. split; [lia|].
  intros other H1 H2. rewrite !filter_app. cbn [filter Vote.recommendationId].
  rewrite (proj2 (Z.eqb_neq _ _) (not_eq_sym H1)).
  rewrite (proj2 (Z.eqb_neq _ _) (not_eq_sym H2)).
  now rewrite app_nil_r.
Qed.

(** X11. An unvote takes one vote away: with distinct keys, when the voter
    has a vote on the recommendation, the unvote succeeds, its answer counts
    one vote less for the recommendation, the vote table has one row less,
    and the votes of every other recommendation are the same rows.  If
    moreover the voter has at most one vote in the event and the votes on
    the recommendation are votes of this event, the answer no longer shows
    the voter. *)
Theorem unvote_removes_one_vote old :
  find (vote_where (Some rid) eventId nickname) (votes s) = Some old ->
  exists tally s',
    VoteRoute.DELETE now eventId (Some rid) nickname s = (Success tally, s') /\
    VoteRoute.voteCount tally + 1 = Z.of_nat (length (votesOfRecommendation rid s)) /\
    S (length (votes s')) = length (votes s) /\
    (forall other, other <> rid ->
                   votesOfRecommendation other s' = votesOfRecommendation other s) /\
    ((length (votesBy eventId nickname s) <= 1)%nat ->
     (forall v, In v (votes s) -> Vote.recommendationId v = rid ->
                Vote.eventId v = eventId) ->
     VoteRoute.hasCurrentUserVoted tally = false).
Proof.
  intros Hold.
  rewrite (unvote_answer now eventId rid nickname s event Hnick Hrid Hlive Hvoting
             Hpart).
  rewrite Hold. cbv zeta. eexists _, _. split; [reflexivity|].
  pose proof (find_some _ _ Hold) as [Hin Hw].
  unfold vote_where in Hw. apply andb_prop in Hw. destruct Hw as [Hw Hn].
  apply andb_prop in Hw. destruct Hw as [Hr He].
  apply Z.eqb_eq in Hr. apply String.eqb_eq in He, Hn.
  destruct (remove_key_split (votes s) old Hkeys Hin) as (l1 & l2 & Hl & Hf).
  unfold tallyOf, votesOfRecommendation, voteRemoved.
  cbn [votes set_votes VoteRoute.voteCount VoteRoute.hasCurrentUserVoted].
  rewrite Hf, Hl. rewrite !filter_app, !length_app.
  cbn [filter length]. rewrite (proj2 (Z.eqb_eq _ _) Hr). cbn [length].
  split; [lia|]. split; [lia|]. split.
  - intros other H1. rewrite !filter_app. cbn [filter].
    rewrite Hr, (proj2 (Z.eqb_neq _ _) (not_eq_sym H1)). reflexivity.
  - intros Hone Hevent.
    destruct (includes _ nickname) eqn:Hinc; [|reflexivity]. exfalso.
    apply existsb_exists in Hinc. destruct Hinc as (n & Hn' & Heq).
    apply String.eqb_eq in Heq. subst n.
    apply in_map_iff in Hn'. destruct Hn' as (v & Hvn & Hv).
    rewrite <- filter_app in Hv. apply filter_In in Hv. destruct Hv as [Hv Hvr].
    apply Z.eqb_eq in Hvr.
    assert (Hmatch : forall x, In x (l1 ++ old :: l2) ->
                               Vote.recommendationId x = rid ->
                               Vote.voterNickname x = nickname ->
                               vote_where None eventId nickname x = true).
    { intros x Hx Hxr Hxn. unfold vote_where. cbn [andb].
      rewrite (Hevent x Hx Hxr), Hxn. now rewrite !String.eqb_refl. }
    unfold votesBy in Hone. rewrite Hl in Hone.
    rewrite filter_app in Hone. cbn [filter] in Hone.
    rewrite (Hmatch old) in Hone; [|apply in_or_app; right; now left|exact Hr|exact Hn].
    rewrite length_app in Hone. cbn [length] in Hone.
    assert (Hv' : In v (filter (vote_where None eventId nickname) l1) \/
                  In v (filter (vote_where None eventId nickname) l2)).
    { apply in_app_or in Hv. destruct Hv as [Hv|Hv]; [left|right];
        apply filter_In; (split; [exact Hv|]); apply Hmatch; auto;
        apply in_or_app; [now left|right; now right]. }
    destruct Hv' as [Hv'|Hv'];
      [destruct (filter _ l1)|destruct (filter _ l2)];
      try destruct Hv'; cbn [length] in Hone; lia.
Qed.
End VoteCounting.

Lemma vote_switch_moves_one_vote_witness :
  exists tally s',
    VoteRoute.POST 3100 "evt00001" (Some 1) "Bob" bobVoted = (Success tally, s') /\
    length (votes s') = length (votes bobVoted) /\
    length (votesOfRecommendation 1 s') = S (length (votesOfRecommendation 1 bobVoted)) /\
    S (length (votesOfRecommendation 2 s')) = length (votesOfRecommendation 2 bobVoted) /\
    forall other, other <> 1 -> other <> 2 ->
                  votesOfRecommendation other s' = votesOfRecommendation other bobVoted.
Proof.
  apply (vote_switch_moves_one_vote 3100 "evt00001" 1 "Bob" bobVoted
           (applyData (votingStarted 2500) (applyData nowReady lunch))
           eq_refl eq_refl eq_refl eq_refl eq_refl
           ltac:(unfold uniqueVoteKeys;
                 replace (map Vote.id (votes bobVoted)) with [1]
                   by (vm_compute; reflexivity);
                 repeat constructor; simpl; tauto)
           (recommended 0) (Vote.mk 1 2 "evt00001" "Bob" 3000));
    try reflexivity.
  simpl. lia.
Defined.

Lemma unvote_removes_one_vote_witness :
  exists tally s',
    VoteRoute.DELETE 3100 "evt00001" (Some 2) "Bob" bobVoted = (Success tally, s') /\
    VoteRoute.voteCount tally + 1 = Z.of_nat (length (votesOfRecommendation 2 bobVoted)) /\
    S (length (votes s')) = length (votes bobVoted) /\
    (forall other, other <> 2 ->
                   votesOfRecommendation other s' = votesOfRecommendation other bobVoted) /\
    VoteRoute.hasCurrentUserVoted tally = false.
Proof.
  destruct (unvote_removes_one_vote 3100 "evt00001" 2 "Bob" bobVoted
              (applyData (votingStarted 2500) (applyData nowReady lunch))
              eq_refl eq_refl eq_refl eq_refl eq_refl
              ltac:(unfold uniqueVoteKeys;
                    replace (map Vote.id (votes bobVoted)) with [1]
                      by (vm_compute; reflexivity);
                    repeat constructor; simpl; tauto)
              (Vote.mk 1 2 "evt00001" "Bob" 3000) eq_refl)
    as (tally & s' & Hans & Hcount & Hlen & Hothers & Hflag).
  exists tally, s'. split; [exact Hans|]. split; [exact Hcount|].
  split; [exact Hlen|]. split; [exact Hothers|].
  apply Hflag.
  - vm_compute. lia.
  - intros v Hv _. vm_compute in Hv. destruct Hv as [<-|[]]. reflexivity.
Defined.




(** ** The tally *)

Lemma in_insertBy {A} (key : A -> Z) x l y :
  In y (insertBy key x l) <-> y = x \/ In y l.
Proof.
  induction l as [|z l IH]; cbn [insertBy].
  - simpl. intuition congruence.
  - destruct (key x <=? key z); cbn [In]; [intuition congruence|].
    rewrite IH. intuition congruence.
Qed.

Lemma in_orderBy {A} (key : A -> Z) l y : In y (orderBy key l) <-> In y l.
Proof.
  induction l as [|x l IH]; cbn [orderBy fold_right]; [tauto|].
  fold (orderBy key l). rewrite in_insertBy, IH. cbn [In]. intuition congruence.
Qed.

Lemma NoDup_map_insertBy {A B} (f : A -> B) (key : A -> Z) x l :
  ~ In (f x) (map f l) -> NoDup (map f l) -> NoDup (map f (insertBy key x l)).
Proof.
  induction l as [|z l IH]; intros Hx Hnd; cbn [insertBy].
  - cbn [map]. constructor; [exact Hx|constructor].
  - destruct (key x <=? key z); [cbn [map]; now constructor|].
    cbn [map] in *. inversion Hnd as [|? ? Hz Hnd']; subst. constructor.
    + intros Hin. apply in_map_iff in Hin. destruct Hin as (y & Hy & Hin).
      apply in_insertBy in Hin. destruct Hin as [->|Hin].
      * apply Hx. left. symmetry. exact Hy.
      * apply Hz. rewrite <- Hy. now apply in_map.
    + apply IH; [|exact Hnd']. intros Hin. apply Hx. now right.
Qed.

Lemma NoDup_map_orderBy {A B} (f : A -> B) (key : A -> Z) l :
  NoDup (map f l) -> NoDup (map f (orderBy key l)).
Proof.
  induction l as [|x l IH]; intros Hnd; cbn [orderBy fold_right]; [constructor|].
  fold (orderBy key l). cbn [map] in Hnd. inversion Hnd as [|? ? Hx Hnd']; subst.
  apply NoDup_map_insertBy; [|auto].
  intros Hin. apply Hx. apply in_map_iff in Hin. destruct Hin as (y & Hy & Hin).
  apply in_orderBy in Hin. rewrite <- Hy. now apply in_map.
Qed.

Lemma NoDup_map_filter {A B} (f : A -> B) (p : A -> bool) l :
  NoDup (map f l) -> NoDup (map f (filter p l)).
Proof.
  induction l as [|x l IH]; intros Hnd; cbn [filter]; [constructor|].
  cbn [map] in Hnd. inversion Hnd as [|? ? Hx Hnd']; subst.
  destruct (p x); [|auto]. cbn [map]. constructor; [|auto].
  intros Hin. apply Hx. apply in_map_iff in Hin. destruct Hin as (y & Hy & Hin).
  apply filter_In in Hin. rewrite <- Hy. apply in_map. tauto.
Qed.

Lemma existsb_same_members {A} (f : A -> bool) l1 l2 :
  (forall x, In x l1 <-> In x l2) -> existsb f l1 = existsb f l2.
Proof.
  intros H. destruct (existsb f l1) eqn:E1, (existsb f l2) eqn:E2; try reflexivity.
  - apply existsb_exists in E1. destruct E1 as (x & Hx & Hf).
    assert (E : existsb f l2 = true) by (apply existsb_exists; exists x; split; [now apply H|exact Hf]).
    congruence.
  - apply existsb_exists in E2. destruct E2 as (x & Hx & Hf).
    assert (E : existsb f l1 = true) by (apply existsb_exists; exists x; split; [now apply H|exact Hf]).
    congruence.
Qed.

Lemma fold_left_sum (l : list VotesRoute.VoteSummary) : forall a,
  fold_left (fun sum rec => sum + VotesRoute.voteCount rec) l a =
  a + fold_right Z.add 0 (map VotesRoute.voteCount l).
Proof.
  induction l as [|x l IH]; intros a; cbn [fold_left map fold_right]; [lia|].
  rewrite IH. lia.
Qed.

Lemma votes_of_one_more_key (k : Z) (ks : list Z) (vs : list Vote.t) :
  ~ In k ks ->
  (length (filter (fun v => (Vote.recommendationId v =? k)%Z) vs) +
   length (filter (fun v => existsb (Z.eqb (Vote.recommendationId v)) ks) vs))%nat =
  length (filter (fun v => existsb (Z.eqb (Vote.recommendationId v)) (k :: ks)) vs).
Proof.
  intros Hk. induction vs as [|v vs IHv]; [reflexivity|].
  cbn [filter existsb].
  destruct (Z.eqb_spec (Vote.recommendationId v) k) as [Heq|Hne].
  - assert (Hno : existsb (Z.eqb (Vote.recommendationId v)) ks = false).
    { destruct (existsb _ _) eqn:E; [|reflexivity]. exfalso.
      apply existsb_exists in E. destruct E as (k' & Hk' & Hkv).
      apply Z.eqb_eq in Hkv. apply Hk. congruence. }
    rewrite Hno. cbn [orb length existsb] in *. lia.
  - cbn [orb]. destruct (existsb _ _); cbn [length existsb] in *; lia.
Qed.

(** With distinct keys, the votes of the recommendations of a list add up
    to the number of rows that name one of them. *)
Lemma votes_add_up viewer s recs :
  NoDup (map Recommendation.id recs) ->
  fold_right Z.add 0
    (map VotesRoute.voteCount (map (VotesRoute.summarize viewer s) recs)) =
  Z.of_nat (votesAmong recs s).
Proof.
  unfold votesAmong. induction recs as [|r recs IH]; intros Hnd.
  - cbn [map fold_right existsb]. rewrite filter_nil; [reflexivity|auto].
  - cbn [map] in Hnd. inversion Hnd as [|? ? Hr Hnd']; subst.
    cbn [map fold_right VotesRoute.summarize VotesRoute.voteCount].
    rewrite (IH Hnd'). unfold votesOfRecommendation. rewrite <- Nat2Z.inj_add.
    f_equal. now apply votes_of_one_more_key.
Qed.

(** X13. The tally of a live event lists its recommendations by rank, each
    with the number of vote rows that name it and their voters; its total
    is the number of vote rows that name a recommendation of the event
    (keys being distinct), its participant count the number of
    participants; and without a viewer nickname, or with an empty one, no
    recommendation is marked as voted. *)
Theorem tally_counts now eventId viewer s event :
  find (event_where eventId (Some now)) (events s) = Some event ->
  exists d,
    VotesRoute.GET now eventId viewer s = (Success d, s) /\
    map VotesRoute.recommendationId (VotesRoute.recommendations d) =
      map Recommendation.id
        (orderBy Recommendation.rank (recommendationsOf eventId s)) /\
    (forall x, In x (VotesRoute.recommendations d) ->
       VotesRoute.voters x =
         map Vote.voterNickname
           (votesOfRecommendation (VotesRoute.recommendationId x) s) /\
       VotesRoute.voteCount x = Z.of_nat (length (VotesRoute.voters x))) /\
    (uniqueRecommendationKeys s ->
     VotesRoute.totalVotes d = Z.of_nat (votesAmong (recommendationsOf eventId s) s)) /\
    VotesRoute.participantCount d = Z.of_nat (length (participantsOf eventId s)) /\
    (str_or_undefined viewer = None ->
     forall x, In x (VotesRoute.recommendations d) ->
               VotesRoute.hasCurrentUserVoted x = false).
Proof.
  intros Hlive.
  unfold VotesRoute.GET, VotesRoute.GET_body, handler.
  unfold bind at 1. unfold event_findUnique at 1. rewrite Hlive.
  unfold bind at 1. unfold include_participants at 1.
  unfold bind at 1. unfold include_recommendations at 1. unfold ret.
  eexists. split; [reflexivity|].
  cbn [VotesRoute.recommendations VotesRoute.totalVotes VotesRoute.participantCount].
  set (recs := orderBy Recommendation.rank (recommendationsOf eventId s)).
  split; [now rewrite map_map|]. split.
  { intros x Hx. apply in_map_iff in Hx. destruct Hx as (r & <- & _).
    cbn [VotesRoute.summarize VotesRoute.voters VotesRoute.voteCount
           VotesRoute.recommendationId].
    split; [reflexivity|]. now rewrite length_map. }
  split.
  { intros Hkeys. rewrite fold_left_sum, Z.add_0_l.
    rewrite (votes_add_up viewer s recs).
    - unfold votesAmong. f_equal. f_equal. apply filter_ext. intros v.
      apply existsb_same_members. intros k. unfold recs.
      rewrite !in_map_iff. split; intros (r & Hr & Hin); exists r;
        (split; [exact Hr|]);
        apply (in_orderBy Recommendation.rank (recommendationsOf eventId s) r);
        exact Hin.
    - unfold recs. apply NoDup_map_orderBy. unfold recommendationsOf.
      now apply NoDup_map_filter. }
  split; [reflexivity|].
  intros Hnone x Hx. apply in_map_iff in Hx. destruct Hx as (r & <- & _).
  cbn [VotesRoute.summarize VotesRoute.hasCurrentUserVoted]. now rewrite Hnone.
Qed.

Lemma tally_counts_witness :
  exists d,
    VotesRoute.GET 3300 "evt00001" (Some "") bobVoted = (Success d, bobVoted) /\
    map VotesRoute.recommendationId (VotesRoute.recommendations d) = [1; 2; 3] /\
    VotesRoute.totalVotes d = 1 /\
    VotesRoute.participantCount d = 2 /\
    forall x, In x (VotesRoute.recommendations d) ->
              VotesRoute.hasCurrentUserVoted x = false.
Proof.
  destruct (tally_counts 3300 "evt00001" (Some "") bobVoted
              (applyData (votingStarted 2500) (applyData nowReady lunch)) eq_refl)
    as (d & Hans & Hids & Hcounts & Htotal & Hps & Hflags).
  exists d. split; [exact Hans|].
  split; [rewrite Hids; vm_compute; reflexivity|].
  split.
  - rewrite Htotal; [vm_compute; reflexivity|].
    unfold uniqueRecommendationKeys.
    replace (map Recommendation.id (recommendations bobVoted)) with [1; 2; 3]
      by (vm_compute; reflexivity).
    repeat constructor; simpl; intuition lia.
  - split; [rewrite Hps; vm_compute; reflexivity|].
    apply Hflags. reflexivity.
Defined.

(** ** Generation that succeeds *)

(** X14. When the join that fills an event has queued the generation task
    and the generator then returns a non-empty list, the event is live
    with status VOTING and [votingStartedAt] the time of the task, its
    recommendations are those it had followed by one row per item with the
    generator's ranks, the newcomer is its last participant, and no vote
    is touched. *)
Theorem filling_join_opens_voting llm now random dateNow later eventId body s
  response t s1 r i recs :
  ParticipantsRoute.POST now random dateNow eventId body s =
    ((response, Some t), s1) ->
  llm (ParticipantsRoute.task_llmRequest t) = inr r ->
  LLM.recommendations r = Some (i :: recs) ->
  let s2 := snd (ParticipantsRoute.joinThenGenerate llm now random dateNow
                   later eventId body s) in
  (exists e, find (event_where eventId (Some now)) (events s2) = Some e /\
             Event.status e = VOTING /\
             Event.votingStartedAt e = Some later) /\
  map Recommendation.rank (recommendationsOf eventId s2) =
    map Recommendation.rank (recommendationsOf eventId s) ++
    map LLM.rank (i :: recs) /\
  participantsOf eventId s2 =
    participantsOf eventId s ++ [newcomer now random dateNow eventId body s] /\
  votes s2 = votes s.
Proof.
  intros Hpost Hllm Hrecs s2.
  destruct (join_queued_inv _ _ _ _ _ _ _ _ _ Hpost)
    as (Hvalid & event & Hlive & Hw & Hc).
  destruct (join_admitted_threshold now random dateNow eventId body s event
              Hvalid Hlive Hw Hc) as (row & Hrow & Hpost').
  rewrite Hpost in Hpost'.
  assert (Hs1 : s1 = set_events (updateWhere eventId nowReady (events s))
                       (withParticipant
                          (newcomer now random dateNow eventId body s) s))
    by congruence.
  assert (Hid : ParticipantsRoute.task_eventId t = eventId).
  { destruct (2 <=? _) in Hpost'; [|congruence].
    injection Hpost' as _ Ht _. now inversion Ht. }
  pose proof (proj2 (String.eqb_eq _ _) (find_where_id _ _ _ _ Hlive)) as Heq.
  assert (Hrow1 : find (event_where (ParticipantsRoute.task_eventId t) None)
                    (events s1) = Some (applyData nowReady row)).
  { rewrite Hid, Hs1. cbn [events set_events].
    rewrite find_updateWhere, Hrow. cbn [option_map].
    now rewrite (proj2 (String.eqb_eq _ _) (find_where_id _ _ _ _ Hrow)). }
  assert (Hs2 : s2 = ParticipantsRoute.runGenerationTask llm later t s1).
  { subst s2. unfold ParticipantsRoute.joinThenGenerate. now rewrite Hpost. }
  rewrite (generate_commits llm later t s1 r i recs _ Hllm Hrecs Hrow1) in Hs2.
  rewrite Hid in Hs2. rewrite Hs2. clear Hs2 s2.
  unfold recommendationsOf, participantsOf.
  cbn [events recommendations participants votes].
  rewrite Hs1.
  cbn [events recommendations participants votes set_events withParticipant].
  split; [|split; [|split; [|reflexivity]]].
  - rewrite !find_updateWhere, Hlive. cbn [option_map]. rewrite Heq.
    cbn [applyData Event.id]. rewrite Heq. eexists. split; [reflexivity|].
    split; reflexivity.
  - rewrite filter_app, rows_of_event, map_app, rows_ranks. reflexivity.
  - rewrite filter_app. cbn [filter newcomer Participant.eventId].
    now rewrite String.eqb_refl.
Qed.

Lemma filling_join_opens_voting_witness :
  let s2 := snd (ParticipantsRoute.joinThenGenerate llmOffline 2000 (fun _ => 5)
                   1730000000123 2500 "evt00001" bob created) in
  (exists e, find (event_where "evt00001" (Some 2000)) (events s2) = Some e /\
             Event.status e = VOTING /\
             Event.votingStartedAt e = Some 2500) /\
  map Recommendation.rank (recommendationsOf "evt00001" s2) =
    map Recommendation.rank (recommendationsOf "evt00001" created) ++
    map LLM.rank
      (match LLM.recommendations getFallbackRecommendations with
       | Some l => l
       | None => []
       end) /\
  participantsOf "evt00001" s2 =
    participantsOf "evt00001" created ++
    [newcomer 2000 (fun _ => 5) 1730000000123 "evt00001" bob created] /\
  votes s2 = votes created.
Proof.
  apply (filling_join_opens_voting llmOffline 2000 (fun _ => 5) 1730000000123
           2500 "evt00001" bob created
           (Success (joinData 2000 (fun _ => 5) 1730000000123 "evt00001" bob
                       lunch created))
           queued bobJoined getFallbackRecommendations);
    vm_compute; reflexivity.
Defined.

(** X15. A retry that passes the checks and whose generator returns a
    non-empty list answers with success and status VOTING; the event then
    has exactly one recommendation per item, with the generator's ranks
    (the earlier ones are gone), and it is live with status VOTING and
    [votingStartedAt] the time of the request. *)
Theorem retry_success_replaces_recommendations llm now eventId creatorNickname
  s event creator r i recs :
  nicknameSchema creatorNickname = true ->
  find (event_where eventId (Some now)) (events s) = Some event ->
  let ps := orderBy Participant.joinedAt (participantsOf eventId s) in
  Event.status event = READY ->
  Z.of_nat (length ps) = Event.expectedParticipants event ->
  find Participant.isCreator ps = Some creator ->
  Participant.nickname creator = creatorNickname ->
  llm (llmRequestOf event ps) = inr r ->
  LLM.recommendations r = Some (i :: recs) ->
  exists s',
    RetryRoute.POST llm now eventId (Some creatorNickname) s =
      (Success (RetryRoute.mkRetryData "Recommendations generated successfully"
                  VOTING), s') /\
    length (recommendationsOf eventId s') = length (i :: recs) /\
    map Recommendation.rank (recommendationsOf eventId s') =
      map LLM.rank (i :: recs) /\
    exists e, find (event_where eventId (Some now)) (events s') = Some e /\
              Event.status e = VOTING /\
              Event.votingStartedAt e = Some now.
Proof.
  intros Hvalid Hlive ps Hready Hcount Hcreator Hnick Hllm Hrecs.
  destruct (find_live_some _ _ _ _ Hlive) as [row Hrow].
  destruct (persist_effect now eventId (i :: recs) s row Hrow)
    as (s' & Hpersist & _ & Hranks & Hevents).
  exists s'. split.
  - unfold RetryRoute.POST, RetryRoute.POST_body, handler.
    rewrite Hvalid. cbn [negb]. unfold bind at 1. unfold event_findUnique at 1.
    rewrite Hlive. unfold bind at 1. unfold include_participants at 1.
    fold ps. rewrite Hready. cbn [EventStatus_eqb negb].
    rewrite (proj2 (Z.eqb_eq _ _) Hcount). cbn [negb].
    rewrite Hcreator, (proj2 (String.eqb_eq _ _) Hnick). cbn [negb].
    unfold RetryRoute.regenerate. rewrite Hllm, Hrecs.
    unfold bind. rewrite Hpersist. reflexivity.
  - split; [|split; [exact Hranks|]].
    + rewrite <- (length_map Recommendation.rank), Hranks. apply length_map.
    + rewrite Hevents, find_updateWhere, Hlive. cbn [option_map].
      rewrite (proj2 (String.eqb_eq _ _) (find_where_id _ _ _ _ Hlive)).
      eexists. split; [reflexivity|]. split; reflexivity.
Qed.

Lemma retry_success_replaces_recommendations_witness :
  let items := match LLM.recommendations getFallbackRecommendations with
               | Some l => l
               | None => []
               end in
  exists s',
    RetryRoute.POST llmOffline 2200 "evt00001" (Some "Alice") bobJoined =
      (Success (RetryRoute.mkRetryData "Recommendations generated successfully"
                  VOTING), s') /\
    length (recommendationsOf "evt00001" s') = length items /\
    map Recommendation.rank (recommendationsOf "evt00001" s') =
      map LLM.rank items /\
    exists e, find (event_where "evt00001" (Some 2200)) (events s') = Some e /\
              Event.status e = VOTING /\
              Event.votingStartedAt e = Some 2200.
Proof.
  apply (retry_success_replaces_recommendations llmOffline 2200 "evt00001"
           "Alice" bobJoined (applyData nowReady lunch) alice
           getFallbackRecommendations);
    vm_compute; reflexivity.
Defined.

(** ** What a join leaves as it was *)

Lemma NoDup_snoc {A} (l : list A) x : NoDup l -> ~ In x l -> NoDup (l ++ [x]).
Proof.
  induction l as [|y l IH]; intros Hnd Hx; cbn [app].
  - constructor; [exact Hx|constructor].
  - inversion Hnd as [|? ? Hy Hnd']; subst. constructor.
    + rewrite in_app_iff. cbn [In]. intros [H|[H|[]]]; [contradiction|].
      apply Hx. left. symmetry. exact H.
    + apply IH; [exact Hnd'|]. intros H. apply Hx. now right.
Qed.

(** The store a join request leaves: the one it found, or that store with
    the newcomer, the status set to READY when the newcomer fills the
    event. *)
Lemma join_store now random dateNow eventId body s :
  let s' := snd (ParticipantsRoute.POST now random dateNow eventId body s) in
  let p := newcomer now random dateNow eventId body s in
  s' = s \/
  exists event,
    joinEventSchema body = true /\
    find (event_where eventId (Some now)) (events s) = Some event /\
    Event.status event = WAITING /\
    Z.of_nat (length (participantsOf eventId s)) + 1
      <= Event.expectedParticipants event /\
    (s' = withParticipant p s \/
     s' = set_events (updateWhere eventId nowReady (events s)) (withParticipant p s)).
Proof.
  intros s' p. subst s'.
  destruct (joinEventSchema body) eqn:Hvalid.
  2:{ left. unfold ParticipantsRoute.POST, ParticipantsRoute.POST_body, handler.
      rewrite Hvalid. reflexivity. }
  destruct (find (event_where eventId (Some now)) (events s)) as [event|] eqn:Hlive.
  2:{ left. unfold ParticipantsRoute.POST, ParticipantsRoute.POST_body, handler.
      rewrite Hvalid. cbn [negb]. unfold bind at 1.
      unfold event_findUnique at 1. rewrite Hlive. reflexivity. }
  destruct (EventStatus_eqb_spec (Event.status event) WAITING) as [Hw|Hw].
  2:{ left. rewrite (join_rejected now random dateNow eventId body s event
                       Hvalid Hlive); [reflexivity|now left]. }
  destruct (Z_lt_le_dec (Z.of_nat (length (participantsOf eventId s)))
              (Event.expectedParticipants event)) as [Hlt|Hge].
  2:{ left. rewrite (join_rejected now random dateNow eventId body s event
                       Hvalid Hlive); [reflexivity|now right]. }
  right. exists event.
  split; [reflexivity|]. split; [reflexivity|]. split; [exact Hw|].
  split; [lia|].
  destruct (Z.eq_dec (Z.of_nat (length (participantsOf eventId s)) + 1)
              (Event.expectedParticipants event)) as [Heq|Hne].
  - right.
    destruct (join_admitted_threshold now random dateNow eventId body s event
                Hvalid Hlive Hw Heq) as (row & _ & ->). reflexivity.
  - left.
    rewrite (join_admitted_below now random dateNow eventId body s event
               Hvalid Hlive Hw); [reflexivity|lia].
Qed.

(** X16. A join request, whatever its answer, touches no recommendation
    and no vote, no participant of another event and no row of another
    event; and it never takes an event over its expected number of
    participants: if the live event had at most that many, it still has. *)
Theorem join_frame now random dateNow eventId body s :
  let s' := snd (ParticipantsRoute.POST now random dateNow eventId body s) in
  recommendations s' = recommendations s /\
  votes s' = votes s /\
  (forall other, other <> eventId ->
     participantsOf other s' = participantsOf other s) /\
  (forall other liveAt, other <> eventId ->
     find (event_where other liveAt) (events s') =
     find (event_where other liveAt) (events s)) /\
  (forall event,
     find (event_where eventId (Some now)) (events s) = Some event ->
     Z.of_nat (length (participantsOf eventId s))
       <= Event.expectedParticipants event ->
     Z.of_nat (length (participantsOf eventId s'))
       <= Event.expectedParticipants event).
Proof.
  intros s'.
  destruct (join_store now random dateNow eventId body s)
    as [Hsame|(event & Hvalid & Hlive & Hw & Hc & Hs')];
    fold s' in Hsame || fold s' in Hs'.
  { rewrite Hsame. repeat split; auto. }
  assert (Hother : forall other, other <> eventId ->
            participantsOf other
              (withParticipant (newcomer now random dateNow eventId body s) s) =
            participantsOf other s).
  { intros other Hne. unfold participantsOf, withParticipant.
    cbn [participants]. rewrite filter_app.
    cbn [filter newcomer Participant.eventId].
    destruct (String.eqb_spec eventId other) as [Heq|_];
      [congruence|apply app_nil_r]. }
  assert (Hfind : forall other liveAt, other <> eventId ->
            find (event_where other liveAt)
              (updateWhere eventId nowReady (events s)) =
            find (event_where other liveAt) (events s)).
  { intros other liveAt Hne. rewrite find_updateWhere.
    destruct (find (event_where other liveAt) (events s)) as [e|] eqn:E;
      [|reflexivity].
    cbn [option_map]. rewrite <- (find_where_id _ _ _ _ E) in Hne.
    now rewrite (proj2 (String.eqb_neq _ _) Hne). }
  assert (Hcount : participantsOf eventId s' =
                   participantsOf eventId s ++
                   [newcomer now random dateNow eventId body s]).
  { destruct Hs' as [-> | ->];
      [|change (participantsOf eventId (set_events ?es ?st))
          with (participantsOf eventId st)];
      now apply participantsOf_withParticipant. }
  split; [destruct Hs' as [-> | ->]; reflexivity|].
  split; [destruct Hs' as [-> | ->]; reflexivity|].
  split; [intros other Hne; destruct Hs' as [-> | ->]; now apply Hother|].
  split.
  - intros other liveAt Hne. destruct Hs' as [-> | ->]; [reflexivity|].
    now apply Hfind.
  - intros event' Hlive' _. rewrite Hcount, length_app, Nat2Z.inj_add.
    cbn [length]. change (Z.of_nat 1) with 1. congruence.
Qed.

(** X17. An admitted join adds the assigned nickname after the nicknames
    of the event.  The nicknames stay pairwise distinct when the requested
    one is free or one of the 90 drawn candidates is; when the requested
    one, the 90 candidates and the time-stamped name are all taken, the
    newcomer gets a nickname that another participant of the event has. *)
Theorem join_nicknames now random dateNow eventId body s event :
  joinEventSchema body = true ->
  find (event_where eventId (Some now)) (events s) = Some event ->
  Event.status event = WAITING ->
  Z.of_nat (length (participantsOf eventId s)) < Event.expectedParticipants event ->
  let names := map Participant.nickname (participantsOf eventId s) in
  let base := jb_nickname body in
  let assigned := assignedNickname random dateNow eventId body s in
  let s' := snd (ParticipantsRoute.POST now random dateNow eventId body s) in
  map Participant.nickname (participantsOf eventId s') = names ++ [assigned] /\
  (includes names base = false \/
   (exists j, (j < 90)%nat /\ includes names (candidate random base j) = false) ->
   NoDup names -> NoDup (names ++ [assigned])) /\
  (includes names base = true ->
   (forall j, (j < 90)%nat -> includes names (candidate random base j) = true) ->
   includes names (timestampName dateNow base) = true ->
   assigned = timestampName dateNow base /\ In assigned names).
Proof.
  intros Hvalid Hlive Hw Hc names base assigned s'.
  split; [|split].
  - assert (Hps : participantsOf eventId s' =
                  participantsOf eventId s ++
                  [newcomer now random dateNow eventId body s]).
    { unfold s'.
      destruct (Z.eq_dec (Z.of_nat (length (participantsOf eventId s)) + 1)
                  (Event.expectedParticipants event)) as [Heq|Hne].
      - destruct (join_admitted_threshold now random dateNow eventId body s
                    event Hvalid Hlive Hw Heq) as (row & _ & ->).
        cbn [snd].
        change (participantsOf eventId (set_events ?es ?st))
          with (participantsOf eventId st).
        now apply participantsOf_withParticipant.
      - rewrite (join_admitted_below now random dateNow eventId body s event
                   Hvalid Hlive Hw) by lia.
        cbn [snd]. now apply participantsOf_withParticipant. }
    rewrite Hps, map_app. reflexivity.
  - intros Hfree Hnd. apply NoDup_snoc; [exact Hnd|].
    apply includes_false. subst assigned. unfold assignedNickname.
    fold names base. unfold generateUniqueNickname.
    destruct (includes names base) eqn:Hbase; cbn [negb]; [|exact Hbase].
    destruct Hfree as [Hfree|(j & Hj & Hfree)]; [discriminate|].
    destruct (retryLoop_result random dateNow base names maxAttempts 0%nat)
      as [(k & _ & Hres & Hk & _)|[Hall _]].
    + unfold maxAttempts. lia.
    + intros j' Hj'. lia.
    + exact Hk.
    + rewrite (Hall j) in Hfree; [discriminate|exact Hj].
  - intros Hbase Hall Hstamp.
    assert (Hres : assigned = timestampName dateNow base).
    { subst assigned. unfold assignedNickname. fold names base.
      unfold generateUniqueNickname. rewrite Hbase. cbn [negb].
      destruct (retryLoop_result random dateNow base names maxAttempts 0%nat)
        as [(k & Hk & Hres & Hfree & _)|[_ Hres]].
      - unfold maxAttempts. lia.
      - intros j' Hj'. lia.
      - rewrite Hres, (Hall k) in Hfree; [discriminate|].
        unfold maxAttempts in Hk. lia.
      - exact Hres. }
    split; [exact Hres|]. rewrite Hres. now apply includes_true.
Qed.

Lemma join_nicknames_witness :
  let names := map Participant.nickname (participantsOf "evt00001" created) in
  let assigned :=
    assignedNickname (fun _ => 5) 1730000000123 "evt00001"
      (mkJoinBody "Alice" "Addr B") created in
  let s' := snd (ParticipantsRoute.POST 2000 (fun _ => 5) 1730000000123
                   "evt00001" (mkJoinBody "Alice" "Addr B") created) in
  map Participant.nickname (participantsOf "evt00001" s') = ["Alice"; "Alice_15"] /\
  NoDup (names ++ [assigned]).
Proof.
  destruct (join_nicknames 2000 (fun _ => 5) 1730000000123 "evt00001"
              (mkJoinBody "Alice" "Addr B") created lunch
              eq_refl eq_refl eq_refl eq_refl) as (Hnames & Hdistinct & _).
  split; [exact Hnames|].
  apply Hdistinct.
  - right. exists 0%nat. split; [lia|reflexivity].
  - repeat constructor. simpl. tauto.
Defined.

(** ** The lifecycle *)

Lemma step_same now eventId s s' :
  events s' = events s -> lifecycleStep now eventId s s'.
Proof.
  intros Hev e He. exists e. rewrite Hev. split; [exact He|now left].
Qed.

Lemma step_update now eventId d s s' :
  events s' = updateWhere eventId d (events s) ->
  (forall e, find (event_where eventId (Some now)) (events s) = Some e ->
             match d_status d with
             | Some st => canTransitionTo (Event.status e) st = true
             | None => True
             end) ->
  lifecycleStep now eventId s s'.
Proof.
  intros Hev Hd e He. rewrite Hev, find_updateWhere, He. cbn [option_map].
  rewrite (proj2 (String.eqb_eq _ _) (find_where_id _ _ _ _ He)).
  eexists. split; [reflexivity|]. specialize (Hd e He).
  cbn [applyData Event.status]. destruct (d_status d); cbn [or_else]; auto.
Qed.

(** The store the retry route leaves once the checks have passed. *)
Lemma regenerate_store llm now eventId event ps s row :
  find (event_where eventId None) (events s) = Some row ->
  let s' := snd (handler (RetryRoute.regenerate llm now eventId event ps)
                   (Failure LLM_ERROR 503) s) in
  s' = s \/ events s' = updateWhere eventId (votingStarted now) (events s).
Proof.
  intros Hrow s'. subst s'. unfold RetryRoute.regenerate, handler.
  destruct (llm _) as [e|r]; [now left|].
  destruct (LLM.recommendations r) as [[|i recs]|]; [now left| |now left].
  destruct (persist_effect now eventId (i :: recs) s row Hrow)
    as (s' & Hpersist & _ & _ & Hevents).
  right. unfold bind. rewrite Hpersist. exact Hevents.
Qed.

(** X18. Every request handler leaves the live row of its event with the
    status it had or takes it one step along the lifecycle that
    [canTransitionTo] allows: the join WAITING to READY, the retry READY
    to VOTING, the finalize VOTING to FINALIZED, the vote requests none;
    and so does the queued generation task when it finds the event
    READY. *)
Theorem requests_follow_lifecycle now eventId s :
  (forall random dateNow body,
     lifecycleStep now eventId s
       (snd (ParticipantsRoute.POST now random dateNow eventId body s))) /\
  (forall llm body,
     lifecycleStep now eventId s (snd (RetryRoute.POST llm now eventId body s))) /\
  (forall finalLocationId creatorNickname,
     lifecycleStep now eventId s
       (snd (FinalizeRoute.POST now eventId finalLocationId creatorNickname s))) /\
  (forall recIdParam nickname,
     lifecycleStep now eventId s
       (snd (VoteRoute.POST now eventId recIdParam nickname s)) /\
     lifecycleStep now eventId s
       (snd (VoteRoute.DELETE now eventId recIdParam nickname s))) /\
  (forall llm later task,
     ParticipantsRoute.task_eventId task = eventId ->
     (forall e, find (event_where eventId (Some now)) (events s) = Some e ->
                Event.status e = READY) ->
     lifecycleStep now eventId s
       (ParticipantsRoute.runGenerationTask llm later task s)).
Proof.
  split; [|split; [|split; [|split]]].
  - intros random dateNow body.
    destruct (join_store now random dateNow eventId body s)
      as [->|(event & _ & Hlive & Hw & _ & [-> | ->])].
    + now apply step_same.
    + now apply step_same.
    + apply (step_update now eventId nowReady); [reflexivity|].
      intros e He. cbn [nowReady d_status].
      assert (e = event) by congruence. subst e. now rewrite Hw.
  - intros llm body e He.
    assert (Hstep : lifecycleStep now eventId s
                      (snd (RetryRoute.POST llm now eventId body s)));
      [|exact (Hstep e He)].
    destruct body as [creatorNickname|].
    2:{ now apply step_same. }
    destruct (nicknameSchema creatorNickname) eqn:Hvalid.
    2:{ apply step_same. unfold RetryRoute.POST, RetryRoute.POST_body, handler.
        now rewrite Hvalid. }
    rewrite (retry_answer llm now eventId creatorNickname s e Hvalid He).
    destruct (EventStatus_eqb_spec (Event.status e) READY) as [Hr|Hr];
      cbn [negb]; [|now apply step_same].
    destruct (negb (_ =? _)); [now apply step_same|].
    destruct (negb (isCreatorNickname _ _)); [now apply step_same|].
    destruct (find_live_some _ _ _ _ He) as [row Hrow].
    destruct (regenerate_store llm now eventId e
                (orderBy Participant.joinedAt (participantsOf eventId s)) s row
                Hrow) as [-> |Hev].
    + now apply step_same.
    + apply (step_update now eventId (votingStarted now)); [exact Hev|].
      intros e0 He0. cbn [votingStarted d_status].
      assert (e0 = e) by congruence. subst e0. now rewrite Hr.
  - intros finalLocationId creatorNickname e He.
    assert (Hstep : lifecycleStep now eventId s
                      (snd (FinalizeRoute.POST now eventId finalLocationId
                              creatorNickname s)));
      [|exact (Hstep e He)].
    destruct (positiveSchema finalLocationId && nicknameSchema creatorNickname)
      eqn:Hvalid.
    2:{ apply step_same. unfold FinalizeRoute.POST, FinalizeRoute.POST_body, handler.
        now rewrite Hvalid. }
    apply andb_true_iff in Hvalid. destruct Hvalid as [Hpos Hnick].
    rewrite (finalize_answer now eventId finalLocationId creatorNickname s e
               Hpos Hnick He).
    destruct (EventStatus_eqb_spec (Event.status e) VOTING) as [Hv|Hv];
      cbn [negb]; [|now apply step_same].
    destruct (filter Participant.isCreator _) as [|creator others];
      [now apply step_same|].
    destruct (negb (String.eqb _ _)); [now apply step_same|].
    destruct (filter _ (recommendationsOf eventId s)); [now apply step_same|].
    cbv zeta.
    assert (Hstep : lifecycleStep now eventId s
                      (set_events
                         (updateWhere eventId (finalized now finalLocationId)
                            (events s)) s)).
    { apply (step_update now eventId (finalized now finalLocationId));
        [reflexivity|].
      intros e0 He0. cbn [finalized d_status].
      assert (e0 = e) by congruence. subst e0. now rewrite Hv. }
    destruct (recommendationById finalLocationId s); exact Hstep.
  - intros recIdParam nickname. split.
    + destruct (vote_post_store now eventId recIdParam nickname s)
        as [->|[(rid & _ & ->)|(rid & old & _ & ->)]]; now apply step_same.
    + destruct (vote_delete_store now eventId recIdParam nickname s)
        as [->|(old & ->)]; now apply step_same.
  - intros llm later task Hid Hready. subst eventId.
    destruct (llm (ParticipantsRoute.task_llmRequest task)) as [err|r] eqn:Hllm.
    { destruct (failed_task_effect llm later task s) as [-> | ->].
      - now rewrite Hllm.
      - now apply step_same.
      - apply (step_update now _ (touched later)); [reflexivity|].
        intros; exact I. }
    destruct (LLM.recommendations r) as [[|i recs]|] eqn:Hrecs.
    2:{ intros e He. destruct (find_live_some _ _ _ _ He) as [row Hrow].
        revert e He.
        apply (step_update now _ (votingStarted later)).
        - now rewrite (generate_commits llm later task s r i recs row Hllm Hrecs Hrow).
        - intros e He. cbn [votingStarted d_status]. now rewrite (Hready e He). }
    all: destruct (failed_task_effect llm later task s) as [-> | ->];
      [unfold generationFailed; now rewrite Hllm, Hrecs|now apply step_same|
       apply (step_update now _ (touched later)); [reflexivity|intros; exact I]].
Qed.

(** X19. The queued generation task does not read the status of the event:
    when the generator returns a non-empty list, the row of the event ends
    with status VOTING and [votingStartedAt] the time of the task, with
    one more recommendation per item, whatever the status was.  An event
    that was FINALIZED in the meantime is in VOTING again, a step
    [canTransitionTo] does not allow, and keeps its [votingEndedAt] and
    its [finalLocationId]. *)
Theorem late_generation_reopens_voting llm later task s e r i recs :
  let eventId := ParticipantsRoute.task_eventId task in
  find (event_where eventId None) (events s) = Some e ->
  llm (ParticipantsRoute.task_llmRequest task) = inr r ->
  LLM.recommendations r = Some (i :: recs) ->
  let s' := ParticipantsRoute.runGenerationTask llm later task s in
  exists e',
    find (event_where eventId None) (events s') = Some e' /\
    Event.status e' = VOTING /\
    Event.votingStartedAt e' = Some later /\
    Event.votingEndedAt e' = Event.votingEndedAt e /\
    Event.finalLocationId e' = Event.finalLocationId e /\
    (Event.status e = FINALIZED ->
     canTransitionTo (Event.status e) (Event.status e') = false) /\
    length (recommendationsOf eventId s') =
      (length (recommendationsOf eventId s) + length (i :: recs))%nat.
Proof.
  intros eventId Hrow Hllm Hrecs s'. subst s' eventId.
  rewrite (generate_keeps_rows llm later task s r i recs e Hllm Hrecs Hrow).
  rewrite (generate_commits llm later task s r i recs e Hllm Hrecs Hrow).
  cbn [events]. rewrite find_updateWhere, Hrow. cbn [option_map].
  rewrite (proj2 (String.eqb_eq _ _) (find_where_id _ _ _ _ Hrow)).
  eexists. split; [reflexivity|].
  cbn [applyData votingStarted Event.status Event.votingStartedAt
         Event.votingEndedAt Event.finalLocationId d_status d_votingStartedAt
         d_votingEndedAt d_finalLocationId or_else some_or].
  split; [reflexivity|]. split; [reflexivity|]. split; [reflexivity|].
  split; [reflexivity|]. split; [now intros ->|].
  rewrite length_app. f_equal.
  rewrite <- (length_map Recommendation.rank), rows_ranks. apply length_map.
Qed.

Lemma late_generation_reopens_voting_witness :
  let e := applyData (finalized 3500 1)
             (applyData (votingStarted 2200) (applyData nowReady lunch)) in
  let items := match LLM.recommendations getFallbackRecommendations with
               | Some l => l
               | None => []
               end in
  (find (event_where "evt00001" None) (events closedEarly) = Some e /\
   Event.status e = FINALIZED) /\
  let s' := ParticipantsRoute.runGenerationTask llmOffline 3600 queued closedEarly in
  exists e',
    find (event_where "evt00001" None) (events s') = Some e' /\
    Event.status e' = VOTING /\
    Event.votingStartedAt e' = Some 3600 /\
    Event.votingEndedAt e' = Event.votingEndedAt e /\
    Event.finalLocationId e' = Event.finalLocationId e /\
    (Event.status e = FINALIZED ->
     canTransitionTo (Event.status e) (Event.status e') = false) /\
    length (recommendationsOf "evt00001" s') =
      (length (recommendationsOf "evt00001" closedEarly) + length items)%nat.
Proof.
  split; [split; reflexivity|].
  apply (late_generation_reopens_voting llmOffline 3600 queued closedEarly
           (applyData (finalized 3500 1)
              (applyData (votingStarted 2200) (applyData nowReady lunch)))
           getFallbackRecommendations);
    vm_compute; reflexivity.
Defined.

(** ** Creating an event *)

Lemma createEventSchema_fields dateParse body data :
  EventsRoute.createEventSchema dateParse body = Some data ->
  EventsRoute.title data = EventsRoute.title body /\
  EventsRoute.creatorNickname data = EventsRoute.creatorNickname body /\
  EventsRoute.creatorAddress data = EventsRoute.creatorAddress body /\
  EventsRoute.expectedParticipants data = EventsRoute.expectedParticipants body /\
  2 <= EventsRoute.expectedParticipants body <= 50.
Proof.
  unfold EventsRoute.createEventSchema.
  destruct (_ && _) eqn:E; [|discriminate].
  intros H. injection H as <-. cbn.
  repeat (apply andb_true_iff in E; destruct E as [E ?]).
  repeat split; lia.
Qed.

Lemma create_fresh dateParse now baseUrl ids expiry s data :
  idsFresh ids s ->
  exists e,
    EventsRoute.create dateParse now baseUrl ids expiry data s =
    (inr (Success (EventsRoute.mkCreated (fst ids) (snd ids)
                     (str_or baseUrl "http://localhost:3000" ++ "/event/" ++
                      fst ids)%string)),
     mkStore (events s ++ [e])
       (participants s ++
        [Participant.mk (nextParticipantId s) (fst ids)
           (EventsRoute.creatorNickname data) (EventsRoute.creatorAddress data)
           true now])
       (recommendations s) (votes s) (nextParticipantId s + 1)
       (nextRecommendationId s) (nextVoteId s)) /\
    Event.id e = fst ids /\ Event.shortCode e = snd ids /\
    Event.title e = EventsRoute.title data /\
    Event.status e = WAITING /\
    Event.expectedParticipants e = EventsRoute.expectedParticipants data /\
    Event.expiresAt e = expiry.
Proof.
  intros Hfresh. unfold EventsRoute.create, bind, event_create.
  assert (Hno : existsb (fun e => String.eqb (Event.id e) (fst ids) ||
                                  String.eqb (Event.shortCode e) (snd ids))
                  (events s) = false).
  { destruct (existsb _ _) eqn:E; [|reflexivity]. exfalso.
    apply existsb_exists in E. destruct E as (e & Hin & He).
    destruct (Hfresh e Hin) as [Hid Hcode].
    apply orb_true_iff in He. destruct He as [He|He];
      apply String.eqb_eq in He; contradiction. }
  rewrite Hno. eexists. split; [reflexivity|]. repeat split.
Qed.

Lemma create_clash dateParse now baseUrl ids expiry s data :
  idsTaken ids s ->
  EventsRoute.create dateParse now baseUrl ids expiry data s =
  (inl (PrismaError "P2002"), s).
Proof.
  intros (e & Hin & He). unfold EventsRoute.create, bind, event_create.
  assert (Hyes : existsb (fun e => String.eqb (Event.id e) (fst ids) ||
                                   String.eqb (Event.shortCode e) (snd ids))
                   (events s) = true).
  { apply existsb_exists. exists e. split; [exact Hin|].
    apply orb_true_iff. destruct He as [He|He]; [left|right];
      now apply String.eqb_eq. }
  now rewrite Hyes.
Qed.

(** X20. A valid creation request with an id and a short code that no
    event has answers with them and with the link of the event.  The
    event is then live with status WAITING, between 2 and 50 expected
    participants and the creator as its only participant; a valid join
    request to it is admitted; and the short-code route finds it by its
    code when the code is in upper case. *)
Theorem created_event_is_open dateParse now ids expiry ids' expiry' baseUrl
  body data s :
  EventsRoute.createEventSchema dateParse body = Some data ->
  idsFresh ids s ->
  participantsOf (fst ids) s = [] ->
  now < expiry ->
  exists e s',
    EventsRoute.POST dateParse now ids expiry ids' expiry' baseUrl body s =
      (Success (EventsRoute.mkCreated (fst ids) (snd ids)
                  (str_or baseUrl "http://localhost:3000" ++ "/event/" ++
                   fst ids)%string), s') /\
    find (event_where (fst ids) (Some now)) (events s') = Some e /\
    Event.status e = WAITING /\
    Event.title e = EventsRoute.title body /\
    Event.expectedParticipants e = EventsRoute.expectedParticipants body /\
    2 <= Event.expectedParticipants e <= 50 /\
    map (fun p => (Participant.nickname p, Participant.isCreator p))
      (participantsOf (fst ids) s') = [(EventsRoute.creatorNickname body, true)] /\
    (forall random dateNow request,
       joinEventSchema request = true ->
       exists answer task s'',
         ParticipantsRoute.POST now random dateNow (fst ids) request s' =
         ((Success answer, task), s'')) /\
    (toUpperCase (snd ids) = snd ids ->
     CodeRoute.GET now (snd ids) s' =
     (Success (CodeRoute.mkFound (fst ids) (EventsRoute.title body) (snd ids)), s')).
Proof.
  intros Hschema Hfresh Hnone Hlive.
  destruct (createEventSchema_fields dateParse body data Hschema)
    as (Htitle & Hnick & Haddr & Hexp & Hrange).
  destruct (create_fresh dateParse now baseUrl ids expiry s data Hfresh)
    as (e & Hcreate & Hid & Hcode & Het & Hst & Hee & Hexpiry).
  match type of Hcreate with _ = (_, ?st) => set (s' := st) in * end.
  exists e, s'. split.
  { unfold EventsRoute.POST, handler, try_catch, EventsRoute.POST_body.
    rewrite Hschema, Hcreate. reflexivity. }
  assert (Hskip : forall f : Event.t -> bool,
            (forall e0, f e0 = true ->
                        Event.id e0 = fst ids \/ Event.shortCode e0 = snd ids) ->
            find f (events s) = None).
  { intros f Hf. destruct (find f (events s)) as [e0|] eqn:E; [|reflexivity].
    exfalso. apply find_some in E. destruct E as [Hin He0].
    destruct (Hfresh e0 Hin) as [Hi Hc]. destruct (Hf e0 He0); contradiction. }
  assert (Hfind : find (event_where (fst ids) (Some now)) (events s') = Some e).
  { change (events s') with (events s ++ [e]). apply find_last.
    - apply Hskip. intros e0 He0. left.
      apply andb_true_iff in He0. destruct He0 as [He0 _].
      now apply String.eqb_eq in He0.
    - unfold event_where. rewrite Hid, String.eqb_refl, Hexpiry.
      now apply Z.ltb_lt. }
  assert (Hps : participantsOf (fst ids) s' =
                [Participant.mk (nextParticipantId s) (fst ids)
                   (EventsRoute.creatorNickname data)
                   (EventsRoute.creatorAddress data) true now]).
  { unfold participantsOf in *. subst s'. cbn [participants].
    rewrite filter_app, Hnone.
    cbn [filter Participant.eventId app]. now rewrite String.eqb_refl. }
  split; [exact Hfind|]. split; [exact Hst|]. split; [congruence|].
  split; [congruence|]. split; [rewrite Hee, Hexp; exact Hrange|].
  split; [rewrite Hps; cbn; now rewrite Hnick|]. split.
  - intros random dateNow request Hvalid.
    destruct (join_admitted now random dateNow (fst ids) request s' e
                Hvalid Hfind Hst) as (task & s'' & Hpost).
    + rewrite Hps. cbn [length]. change (Z.of_nat 1) with 1. lia.
    + eexists _, task, s''. exact Hpost.
  - intros Hupper. unfold CodeRoute.GET, handler. rewrite Hupper.
    change (events s') with (events s ++ [e]).
    rewrite (find_last _ (events s) e).
    + unfold ret. rewrite Hid, Hcode, Het, Htitle. reflexivity.
    + apply Hskip. intros e0 He0. right.
      apply andb_true_iff in He0. destruct He0 as [He0 _].
      now apply String.eqb_eq in He0.
    + rewrite Hcode, String.eqb_refl, Hexpiry. now apply Z.ltb_lt.
Qed.

Lemma created_event_is_open_witness :
  let body := EventsRoute.mkCreateBody "Dinner" "Carol" "Addr C" "dining" None None 3 in
  exists s',
    EventsRoute.POST (fun _ => None) 1500 ("evt00002", "XYZ789") 9000
      ("evt00003", "QRS456") 9100 None body created =
      (Success (EventsRoute.mkCreated "evt00002" "XYZ789"
                  "http://localhost:3000/event/evt00002"), s') /\
    map (fun p => (Participant.nickname p, Participant.isCreator p))
      (participantsOf "evt00002" s') = [("Carol", true)] /\
    CodeRoute.GET 1500 "XYZ789" s' =
      (Success (CodeRoute.mkFound "evt00002" "Dinner" "XYZ789"), s').
Proof.
  intros body.
  destruct (created_event_is_open (fun _ => None) 1500 ("evt00002", "XYZ789") 9000
              ("evt00003", "QRS456") 9100 None body body created)
    as (e & s' & Hpost & _ & _ & _ & _ & _ & Hps & _ & Hcode).
  - reflexivity.
  - intros e [<-|[]]. split; discriminate.
  - reflexivity.
  - reflexivity.
  - exists s'. split; [exact Hpost|]. split; [exact Hps|].
    apply Hcode. reflexivity.
Defined.

(** X21. When the id or the short code drawn for a valid creation request
    is taken, the answer is NETWORK_ERROR (500) and nothing is written,
    also when the second draw of the catch block is free: the retry reads
    the body of the request a second time, which rejects, so it never gets
    to create the event. *)
Theorem create_clash_is_an_error dateParse now ids expiry ids' expiry' baseUrl
  body data s :
  EventsRoute.createEventSchema dateParse body = Some data ->
  idsTaken ids s ->
  EventsRoute.POST dateParse now ids expiry ids' expiry' baseUrl body s =
  (Failure NETWORK_ERROR 500, s).
Proof.
  intros Hschema Htaken.
  unfold EventsRoute.POST, handler, try_catch at 1, EventsRoute.POST_body.
  rewrite Hschema, (create_clash dateParse now baseUrl ids expiry s data Htaken).
  unfold EventsRoute.POST_catch.
  replace (str_includes (message_of (PrismaError "P2002")) "Unique constraint")
    with true by (vm_compute; reflexivity).
  reflexivity.
Qed.

Lemma create_clash_is_an_error_witness :
  let body := EventsRoute.mkCreateBody "Dinner" "Carol" "Addr C" "dining" None None 3 in
  idsFresh ("evt00003", "QRS456") created /\
  EventsRoute.POST (fun _ => None) 1500 ("evt00001", "XYZ789") 9000
    ("evt00003", "QRS456") 9100 None body created =
  (Failure NETWORK_ERROR 500, created).
Proof.
  intros body.
  assert (Htaken : idsTaken ("evt00001", "XYZ789") created)
    by (exists lunch; split; left; reflexivity).
  split.
  - intros e [<-|[]]. split; discriminate.
  - apply (create_clash_is_an_error (fun _ => None) 1500
             ("evt00001", "XYZ789") 9000 ("evt00003", "QRS456") 9100 None
             body body created eq_refl Htaken).
Defined.

(** ** Looking an event up by its short code *)

Lemma upper_idem c : upper (upper c) = upper c.
Proof. destruct c as [[] [] [] [] [] [] [] []]; reflexivity. Qed.

Lemma toUpperCase_idem s : toUpperCase (toUpperCase s) = toUpperCase s.
Proof.
  induction s as [|c s IH]; cbn [toUpperCase]; [reflexivity|].
  now rewrite upper_idem, IH.
Qed.

(** X22. The short-code route writes nothing and ignores the case of the
    code it is given.  What it finds is a live event whose stored code is
    the code in upper case, so an event whose stored code has a lower-case
    letter is never found; and it finds an event whenever a live one has
    the code in upper case. *)
Theorem code_lookup_ignores_case now shortCode s :
  asciiOnly shortCode = true ->
  let answer := CodeRoute.GET now shortCode s in
  snd answer = s /\
  answer = CodeRoute.GET now (toUpperCase shortCode) s /\
  (forall found, fst answer = Success found ->
     CodeRoute.short_code found = toUpperCase shortCode /\
     toUpperCase (CodeRoute.short_code found) = CodeRoute.short_code found /\
     exists e, In e (events s) /\ now < Event.expiresAt e /\
               Event.id e = CodeRoute.event_id found /\
               Event.title e = CodeRoute.title found /\
               Event.shortCode e = CodeRoute.short_code found) /\
  (forall e, In e (events s) -> now < Event.expiresAt e ->
             Event.shortCode e = toUpperCase shortCode ->
             exists found, fst answer = Success found) /\
  ((forall e, In e (events s) -> now < Event.expiresAt e ->
              Event.shortCode e <> toUpperCase shortCode) ->
   fst answer = Failure EVENT_NOT_FOUND 404).
Proof.
  intros _ answer. subst answer. unfold CodeRoute.GET, handler.
  rewrite toUpperCase_idem.
  destruct (find _ (events s)) as [e|] eqn:E; unfold ret; cbn [fst snd].
  - apply find_some in E. destruct E as [Hin He].
    apply andb_true_iff in He. destruct He as [Hcode Hlive].
    apply String.eqb_eq in Hcode. apply Z.ltb_lt in Hlive.
    split; [reflexivity|]. split; [reflexivity|]. split; [|split].
    + intros found Hfound. injection Hfound as <-. cbn.
      split; [exact Hcode|]. split; [rewrite Hcode; apply toUpperCase_idem|].
      exists e. repeat split; assumption.
    + intros. eexists. reflexivity.
    + intros Hnone. exfalso. exact (Hnone e Hin Hlive Hcode).
  - split; [reflexivity|]. split; [reflexivity|]. split; [|split].
    + intros found Hfound. discriminate.
    + intros e Hin Hlive Hcode. exfalso.
      pose proof (find_none _ _ E e Hin) as Hno. cbn beta in Hno.
      rewrite Hcode, String.eqb_refl, (proj2 (Z.ltb_lt _ _) Hlive) in Hno.
      discriminate.
    + reflexivity.
Qed.

Lemma code_lookup_ignores_case_witness :
  CodeRoute.GET 2000 "abc123" created =
    (Success (CodeRoute.mkFound "evt00001" "Lunch" "ABC123"), created) /\
  CodeRoute.GET 2000 "abc123" created = CodeRoute.GET 2000 "ABC123" created.
Proof.
  destruct (code_lookup_ignores_case 2000 "abc123" created eq_refl)
    as (_ & Hcase & _).
  split; [reflexivity|exact Hcase].
Defined.
